(** * Retrieval-augmented generation core of the agent dashboard

    A shallow embedding of the vector-search utilities ([createEmbedding],
    [addDocument], [searchDocuments], [bulkAddDocuments]), of the SQL
    function [match_documents] they call, and of the RAG agent built on
    them ([ragAgent], [hybridSearch]).

    Asynchronous functions become computations over an explicit [State]
    (the documents table, the clock, the allocator of object identities
    and the trace of requests sent to the remote services); a thrown
    value is the [Throw] outcome.  The remote services themselves are
    not part of the repository: their behaviour is a [Services] record
    over which every definition is parametrised.

    JavaScript numbers are modelled as rationals: the properties below
    only compare and order them.  [console.error] and the [usage] field
    of a completion have no bearing on any result and are left out.  An
    object or array carries the reference that identifies it, since
    [hybridSearch] compares metadata values with [===]. *)

From Stdlib Require Import QArith Qabs Lqa ZArith Ascii String.
From stdpp Require Import base option list sorting strings pretty gmap.

Set Warnings "-register-all".
Local Open Scope string_scope.
Local Open Scope list_scope.

(* ===================================================================== *)
(** ** JavaScript and JSON values *)
(* ===================================================================== *)

(** Numbers are exact: the rounding and the range of floating-point
    values, [NaN] and the infinities are left out. *)
Definition number := Q.
Definition vector := list number.

(** A JSON document as the store holds it ([jsonb]): pure data. *)
Inductive Json :=
| JNull
| JBool (b : bool)
| JNum (q : number)
| JStr (s : string)
| JArr (items : list Json)
| JObj (fields : list (string * Json)).

(** A JavaScript value.  Arrays and objects are heap objects: next to
    their contents they carry the reference [r] that identifies them, and
    it is the reference that [===] compares.  [VBuiltin name] is the
    function or object of the runtime that every object inherits under
    [name] ([Object.prototype.toString] and the like): it exists before
    any program runs and is only equal to itself. *)
Definition ref := nat.

Inductive JsVal :=
| VUndefined
| VNull
| VBool (b : bool)
| VNum (q : number)
| VStr (s : string)
| VArr (r : ref) (items : list JsVal)
| VObj (r : ref) (fields : list (string * JsVal))
| VBuiltin (name : string).

(** [Record<string, any>]: the own properties of an object, in insertion
    order, together with the object's reference. *)
Record JsObject := { obj_ref : ref; obj_fields : list (string * JsVal) }.

(** The properties every object inherits from [Object.prototype]: a
    lookup by one of these names on an object that has no such property
    of its own finds the inherited value. *)
Definition OBJECT_PROTOTYPE_KEYS : list string :=
  [ "constructor"; "__proto__"; "hasOwnProperty"; "isPrototypeOf";
    "propertyIsEnumerable"; "toLocaleString"; "toString"; "valueOf";
    "__defineGetter__"; "__defineSetter__"; "__lookupGetter__";
    "__lookupSetter__" ].

(** What [obj[key]] finds when [obj] has no own property [key]. *)
Definition inherited (key : string) : JsVal :=
  if existsb (String.eqb key) OBJECT_PROTOTYPE_KEYS
  then VBuiltin key
  else VUndefined.

(** [obj[key]]: the own property, else the inherited one, else
    [undefined]. *)
Fixpoint get_prop (fields : list (string * JsVal)) (key : string) : JsVal :=
  match fields with
  | [] => inherited key
  | (k, v) :: rest => if String.eqb k key then v else get_prop rest key
  end.

(** The reference of a value that is a heap object. *)
Definition ref_of (v : JsVal) : option ref :=
  match v with
  | VArr r _ | VObj r _ => Some r
  | _ => None
  end.

(** [a === b] *)
Definition strict_eq (a b : JsVal) : bool :=
  match a, b with
  | VUndefined, VUndefined => true
  | VNull, VNull => true
  | VBool x, VBool y => Bool.eqb x y
  | VNum x, VNum y => Qeq_bool x y
  | VStr x, VStr y => String.eqb x y
  | VArr r _, VArr r' _ => Nat.eqb r r'
  | VObj r _, VObj r' _ => Nat.eqb r r'
  | VBuiltin x, VBuiltin y => String.eqb x y
  | _, _ => false
  end.

(** Deep value equality, the comparison the design notes ask for: two
    values are equal when they have the same shape and the same
    primitive leaves, whatever the references of the objects on the way.
    Objects are compared as maps (same keys, equal values). *)
Fixpoint deep_eq (a b : JsVal) : bool :=
  match a, b with
  | VUndefined, VUndefined => true
  | VNull, VNull => true
  | VBool x, VBool y => Bool.eqb x y
  | VNum x, VNum y => Qeq_bool x y
  | VStr x, VStr y => String.eqb x y
  | VArr _ xs, VArr _ ys =>
      (fix go (xs ys : list JsVal) : bool :=
         match xs, ys with
         | [], [] => true
         | x :: xs', y :: ys' => deep_eq x y && go xs' ys'
         | _, _ => false
         end) xs ys
  | VObj _ fa, VObj _ fb =>
      Nat.eqb (length fa) (length fb)
      && (fix go (fa : list (string * JsVal)) : bool :=
            match fa with
            | [] => true
            | (k, v) :: fa' =>
                match find (fun kv => String.eqb (fst kv) k) fb with
                | Some (_, v') => deep_eq v v'
                | None => false
                end && go fa'
            end) fa
  | VBuiltin x, VBuiltin y => String.eqb x y
  | _, _ => false
  end.

(** [JSON.parse] of a response body: the data of the document, with a
    fresh object allocated for every array and object in it.  [n] is the
    next unused reference; the result carries the next one after the
    allocation. *)
Fixpoint reify (j : Json) (n : ref) : JsVal * ref :=
  match j with
  | JNull => (VNull, n)
  | JBool b => (VBool b, n)
  | JNum q => (VNum q, n)
  | JStr s => (VStr s, n)
  | JArr items =>
      let '(vs, n') :=
        (fix go (l : list Json) (m : ref) : list JsVal * ref :=
           match l with
           | [] => ([], m)
           | x :: l' =>
               let '(v, m1) := reify x m in
               let '(vs, m2) := go l' m1 in
               (v :: vs, m2)
           end) items (S n) in
      (VArr n vs, n')
  | JObj fields =>
      let '(fs, n') :=
        (fix go (l : list (string * Json)) (m : ref)
           : list (string * JsVal) * ref :=
           match l with
           | [] => ([], m)
           | (k, x) :: l' =>
               let '(v, m1) := reify x m in
               let '(fs, m2) := go l' m1 in
               ((k, v) :: fs, m2)
           end) fields (S n) in
      (VObj n fs, n')
  end.

Fixpoint reify_fields (l : list (string * Json)) (m : ref)
  : list (string * JsVal) * ref :=
  match l with
  | [] => ([], m)
  | (k, x) :: l' =>
      let '(v, m1) := reify x m in
      let '(fs, m2) := reify_fields l' m1 in
      ((k, v) :: fs, m2)
  end.

(** A [jsonb] object column value parsed into a JavaScript object. *)
Definition reify_object (fields : list (string * Json)) (n : ref)
  : JsObject * ref :=
  let '(fs, n') := reify_fields fields (S n) in
  ({| obj_ref := n; obj_fields := fs |}, n').

(** [x || d] on strings and on optional strings: the empty string and
    [undefined] are falsy. *)
Definition str_or (x d : string) : string :=
  if String.eqb x "" then d else x.

Definition opt_str_or (x : option string) (d : string) : string :=
  match x with
  | Some s => str_or s d
  | None => d
  end.

(** [x || d] on optional numbers: [undefined] and [0] are falsy. *)
Definition num_or (x : option number) (d : number) : number :=
  match x with
  | Some q => if Qeq_bool q 0 then d else q
  | None => d
  end.

Definition int_or (x : option Z) (d : Z) : Z :=
  match x with
  | Some z => if Z.eqb z 0 then d else z
  | None => d
  end.

(** [a > b] on numbers. *)
Definition Qgtb (a b : number) : bool := negb (Qle_bool a b).

Definition LF : string := String "010"%char EmptyString.

(** [Array.prototype.join] *)
Fixpoint join (sep : string) (parts : list string) : string :=
  match parts with
  | [] => ""
  | [p] => p
  | p :: rest => p +:+ sep +:+ join sep rest
  end.

(** [s] occurs in [t]. *)
Definition substring (s t : string) : Prop :=
  exists pre post, t = pre +:+ s +:+ post.

(* ===================================================================== *)
(** ** Records exchanged with the remote services *)
(* ===================================================================== *)

(** A thrown or rejected value; the code only ever reads its [message]. *)
Record JsError := Error { message : string }.

Inductive ApiResult (A : Type) :=
| Resolved (a : A)
| Rejected (e : JsError).
Arguments Resolved {A} a.
Arguments Rejected {A} e.

Record Embedding := { embedding : vector }.
Record CreateEmbeddingResponse := { emb_data : list Embedding }.

Inductive Role := system | user | assistant.
Record Message := { role : Role; content : string }.

Record Choice := { message_content : option string }.
Record ChatCompletion := { choices : list Choice }.

(** The ids of the rows: values of the type [uuid] of the column. *)
Definition uuid := nat.
Definition timestamp := nat.

(** A row of the [documents] table.  [embedding] and [metadata] are
    nullable columns. *)
Record Row := {
  row_id : uuid;
  row_content : string;
  row_embedding : option vector;
  row_metadata : option (list (string * Json));
  row_created_at : timestamp }.

(** The record the client sends for insertion. *)
Record DocRecord := {
  doc_content : string;
  doc_embedding : vector;
  doc_metadata : list (string * Json);
  doc_created_at : timestamp }.

(** A row returned by [match_documents], before it is serialised. *)
Record MatchRow := {
  m_id : uuid;
  m_content : string;
  m_metadata : option (list (string * Json));
  m_similarity : number }.

(** [SearchResult] of the type declarations, and the items of the
    parsed RPC response, which have the same four fields. *)
Record SearchResult := {
  sr_id : uuid;
  sr_content : string;
  sr_similarity : number;
  sr_metadata : option JsObject }.

(** The [{ success, data?, error? }] shape the utilities return. *)
Record Result (A : Type) := {
  success : bool;
  data : option A;
  error : option string }.
Arguments success {A} _.
Arguments data {A} _.
Arguments error {A} _.

Definition succeed {A} (a : A) : Result A :=
  {| success := true; data := Some a; error := None |}.
Definition fail {A} (msg : string) : Result A :=
  {| success := false; data := None; error := Some msg |}.

(** [{ data, error }] as the store client resolves it. *)
Record StoreResponse (A : Type) := {
  st_data : option A;
  st_error : option JsError }.
Arguments st_data {A} _.
Arguments st_error {A} _.

(** Requests that leave the process. *)
Inductive Event :=
| EmbeddingRequest (model input : string)
| ChatRequest (model : string) (messages : list Message)
              (temperature : number) (max_tokens : Z)
| RpcRequest (fn : string) (query_embedding : vector)
             (match_threshold : number) (match_count : Z)
| InsertRequest (table : string) (records : list DocRecord).

Definition is_chat (e : Event) : bool :=
  match e with ChatRequest _ _ _ _ => true | _ => false end.
Definition is_insert (e : Event) : bool :=
  match e with InsertRequest _ _ => true | _ => false end.

(** What the store is asked to read: the search of [match_documents],
    or the listing of the table. *)
Inductive Query :=
| Match (query_embedding : vector) (match_threshold : number)
        (match_count : Z)
| Listing.

(** The reasons for which the store refuses a statement of this code:
    a vector of [n] entries for the [vector(1536)] column; arguments of
    [match_documents] that cannot be converted to the types of its
    parameters, a [match_count] that is no [int] or a [query_embedding]
    that is no vector; a negative [LIMIT]; a distance [<=>] between
    vectors of different dimensions; and a row that the policies of the
    table do not let the role of the client insert. *)
Inductive Refusal :=
| WrongDimension (n : nat)
| InvalidArgument (query_dim : nat) (match_count : Z)
| NegativeLimit
| DifferentDimensions (query_dim stored_dim : nat)
| PolicyViolation.

(** The remote services.

    The provider: its embedding and chat endpoints.

    The store: the distance operator [<=>]; [store_outage], the error
    with which it answers every request when it is out of reach or
    refuses the client altogether; [refusal], the error it raises for
    each reason above; [admitted], whether the client acts in a role the
    policies of the table admit (they name [authenticated] only, and the
    client is created with the anonymous key: without a session it is
    not admitted, and then sees no row, deletes none and may insert
    none); [index_scan], whether a search also compares the query with
    the embeddings of the rows it does not return to the client, as a
    plan that reads the index on the embeddings before it applies the
    policies does; [tie_rank], the order in which it returns rows that
    the [ORDER BY] of a query leaves tied, which is its own choice and
    may change from one query or instant to the next; [max_rows], the
    most rows it returns for a listing, when the deployment sets a
    cap. *)
Record Services := {
  embeddings_create : string -> string -> ApiResult CreateEmbeddingResponse;
  chat_completions_create :
    string -> list Message -> number -> Z -> ApiResult ChatCompletion;
  cosine_distance : vector -> vector -> number;
  store_outage : option JsError;
  refusal : Refusal -> JsError;
  admitted : bool;
  index_scan : bool;
  tie_rank : Query -> timestamp -> Row -> number;
  max_rows : option nat }.

(** The error with which the store answers the insert of a row,
    whatever the row: it is out of reach, or the policies do not admit
    the client. *)
Definition store_fault (svc : Services) : option JsError :=
  match store_outage svc with
  | Some e => Some e
  | None => if admitted svc then None else Some (refusal svc PolicyViolation)
  end.

Record State := {
  documents : list Row;
  next_uuid : uuid;
  next_ref : ref;
  clock : timestamp;
  trace : list Event }.

(* ===================================================================== *)
(** ** The monad of asynchronous code *)
(* ===================================================================== *)

Inductive Outcome (A : Type) :=
| Return (a : A)
| Throw (e : JsError).
Arguments Return {A} a.
Arguments Throw {A} e.

Definition M (A : Type) := State -> Outcome A * State.

Definition ret {A} (a : A) : M A := fun st => (Return a, st).
Definition throw {A} (e : JsError) : M A := fun st => (Throw e, st).

Definition bind {A B} (m : M A) (k : A -> M B) : M B :=
  fun st =>
    match m st with
    | (Return a, st') => k a st'
    | (Throw e, st') => (Throw e, st')
    end.

(** [try { body } catch (error) { handler }] *)
Definition try_catch {A} (body : M A) (handler : JsError -> M A) : M A :=
  fun st =>
    match body st with
    | (Return a, st') => (Return a, st')
    | (Throw e, st') => handler e st'
    end.

Declare Scope js_scope.
Delimit Scope js_scope with js.
Notation "'await' x <- m ; k" := (bind m (fun x => k))
  (at level 10, x name, m at level 100, k at level 200) : js_scope.
Notation "'exec' m ; k" := (bind m (fun _ => k))
  (at level 10, m at level 100, k at level 200) : js_scope.
Local Open Scope js_scope.

(** The state after a request has left, and after time has passed. *)
Definition log (e : Event) (st : State) : State :=
  {| documents := documents st; next_uuid := next_uuid st;
     next_ref := next_ref st; clock := clock st;
     trace := trace st ++ [e] |}.

Definition advance (st : State) : State :=
  {| documents := documents st; next_uuid := next_uuid st;
     next_ref := next_ref st; clock := S (clock st);
     trace := trace st |}.

Definition emit (e : Event) : M unit := fun st => (Return tt, log e st).

(** Time passes while a request is awaited. *)
Definition tick : M unit := fun st => (Return tt, advance st).

(** [new Date()] *)
Definition now : M timestamp := fun st => (Return (clock st), st).

(* ===================================================================== *)
(** ** Constants *)
(* ===================================================================== *)

Definition DEFAULT_MODEL : string := "gpt-4o-mini".
Definition EMBEDDING_MODEL : string := "text-embedding-3-small".
Definition DOCUMENTS_TABLE : string := "documents".
Definition SIMILARITY_THRESHOLD : number := 7 # 10.
Definition MAX_RESULTS : Z := 5.

(** [vector(1536)] in the schema and in the signature of
    [match_documents]. *)
Definition EMBEDDING_DIM : nat := 1536.

(** [int] of the signature of [match_documents]: 32 bits. *)
Definition INT_MIN : Z := -2147483648.
Definition INT_MAX : Z := 2147483647.

(** The most entries of a value of the type [vector]. *)
Definition MAX_DIMENSIONS : Z := 16000.

(** Errors raised by the runtime: the [TypeError] of reading
    [data[0].embedding] or [choices[0].message] when the array is
    empty. *)
Definition NO_EMBEDDING_ITEM : JsError :=
  Error "Cannot read properties of undefined (reading 'embedding')".
Definition NO_CHOICE : JsError :=
  Error "Cannot read properties of undefined (reading 'message')".

Definition NO_INFORMATION : string :=
  "I couldn't find any relevant information in the knowledge base. Please try rephrasing your question or add more context.".

Definition PROMPT_HEAD : string :=
  "You are a helpful assistant with access to a knowledge base. Answer the user's question based on the following relevant documents. If the documents don't contain enough information, say so clearly."
  +:+ LF +:+ LF +:+ "Relevant Documents:" +:+ LF.

Definition PROMPT_TAIL : string :=
  LF +:+ LF +:+ "Instructions:" +:+ LF
  +:+ "- Base your answer primarily on the provided documents" +:+ LF
  +:+ "- If the documents don't fully answer the question, acknowledge the limitations" +:+ LF
  +:+ "- Cite which document(s) you're referencing when appropriate" +:+ LF
  +:+ "- Be concise but thorough".

(* ===================================================================== *)
(** ** The store: [match_documents] and insertion *)
(* ===================================================================== *)

(** Stable insertion sort by ascending key: elements with equal keys
    stay in the order of the argument. *)
Fixpoint insert_by {A} (key : A -> number) (x : A) (l : list A) : list A :=
  match l with
  | [] => [x]
  | y :: l' =>
      if Qle_bool (key x) (key y) then x :: y :: l'
      else y :: insert_by key x l'
  end.

Fixpoint order_by {A} (key : A -> number) (l : list A) : list A :=
  match l with
  | [] => []
  | x :: l' => insert_by key x (order_by key l')
  end.

(** The [WHERE] clause of [match_documents], on a row of the scan and
    its distance: [1 - distance > match_threshold]. *)
Definition passing (match_threshold : number) (rd : Row * number) : Prop :=
  Qgtb (1 - rd.2)%Q match_threshold = true.

#[global] Instance passing_dec t rd : Decision (passing t rd).
Proof. unfold passing. apply _. Defined.

Section Store.
Variable svc : Services.

(** The rows of the scan whose embedding is not [NULL], each with its
    distance [embedding <=> query_embedding].  A row without embedding
    has a [NULL] distance and never passes the [WHERE] clause. *)
Definition scan (query_embedding : vector) (table : list Row)
  : list (Row * number) :=
  omap (fun r =>
          match row_embedding r with
          | Some e => Some (r, cosine_distance svc e query_embedding)
          | None => None
          end) table.

Definition select_row (rd : Row * number) : MatchRow :=
  {| m_id := row_id (fst rd);
     m_content := row_content (fst rd);
     m_metadata := row_metadata (fst rd);
     m_similarity := (1 - snd rd)%Q |}.

(** The rows of the table that the policies let the client see. *)
Definition visible (table : list Row) : list Row :=
  if admitted svc then table else [].

(** [ORDER BY key] as the store answers it at an instant: the rows come
    in ascending order of [key], and rows of equal keys in the order the
    store chooses for that query at that instant. *)
Definition arrange {A} (key : A -> number) (row_of : A -> Row)
    (q : Query) (instant : timestamp) (rows : list A) : list A :=
  order_by key (order_by (fun x => tie_rank svc q instant (row_of x)) rows).

(** The SQL function of the setup instructions, on the rows the client
    sees:
    [SELECT ..., 1 - (embedding <=> q) AS similarity FROM documents
     WHERE 1 - (embedding <=> q) > match_threshold
     ORDER BY embedding <=> q LIMIT match_count].
    The [ORDER BY] has no second key. *)
Definition match_documents (query_embedding : vector)
    (match_threshold : number) (match_count : Z) (instant : timestamp)
    (table : list Row) : list MatchRow :=
  select_row <$>
    (take (Z.to_nat match_count)
       (arrange snd fst
          (Match query_embedding match_threshold match_count) instant
          (filter (passing match_threshold)
             (scan query_embedding table)))).

(** The response body parsed on the client: every [metadata] object is
    a new object. *)
Definition reify_row (m : MatchRow) (n : ref) : SearchResult * ref :=
  match m_metadata m with
  | Some fields =>
      let '(o, n') := reify_object fields n in
      ({| sr_id := m_id m; sr_content := m_content m;
          sr_similarity := m_similarity m; sr_metadata := Some o |}, n')
  | None =>
      ({| sr_id := m_id m; sr_content := m_content m;
          sr_similarity := m_similarity m; sr_metadata := None |}, n)
  end.

Fixpoint reify_rows (l : list MatchRow) (n : ref)
  : list SearchResult * ref :=
  match l with
  | [] => ([], n)
  | m :: l' =>
      let '(r, n1) := reify_row m n in
      let '(rs, n2) := reify_rows l' n1 in
      (r :: rs, n2)
  end.

Definition store_error {A} (e : JsError) : StoreResponse A :=
  {| st_data := None; st_error := Some e |}.
Definition store_ok {A} (a : A) : StoreResponse A :=
  {| st_data := Some a; st_error := None |}.

(** One request to the store: it is sent, time passes, and the store
    either is out of reach or serves it. *)
Definition store_call {A} (ev : Event) (serve : M (StoreResponse A))
  : M (StoreResponse A) :=
  exec emit ev;
  exec tick;
  match store_outage svc with
  | Some e => ret (store_error e)
  | None => serve
  end.

(** [<=>] is only defined between vectors of the same dimension: the
    query can be compared with every embedding of the table. *)
Definition comparable (query_embedding : vector) (table : list Row)
  : bool :=
  forallb
    (fun r =>
       match row_embedding r with
       | Some e => Nat.eqb (length e) (length query_embedding)
       | None => true
       end) table.

(** The rows whose embeddings a search compares with the query: those
    the client sees, or all of them when the plan reads the index
    first. *)
Definition compared (table : list Row) : list Row :=
  if index_scan svc then table else visible table.

(** The dimension of the first embedding of another dimension than the
    query's. *)
Definition odd_dimension (query_embedding : vector) (table : list Row)
  : nat :=
  default 0%nat
    (head
       (omap (fun r =>
                match row_embedding r with
                | Some e =>
                    if Nat.eqb (length e) (length query_embedding)
                    then None
                    else Some (length e)
                | None => None
                end) table)).

(** [match_count] fits the type [int] of the parameter. *)
Definition is_int (match_count : Z) : bool :=
  Z.leb INT_MIN match_count && Z.leb match_count INT_MAX.

(** [query_embedding] is a value of the type [vector] of the parameter,
    whose length modifier the signature does not keep: it has an entry,
    and no more than [MAX_DIMENSIONS]. *)
Definition is_vector (query_embedding : vector) : bool :=
  Z.leb 1 (Z.of_nat (length query_embedding))
  && Z.leb (Z.of_nat (length query_embedding)) MAX_DIMENSIONS.

(** [supabase.rpc('match_documents', ...)].  The call fails when
    [match_count] is no [int] or [query_embedding] no vector, the
    statement for a negative [LIMIT] and when [<=>] meets an embedding
    of another dimension than the query's; otherwise the rows the
    client sees come back and are parsed. *)
Definition rpc_match_documents (query_embedding : vector)
    (match_threshold : number) (match_count : Z)
  : M (StoreResponse (list SearchResult)) :=
  store_call
    (RpcRequest "match_documents" query_embedding match_threshold
       match_count)
    (fun st =>
       if negb (is_int match_count && is_vector query_embedding)
       then
         (Return
            (store_error
               (refusal svc
                  (InvalidArgument (length query_embedding) match_count))),
          st)
       else if Z.ltb match_count 0
       then (Return (store_error (refusal svc NegativeLimit)), st)
       else if negb (comparable query_embedding (compared (documents st)))
       then
         (Return
            (store_error
               (refusal svc
                  (DifferentDimensions (length query_embedding)
                     (odd_dimension query_embedding
                        (compared (documents st)))))), st)
       else
         let '(items, n) :=
           reify_rows
             (match_documents query_embedding match_threshold match_count
                (clock st) (visible (documents st)))
             (next_ref st) in
         (Return (store_ok items),
          {| documents := documents st; next_uuid := next_uuid st;
             next_ref := n; clock := clock st; trace := trace st |})).

Definition new_row (base : uuid) (i : nat) (d : DocRecord) : Row :=
  {| row_id := base + i;
     row_content := doc_content d;
     row_embedding := Some (doc_embedding d);
     row_metadata := Some (doc_metadata d);
     row_created_at := doc_created_at d |}.

(** The number of entries of the first vector that does not fit the
    [vector(1536)] column. *)
Definition misfit (records : list DocRecord) : nat :=
  default 0%nat
    (head
       (filter (fun n => n <> EMBEDDING_DIM)
          ((fun d => length (doc_embedding d)) <$> records))).

(** [supabase.from('documents').insert(records).select()]: one
    statement, so either every record is stored or none is.  The
    [embedding] column only accepts vectors of [EMBEDDING_DIM]
    entries, and the policies only the rows of an admitted client (an
    insert of no row at all violates none). *)
Definition store_insert (records : list DocRecord)
  : M (StoreResponse (list Row)) :=
  store_call (InsertRequest DOCUMENTS_TABLE records)
    (if negb
          (forallb
             (fun d => Nat.eqb (length (doc_embedding d)) EMBEDDING_DIM)
             records)
     then ret (store_error (refusal svc (WrongDimension (misfit records))))
     else if negb (admitted svc) && negb (Nat.eqb (length records) 0)
     then ret (store_error (refusal svc PolicyViolation))
     else fun st =>
       let rows := imap (new_row (next_uuid st)) records in
       (Return (store_ok rows),
        {| documents := documents st ++ rows;
           next_uuid := next_uuid st + length records;
           next_ref := next_ref st; clock := clock st;
           trace := trace st |})).

(** [.insert(document).select().single()] *)
Definition store_insert_single (d : DocRecord) : M (StoreResponse Row) :=
  await r <- store_insert [d];
  ret {| st_data := st_data r ≫= head; st_error := st_error r |}.
End Store.

(* ===================================================================== *)
(** ** The provider client: embeddings and chat completions *)
(* ===================================================================== *)

Record ChatOptions := {
  opt_model : option string;
  opt_temperature : option number;
  opt_maxTokens : option Z }.

Record SearchOptions := {
  threshold : option number;
  maxResults : option Z }.

(** An element of the argument of [bulkAddDocuments]; the metadata is
    given by its JSON serialisation. *)
Record DocInput := {
  in_content : string;
  in_metadata : option (list (string * Json)) }.

(** [{ success, count?, error? }] *)
Record BulkResult := {
  bulk_success : bool;
  bulk_count : option nat;
  bulk_error : option string }.

Section Client.
Variable svc : Services.

(** [openai.embeddings.create({ model, input })]: the request leaves
    when the call is made ... *)
Definition embeddings_request (text : string) : M unit :=
  emit (EmbeddingRequest EMBEDDING_MODEL text).

(** ... and the caller resumes when the provider has answered. *)
Definition embeddings_response (text : string)
  : M CreateEmbeddingResponse :=
  exec tick;
  match embeddings_create svc EMBEDDING_MODEL text with
  | Resolved response => ret response
  | Rejected e => throw e
  end.

(** The part of [createEmbedding] that runs after its [await]. *)
Definition createEmbedding_resume (text : string) : M vector :=
  try_catch
    (await response <- embeddings_response text;
     match emb_data response with
     | item :: _ => ret (embedding item)
     | [] => throw NO_EMBEDDING_ITEM
     end)
    (fun error =>
       throw (Error ("Failed to create embedding: " +:+ message error))).

Definition createEmbedding (text : string) : M vector :=
  exec embeddings_request text;
  createEmbedding_resume text.

Definition createChatCompletion (messages : list Message)
    (options : option ChatOptions) : M (Result string) :=
  try_catch
    (let model := opt_str_or (options ≫= opt_model) DEFAULT_MODEL in
     let temperature := num_or (options ≫= opt_temperature) (7 # 10) in
     let max_tokens := int_or (options ≫= opt_maxTokens) 1000 in
     exec emit (ChatRequest model messages temperature max_tokens);
     exec tick;
     match chat_completions_create svc model messages temperature
             max_tokens with
     | Rejected e => throw e
     | Resolved response =>
         match choices response with
         | c :: _ =>
             ret {| success := true; data := message_content c;
                    error := None |}
         | [] => throw NO_CHOICE
         end
     end)
    (fun error =>
       ret (fail (str_or (message error) "Failed to generate response"))).

Definition aiAgentWithSystemPrompt (systemPrompt userInput : string)
  : M string :=
  try_catch
    (await response <-
       createChatCompletion
         [ {| role := system; content := systemPrompt |};
           {| role := user; content := userInput |} ] None;
     if negb (success response)
     then throw (Error (opt_str_or (error response)
                          "Failed to get response"))
     else ret (opt_str_or (data response) "No response generated"))
    (fun error => throw error).

(* =================================================================== *)
(** ** The vector database utilities *)
(* =================================================================== *)

Definition addDocument (content : string)
    (metadata : option (list (string * Json))) : M (Result Row) :=
  try_catch
    (await embedding <- createEmbedding content;
     await created_at <- now;
     let document :=
       {| doc_content := content;
          doc_embedding := embedding;
          doc_metadata := default [] metadata;
          doc_created_at := created_at |} in
     await r <- store_insert_single svc document;
     match st_error r with
     | Some e => throw e
     | None =>
         ret {| success := true; data := st_data r; error := None |}
     end)
    (fun error =>
       ret (fail (str_or (message error) "Failed to add document"))).

Definition searchDocuments (query : string)
    (options : option SearchOptions) : M (Result (list SearchResult)) :=
  try_catch
    (await queryEmbedding <- createEmbedding query;
     await r <-
       rpc_match_documents svc queryEmbedding
         (num_or (options ≫= threshold) SIMILARITY_THRESHOLD)
         (int_or (options ≫= maxResults) MAX_RESULTS);
     match st_error r with
     | Some e => throw e
     | None =>
         let results :=
           map (fun item =>
                  {| sr_id := sr_id item;
                     sr_content := sr_content item;
                     sr_similarity := sr_similarity item;
                     sr_metadata := sr_metadata item |})
             (default [] (st_data r)) in
         ret (succeed results)
     end)
    (fun error =>
       ret (fail (str_or (message error) "Failed to search documents"))).

(** *** [Promise.all]

    The promises are settled one at a time, in the order [order] in
    which the awaited requests complete; [pending !! i] is what promise
    [i] still has to run when its request completes.  Each fulfilment
    is stored at the index of its promise; the first rejection rejects
    the whole. *)
Fixpoint promise_all_settle {A} (pending : list (M A)) (order : list nat)
    (values : list (option A)) : M (list (option A)) :=
  match order with
  | [] => ret values
  | i :: order' =>
      match pending !! i with
      | None => promise_all_settle pending order' values
      | Some resume =>
          await v <- resume;
          promise_all_settle pending order' (<[i := Some v]> values)
      end
  end.

(** [None]: some promise is never settled by [order], and neither is
    the combined one. *)
Definition promise_all {A} (pending : list (M A)) (order : list nat)
    (st : State) : option (Outcome (list A) * State) :=
  match promise_all_settle pending order
          (replicate (length pending) None) st with
  | (Throw e, st') => Some (Throw e, st')
  | (Return values, st') =>
      match mapM id values with
      | Some l => Some (Return l, st')
      | None => None
      end
  end.

(** What the function mapped over [documents] does after its [await]. *)
Definition embed_document_resume (doc : DocInput) : M DocRecord :=
  await embedding <- createEmbedding_resume (in_content doc);
  await created_at <- now;
  ret {| doc_content := in_content doc;
         doc_embedding := embedding;
         doc_metadata := default [] (in_metadata doc);
         doc_created_at := created_at |}.

Fixpoint send_all (documents : list DocInput) : M unit :=
  match documents with
  | [] => ret tt
  | doc :: rest =>
      exec embeddings_request (in_content doc);
      send_all rest
  end.

(** [bulkAddDocuments].  [documents.map] starts every embedding call in
    turn, so the requests leave in the order of the input; the calls
    then complete in the order [order]. *)
Definition bulkAddDocuments (order : list nat)
    (documents : list DocInput) (st : State)
  : option (Outcome BulkResult * State) :=
  let '(_, st1) := send_all documents st in
  match promise_all (embed_document_resume <$> documents) order st1 with
  | None => None
  | Some settled =>
      Some
        (try_catch
           (await documentsWithEmbeddings <- (fun _ => settled);
            await r <- store_insert svc documentsWithEmbeddings;
            match st_error r with
            | Some e => throw e
            | None =>
                ret {| bulk_success := true;
                       bulk_count :=
                         Some (default 0 (length <$> st_data r));
                       bulk_error := None |}
            end)
           (fun error =>
              ret {| bulk_success := false;
                     bulk_count := None;
                     bulk_error :=
                       Some (str_or (message error)
                               "Failed to add documents") |})
           st1)
  end.

(* =================================================================== *)
(** ** The RAG agent *)
(* =================================================================== *)

Definition document_block (idx : nat) (doc : SearchResult) : string :=
  "[Document " +:+ pretty (idx + 1) +:+ "]" +:+ LF +:+ sr_content doc.

Definition build_context (results : list SearchResult) : string :=
  join (LF +:+ LF) (imap document_block results).

Definition build_system_prompt (results : list SearchResult) : string :=
  PROMPT_HEAD +:+ build_context results +:+ PROMPT_TAIL.

Definition RAG_OPTIONS : SearchOptions :=
  {| threshold := Some (7 # 10); maxResults := Some 3%Z |}.

Definition ragAgent (query : string) : M string :=
  try_catch
    (await searchResults <- searchDocuments query (Some RAG_OPTIONS);
     match success searchResults, data searchResults with
     | true, Some results =>
         match results with
         | [] => ret NO_INFORMATION
         | _ :: _ =>
             let systemPrompt := build_system_prompt results in
             await response <- aiAgentWithSystemPrompt systemPrompt query;
             ret response
         end
     | _, _ =>
         throw (Error (opt_str_or (error searchResults)
                         "Failed to retrieve relevant documents"))
     end)
    (fun error => throw error).

Definition HYBRID_OPTIONS : SearchOptions :=
  {| threshold := Some (6 # 10); maxResults := Some 10%Z |}.

(** The callback of [results.filter] in [hybridSearch]; [filters] is
    [Object.entries(filters)]. *)
Definition matches_filters (filters : list (string * JsVal))
    (doc : SearchResult) : bool :=
  match sr_metadata doc with
  | None => false
  | Some metadata =>
      forallb
        (fun kv => strict_eq (get_prop (obj_fields metadata) (fst kv))
                     (snd kv))
        filters
  end.

(** [hybridSearch], over the search it starts with: [search] stands
    for the call [searchDocuments(query, { threshold: 0.6,
    maxResults: 10 })]. *)
Definition hybridSearch_over (search : M (Result (list SearchResult)))
    (filters : option (list (string * JsVal))) : M (list SearchResult) :=
  try_catch
    (await searchResults <- search;
     match success searchResults, data searchResults with
     | true, Some results =>
         match filters with
         | Some entries =>
             ret (List.filter (matches_filters entries) results)
         | None => ret results
         end
     | _, _ => ret []
     end)
    (fun error => ret []).

Definition hybridSearch (query : string)
    (filters : option (list (string * JsVal))) : M (list SearchResult) :=
  hybridSearch_over (searchDocuments query (Some HYBRID_OPTIONS)) filters.
End Client.

(* ===================================================================== *)
(** ** The other agents and utilities *)
(* ===================================================================== *)

(** [Message] of the type declarations, as the chat sessions keep it. *)
Record SessionMessage := {
  sm_role : Role;
  sm_content : string;
  sm_timestamp : option timestamp }.

(** [{ answer, sources }] *)
Record Sourced := {
  answer : string;
  sources : list SearchResult }.

(** [{ success, error? }] *)
Record Ack := {
  ack_success : bool;
  ack_error : option string }.

Definition ASSISTANT_PROMPT : string :=
  "You are a helpful AI assistant. Provide clear, concise, and accurate responses.".

Definition SOURCES_NO_INFORMATION : string :=
  "I couldn't find any relevant information in the knowledge base.".

Definition SOURCES_PROMPT_HEAD : string :=
  "You are a helpful assistant with access to a knowledge base. Answer the user's question based on the following relevant documents."
  +:+ LF +:+ LF +:+ "Relevant Documents:" +:+ LF.

Definition SOURCES_PROMPT_TAIL : string :=
  LF +:+ LF
  +:+ "Provide a clear and concise answer based on the documents provided.".

Section Agents.
Variable svc : Services.

Definition aiAgent (input : string) : M string :=
  try_catch
    (await response <-
       createChatCompletion svc
         [ {| role := system; content := ASSISTANT_PROMPT |};
           {| role := user; content := input |} ] None;
     if negb (success response)
     then throw (Error (opt_str_or (error response)
                          "Failed to get response"))
     else ret (opt_str_or (data response) "No response generated"))
    (fun error => throw error).

Definition aiAgentWithContext (messages : list SessionMessage) : M string :=
  try_catch
    (let formattedMessages :=
       (fun msg => {| role := sm_role msg; content := sm_content msg |})
         <$> messages in
     await response <- createChatCompletion svc formattedMessages None;
     if negb (success response)
     then throw (Error (opt_str_or (error response)
                          "Failed to get response"))
     else ret (opt_str_or (data response) "No response generated"))
    (fun error => throw error).

Definition build_sources_prompt (results : list SearchResult) : string :=
  SOURCES_PROMPT_HEAD +:+ build_context results +:+ SOURCES_PROMPT_TAIL.

Definition ragAgentWithSources (query : string) : M Sourced :=
  try_catch
    (await searchResults <- searchDocuments svc query (Some RAG_OPTIONS);
     match success searchResults, data searchResults with
     | true, Some results =>
         match results with
         | [] => ret {| answer := SOURCES_NO_INFORMATION; sources := [] |}
         | _ :: _ =>
             let systemPrompt := build_sources_prompt results in
             await answer <- aiAgentWithSystemPrompt svc systemPrompt query;
             ret {| answer := answer; sources := results |}
         end
     | _, _ =>
         throw (Error (opt_str_or (error searchResults)
                         "Failed to retrieve relevant documents"))
     end)
    (fun error => throw error).

Definition addKnowledgeDocument (content : string)
    (metadata : option (list (string * Json))) : M Ack :=
  try_catch
    (await result <- addDocument svc content metadata;
     if negb (success result)
     then throw (Error (opt_str_or (error result) "Failed to add document"))
     else ret {| ack_success := true; ack_error := None |})
    (fun error =>
       ret {| ack_success := false;
              ack_error :=
                Some (str_or (message error)
                        "Failed to add document to knowledge base") |}).

(** A request to the store that the trace does not keep: the trace
    holds the embedding, chat, RPC and insert requests. *)
Definition store_quiet_call {A} (serve : M (StoreResponse A))
  : M (StoreResponse A) :=
  exec tick;
  match store_outage svc with
  | Some e => ret (store_error e)
  | None => serve
  end.

(** [supabase.from('documents').delete().eq('id', documentId)]: the rows
    with that id that the client may delete go.  The statement succeeds
    whether it deletes a row or not: when there is no such row, and when
    the policies hide every row from the client. *)
Definition store_delete (documentId : uuid) : M (StoreResponse unit) :=
  store_quiet_call
    (fun st =>
       (Return {| st_data := None; st_error := None |},
        {| documents :=
             if admitted svc
             then filter (fun r => row_id r <> documentId) (documents st)
             else documents st;
           next_uuid := next_uuid st; next_ref := next_ref st;
           clock := clock st; trace := trace st |})).

(** [deleteDocument] of the vector database utilities. *)
Definition deleteDocument (documentId : uuid) : M Ack :=
  try_catch
    (await r <- store_delete documentId;
     match st_error r with
     | Some e => throw e
     | None => ret {| ack_success := true; ack_error := None |}
     end)
    (fun error =>
       ret {| ack_success := false;
              ack_error :=
                Some (str_or (message error) "Failed to delete document") |}).

(** The first rows of an answer, up to the cap of the deployment. *)
Definition capped {A} (rows : list A) : list A :=
  match max_rows svc with
  | Some cap => take cap rows
  | None => rows
  end.

(** [.select('*').order('created_at', { ascending: false })]: the rows
    the client sees, the most recent first, up to the cap. *)
Definition store_select_all : M (StoreResponse (list Row)) :=
  store_quiet_call
    (fun st =>
       (Return
          (store_ok
             (capped
                (arrange svc
                   (fun r => (- inject_Z (Z.of_nat (row_created_at r)))%Q)
                   id Listing (clock st)
                   (visible svc (documents st))))), st)).

Definition getAllDocuments : M (Result (list Row)) :=
  try_catch
    (await r <- store_select_all;
     match st_error r with
     | Some e => throw e
     | None =>
         ret {| success := true; data := st_data r; error := None |}
     end)
    (fun error =>
       ret (fail (str_or (message error) "Failed to fetch documents"))).
End Agents.

(* ===================================================================== *)
(** ** Streamed completions *)
(* ===================================================================== *)

Record StreamOptions := {
  so_model : option string;
  so_temperature : option number }.

(** What the provider streams: the [choices[0]?.delta?.content] of each
    chunk ([None] when the chunk has none), and the error that ends the
    iteration when the stream breaks. *)
Record ChatStream := {
  stream_chunks : list (option string);
  stream_failure : option JsError }.

Section Streaming.
(** The caller's callback runs on the caller's own state. *)
Context {T : Type}.
Variable stream_create :
  string -> list Message -> number -> ApiResult ChatStream.

(** The [for await] loop of [streamChatCompletion]. *)
Fixpoint consume (onChunk : string -> T -> Outcome unit * T)
    (chunks : list (option string)) (fullResponse : string) (s : T)
  : Outcome string * T :=
  match chunks with
  | [] => (Return fullResponse, s)
  | chunk :: rest =>
      let content := opt_str_or chunk "" in
      if String.eqb content "" then consume onChunk rest fullResponse s
      else
        match onChunk content s with
        | (Return _, s') =>
            consume onChunk rest (fullResponse +:+ content) s'
        | (Throw e, s') => (Throw e, s')
        end
  end.

Definition stream_failed (error : JsError) : Result string :=
  fail (str_or (message error) "Failed to stream response").

Definition streamChatCompletion (messages : list Message)
    (onChunk : string -> T -> Outcome unit * T)
    (options : option StreamOptions) (s : T)
  : Outcome (Result string) * T :=
  let model := opt_str_or (options ≫= so_model) DEFAULT_MODEL in
  let temperature := num_or (options ≫= so_temperature) (7 # 10) in
  match stream_create model messages temperature with
  | Rejected e => (Return (stream_failed e), s)
  | Resolved stream =>
      match consume onChunk (stream_chunks stream) "" s with
      | (Throw e, s') => (Return (stream_failed e), s')
      | (Return fullResponse, s') =>
          match stream_failure stream with
          | Some e => (Return (stream_failed e), s')
          | None => (Return (succeed fullResponse), s')
          end
      end
  end.

Definition aiAgentStream (input : string)
    (onChunk : string -> T -> Outcome unit * T) (s : T)
  : Outcome unit * T :=
  match streamChatCompletion
          [ {| role := system; content := ASSISTANT_PROMPT |};
            {| role := user; content := input |} ] onChunk None s with
  | (Return _, s') => (Return tt, s')
  | (Throw e, s') => (Throw e, s')
  end.
End Streaming.

(* ===================================================================== *)
(** ** Prompt templates *)
(* ===================================================================== *)

Record PromptTemplate := {
  pt_name : string;
  pt_template : string;
  pt_variables : list string }.

Definition QUOTE : string := String "034"%char EmptyString.

Definition promptTemplates : list (string * PromptTemplate) :=
  [ ("summarize",
     {| pt_name := "Summarization";
        pt_template :=
          "Summarize the following text in a concise manner:" +:+ LF +:+ LF
          +:+ "{text}" +:+ LF +:+ LF +:+ "Summary:";
        pt_variables := ["text"] |});
    ("analyze",
     {| pt_name := "Analysis";
        pt_template :=
          "Analyze the following content and provide key insights:"
          +:+ LF +:+ LF +:+ "{content}" +:+ LF +:+ LF +:+ "Analysis:";
        pt_variables := ["content"] |});
    ("translate",
     {| pt_name := "Translation";
        pt_template :=
          "Translate the following text to {language}:" +:+ LF +:+ LF
          +:+ "{text}" +:+ LF +:+ LF +:+ "Translation:";
        pt_variables := ["text"; "language"] |});
    ("codeReview",
     {| pt_name := "Code Review";
        pt_template :=
          "Review the following code and provide feedback on:" +:+ LF
          +:+ "1. Code quality" +:+ LF +:+ "2. Best practices" +:+ LF
          +:+ "3. Potential improvements" +:+ LF +:+ LF +:+ "Code:" +:+ LF
          +:+ "{code}" +:+ LF +:+ LF +:+ "Review:";
        pt_variables := ["code"] |});
    ("brainstorm",
     {| pt_name := "Brainstorming";
        pt_template :=
          "Generate creative ideas for the following topic:" +:+ LF +:+ LF
          +:+ "{topic}" +:+ LF +:+ LF
          +:+ "Provide at least 5 innovative ideas.";
        pt_variables := ["topic"] |});
    ("explain",
     {| pt_name := "Explanation";
        pt_template :=
          "Explain the following concept in simple terms that a beginner can understand:"
          +:+ LF +:+ LF +:+ "{concept}" +:+ LF +:+ LF +:+ "Explanation:";
        pt_variables := ["concept"] |}) ].

Inductive Property (A : Type) :=
| OwnProperty (a : A)
| InheritedProperty
| NoProperty.
Arguments OwnProperty {A} a.
Arguments InheritedProperty {A}.
Arguments NoProperty {A}.

(** [promptTemplates[templateName]]: a name that is no template but one
    of [OBJECT_PROTOTYPE_KEYS] finds the inherited value, which is not a
    template. *)
Definition template_lookup (templateName : string)
  : Property PromptTemplate :=
  match List.find (fun kv => String.eqb (fst kv) templateName)
          promptTemplates with
  | Some kv => OwnProperty (snd kv)
  | None =>
      if existsb (String.eqb templateName) OBJECT_PROTOTYPE_KEYS
      then InheritedProperty
      else NoProperty
  end.

Definition NO_FOR_EACH : JsError :=
  Error "Cannot read properties of undefined (reading 'forEach')".

Fixpoint string_drop (n : nat) (s : string) : string :=
  match n, s with
  | S n', String _ s' => string_drop n' s'
  | _, _ => s
  end.

(** The replacement text of [String.prototype.replace] for one match of
    a pattern without groups: [$$] is a dollar, [$&] the match, [$`] the
    text before it and [$'] the text after it; any other dollar stands
    for itself. *)
Fixpoint expand (replacement matched before after : string) : string :=
  match replacement with
  | EmptyString => ""
  | String c rest =>
      if Ascii.eqb c "$"
      then
        match rest with
        | EmptyString => "$"
        | String d rest' =>
            if Ascii.eqb d "$"
            then String "$" (expand rest' matched before after)
            else if Ascii.eqb d "&"
            then matched +:+ expand rest' matched before after
            else if Ascii.eqb d "`"
            then before +:+ expand rest' matched before after
            else if Ascii.eqb d "'"
            then after +:+ expand rest' matched before after
            else String "$" (expand rest matched before after)
        end
      else String c (expand rest matched before after)
  end.

(** [subject.replace(new RegExp(pattern, 'g'), replacement)] for a
    literal, non-empty pattern: the matches are found from left to
    right and do not overlap; [before] is the part of the subject that
    has been read, [skip] what is left of the current match. *)
Fixpoint replace_from (pattern replacement before rest : string)
    (skip : nat) : string :=
  match rest with
  | EmptyString => ""
  | String c rest' =>
      match skip with
      | S k =>
          replace_from pattern replacement (before +:+ String c "") rest' k
      | O =>
          if String.prefix pattern rest
          then
            expand replacement pattern before
              (string_drop (String.length pattern) rest)
            +:+ replace_from pattern replacement (before +:+ String c "")
                  rest' (String.length pattern - 1)
          else
            String c
              (replace_from pattern replacement (before +:+ String c "")
                 rest' 0)
      end
  end.

Definition replace_all (pattern replacement subject : string) : string :=
  replace_from pattern replacement "" subject 0.

(** The [forEach] of [formatPrompt] over the variables of a template.
    The names of the variables of the built-in templates are plain
    words, so the regular expression [\{name\}] matches the text
    [{name}] and [name in variables] asks for an own property. *)
Fixpoint substitute (names : list string) (variables : gmap string string)
    (formattedPrompt : string) : Outcome string :=
  match names with
  | [] => Return formattedPrompt
  | variable :: rest =>
      match variables !! variable with
      | None => Throw (Error ("Missing variable: " +:+ variable))
      | Some value =>
          substitute rest variables
            (replace_all ("{" +:+ variable +:+ "}") value formattedPrompt)
      end
  end.

Definition formatPrompt (templateName : string)
    (variables : gmap string string) : Outcome string :=
  match template_lookup templateName with
  | NoProperty =>
      Throw (Error ("Template " +:+ QUOTE +:+ templateName +:+ QUOTE
                    +:+ " not found"))
  | InheritedProperty => Throw NO_FOR_EACH
  | OwnProperty t => substitute (pt_variables t) variables (pt_template t)
  end.

Definition PROMPT_AGENT_SYSTEM : string :=
  "You are a helpful assistant specialized in the requested task. Provide high-quality, detailed responses.".

Section PromptAgent.
Variable svc : Services.

Definition promptAgent (templateName : string)
    (variables : gmap string string) : M string :=
  try_catch
    (await prompt <-
       (fun st => (formatPrompt templateName variables, st));
     await response <- aiAgentWithSystemPrompt svc PROMPT_AGENT_SYSTEM prompt;
     ret response)
    (fun error => throw error).
End PromptAgent.

(* ===================================================================== *)
(** ** Concrete services and states used in the examples *)
(* ===================================================================== *)

Module Toy.
(** A vector of the expected dimension with every entry [x]. *)
Definition flat (x : number) : vector := replicate EMBEDDING_DIM x.

(** The provider embeds a text as the flat vector of its length (in
    tenths); the chat endpoint echoes a fixed answer. *)
Definition embed (model input : string)
  : ApiResult CreateEmbeddingResponse :=
  Resolved
    {| emb_data :=
         [ {| embedding := flat (Z.of_nat (String.length input) # 10) |} ]
    |}.

Definition chat (model : string) (messages : list Message)
    (temperature : number) (max_tokens : Z) : ApiResult ChatCompletion :=
  Resolved {| choices := [ {| message_content := Some "ok" |} ] |}.

(** The distance of two vectors is read off their first entries. *)
Definition distance (e q : vector) : number :=
  match e, q with
  | a :: _, b :: _ => Qabs (a - b)
  | _, _ => 1%Q
  end.

(** The errors of the store, with the texts it gives them. *)
Definition errors (why : Refusal) : JsError :=
  match why with
  | WrongDimension n =>
      Error ("expected 1536 dimensions, not " +:+ pretty n)
  | DifferentDimensions query_dim stored_dim =>
      Error ("different vector dimensions " +:+ pretty query_dim
             +:+ " and " +:+ pretty stored_dim)
  | NegativeLimit => Error "LIMIT must not be negative"
  | InvalidArgument query_dim match_count =>
      if is_int match_count
      then
        if Nat.eqb query_dim 0
        then Error "vector must have at least 1 dimension"
        else Error "vector cannot have more than 16000 dimensions"
      else
        Error ("value " +:+ QUOTE +:+ pretty match_count +:+ QUOTE
               +:+ " is out of range for type integer")
  | PolicyViolation =>
      Error ("new row violates row-level security policy for table "
             +:+ QUOTE +:+ "documents" +:+ QUOTE)
  end.

(** A store that is reached by a signed-in client, answers searches from
    the index and returns tied rows in the order of the table. *)
Definition services : Services :=
  {| embeddings_create := embed;
     chat_completions_create := chat;
     cosine_distance := distance;
     store_outage := None;
     refusal := errors;
     admitted := true;
     index_scan := true;
     tie_rank := fun _ _ _ => 0%Q;
     max_rows := None |}.

(** A provider that refuses every embedding request. *)
Definition refusing : Services :=
  {| embeddings_create := fun _ _ => Rejected (Error "400 invalid input");
     chat_completions_create := chat;
     cosine_distance := distance;
     store_outage := None;
     refusal := errors;
     admitted := true;
     index_scan := true;
     tie_rank := fun _ _ _ => 0%Q;
     max_rows := None |}.

(** A provider that answers with a vector of three entries. *)
Definition short_vectors : Services :=
  {| embeddings_create := fun _ _ =>
       Resolved {| emb_data := [ {| embedding := [1; 2; 3]%Q |} ] |};
     chat_completions_create := chat;
     cosine_distance := distance;
     store_outage := None;
     refusal := errors;
     admitted := true;
     index_scan := true;
     tie_rank := fun _ _ _ => 0%Q;
     max_rows := None |}.

(** A store that refuses every request. *)
Definition store_down : Services :=
  {| embeddings_create := embed;
     chat_completions_create := chat;
     cosine_distance := distance;
     store_outage := Some (Error "permission denied");
     refusal := errors;
     admitted := true;
     index_scan := true;
     tie_rank := fun _ _ _ => 0%Q;
     max_rows := None |}.

(** The client as the repository creates it, with the anonymous key and
    no session: the policies of the table do not admit it. *)
Definition anonymous : Services :=
  {| embeddings_create := embed;
     chat_completions_create := chat;
     cosine_distance := distance;
     store_outage := None;
     refusal := errors;
     admitted := false;
     index_scan := false;
     tie_rank := fun _ _ _ => 0%Q;
     max_rows := Some 1000%nat |}.

(** A store that returns tied rows in the order of their ids for a
    threshold below 0.8 and in the reverse order from 0.8 on. *)
Definition fickle : Services :=
  {| embeddings_create := embed;
     chat_completions_create := chat;
     cosine_distance := distance;
     store_outage := None;
     refusal := errors;
     admitted := true;
     index_scan := true;
     tie_rank := fun q _ r =>
       match q with
       | Match _ match_threshold _ =>
           if Qle_bool (8 # 10) match_threshold
           then (- inject_Z (Z.of_nat (row_id r)))%Q
           else inject_Z (Z.of_nat (row_id r))
       | Listing => 0%Q
       end;
     max_rows := None |}.

Definition row (id : uuid) (text : string) (x : number)
    (metadata : list (string * Json)) : Row :=
  {| row_id := id; row_content := text;
     row_embedding := Some (flat x);
     row_metadata := Some metadata;
     row_created_at := 0 |}.

Definition state_of (table : list Row) : State :=
  {| documents := table; next_uuid := 100; next_ref := 1;
     clock := 0; trace := [] |}.

Definition empty : State := state_of [].

(** Three documents at distances 0.1, 0 and 0.35 of a five-letter
    query: similarities 0.9, 1 and 0.65. *)
Definition library : State :=
  state_of
    [ row 1 "alpha" (4 # 10) [("tags", JArr [JStr "a"])];
      row 2 "beta" (5 # 10) [("lang", JStr "en")];
      row 3 "gamma" (85 # 100) [] ].

(** Two documents at the same distance 0.1 of a five-letter query. *)
Definition twins : State :=
  state_of [ row 1 "left" (4 # 10) []; row 2 "right" (6 # 10) [] ].

Definition two_docs : list DocInput :=
  [ {| in_content := "a"; in_metadata := None |};
    {| in_content := "b"; in_metadata := Some [] |} ].

(** A filter on an array the caller built before the call. *)
Definition tags_filter : list (string * JsVal) :=
  [("tags", VArr 0 [VStr "a"])].

Definition search (t : number) (k : Z) :=
  searchDocuments services "hello"
    (Some {| threshold := Some t; maxResults := Some k |}) library.

(** The documents of the library as a search for "hello" returns them:
    ["beta"] is parsed first and gets the first free reference. *)
Definition beta : SearchResult :=
  {| sr_id := 2; sr_content := "beta"; sr_similarity := 100 # 100;
     sr_metadata :=
       Some {| obj_ref := 1; obj_fields := [("lang", VStr "en")] |} |}.

Definition alpha : SearchResult :=
  {| sr_id := 1; sr_content := "alpha"; sr_similarity := 90 # 100;
     sr_metadata :=
       Some {| obj_ref := 2;
               obj_fields := [("tags", VArr 3 [VStr "a"])] |} |}.

Definition gamma : SearchResult :=
  {| sr_id := 3; sr_content := "gamma"; sr_similarity := 650 # 1000;
     sr_metadata := Some {| obj_ref := 4; obj_fields := [] |} |}.

(** The twins as a search for "hello" returns either of them alone. *)
Definition twin_left : SearchResult :=
  {| sr_id := 1; sr_content := "left"; sr_similarity := 90 # 100;
     sr_metadata := Some {| obj_ref := 1; obj_fields := [] |} |}.

Definition twin_right : SearchResult :=
  {| sr_id := 2; sr_content := "right"; sr_similarity := 90 # 100;
     sr_metadata := Some {| obj_ref := 1; obj_fields := [] |} |}.

Definition one_above (t : number) : SearchOptions :=
  {| threshold := Some t; maxResults := Some 1%Z |}.
End Toy.

(** A stream that delivers "Hel", a chunk without content, an empty
    content and "lo"; a stream that breaks after "Hel"; a provider that
    opens a given stream; and a caller that collects what its callback
    receives. *)
Module Feed.
Definition hello : ChatStream :=
  {| stream_chunks := [Some "Hel"; None; Some ""; Some "lo"];
     stream_failure := None |}.

Definition cut : ChatStream :=
  {| stream_chunks := [Some "Hel"; None];
     stream_failure := Some (Error "socket hang up") |}.

Definition opening (stream : ChatStream) (model : string)
    (messages : list Message) (temperature : number)
  : ApiResult ChatStream :=
  Resolved stream.

Definition collect (part : string) (seen : list string)
  : Outcome unit * list string :=
  (Return tt, seen ++ [part]).

Definition question : list Message :=
  [ {| role := user; content := "hi" |} ].

(** The row that [addDocument] makes of "hello" on the empty table, and
    the result a search returns for it. *)
Definition hello_row : Row :=
  {| row_id := 100; row_content := "hello";
     row_embedding := Some (Toy.flat (5 # 10));
     row_metadata := Some [];
     row_created_at := 1 |}.

Definition hello_result : SearchResult :=
  {| sr_id := 100; sr_content := "hello"; sr_similarity := 100 # 100;
     sr_metadata := Some {| obj_ref := 1; obj_fields := [] |} |}.

(** The built-in template of a name. *)
Definition built_in (name : string) : PromptTemplate :=
  match template_lookup name with
  | OwnProperty t => t
  | _ => {| pt_name := ""; pt_template := ""; pt_variables := [] |}
  end.

Definition wide : SearchOptions :=
  {| threshold := Some (5 # 10); maxResults := Some 5%Z |}.
End Feed.

(* ===================================================================== *)
(** ** Vocabulary of the statements *)
(* ===================================================================== *)

(** A list of results in descending order of similarity. *)
Definition descending (l : list SearchResult) : Prop :=
  StronglySorted (fun a b => (b <= a)%Q) (sr_similarity <$> l).

(** The requests sent between two states. *)
Definition sent_between (st st' : State) (evs : list Event) : Prop :=
  trace st' = trace st ++ evs.

Section Vocabulary.
Variable svc : Services.

(** What [createEmbedding] makes of the provider's answer. *)
Definition embed_outcome (text : string) : Outcome vector :=
  match embeddings_create svc EMBEDDING_MODEL text with
  | Resolved response =>
      match emb_data response with
      | item :: _ => Return (embedding item)
      | [] =>
          Throw (Error ("Failed to create embedding: "
                        +:+ message NO_EMBEDDING_ITEM))
      end
  | Rejected e =>
      Throw (Error ("Failed to create embedding: " +:+ message e))
  end.

(** The filter of [hybridSearch] with deep equality in the place of
    [===], as the design notes describe it. *)
Definition deep_matches_filters (filters : list (string * JsVal))
    (doc : SearchResult) : bool :=
  match sr_metadata doc with
  | None => false
  | Some metadata =>
      forallb
        (fun kv => deep_eq (get_prop (obj_fields metadata) (fst kv))
                     (snd kv))
        filters
  end.

(** The record at index [i] belongs to the input at index [i]. *)
Definition record_of (doc : DocInput) (record : DocRecord) : Prop :=
  doc_content record = in_content doc
  /\ doc_metadata record = default [] (in_metadata doc)
  /\ embed_outcome (in_content doc) = Return (doc_embedding record).

Definition positional (docs : list DocInput)
    (values : list (option DocRecord)) : Prop :=
  length values = length docs
  /\ forall i record,
      values !! i = Some (Some record) ->
      exists doc, docs !! i = Some doc /\ record_of doc record.

(** What a search returns for a query vector when the store serves it:
    the rows of [match_documents] at the instant the request is served
    (the embedding and the request have each taken their time), parsed. *)
Definition search_results (qe : vector) (t : number) (k : Z) (st : State)
  : list SearchResult :=
  (reify_rows
     (match_documents svc qe t k (S (S (clock st)))
        (visible svc (documents st)))
     (next_ref st)).1.

(** No two rows that the client sees are at the same distance of the
    query: the [ORDER BY] of [match_documents] leaves no choice. *)
Definition untied (qe : vector) (st : State) : Prop :=
  forall x1 x2 : Row * number,
    x1 ∈ scan svc qe (visible svc (documents st)) ->
    x2 ∈ scan svc qe (visible svc (documents st)) ->
    (x1.2 == x2.2)%Q -> x1 = x2.

(** Only the clock moves while the calls complete. *)
Definition same_store (st st' : State) : Prop :=
  documents st' = documents st
  /\ next_uuid st' = next_uuid st
  /\ next_ref st' = next_ref st
  /\ trace st' = trace st.
End Vocabulary.

(* ===================================================================== *)
(** ** Vocabulary of the further statements *)
(* ===================================================================== *)

(** What the plain agents make of a completion. *)
Definition agent_reply (r : Result string) : Outcome string :=
  if negb (success r)
  then Throw (Error (opt_str_or (error r) "Failed to get response"))
  else Return (opt_str_or (data r) "No response generated").

(** The table a client of this code builds: every row has an embedding
    of the dimension of the column, and the ids are distinct and older
    than the next one the store assigns. *)
Definition table_ok (st : State) : Prop :=
  Forall (fun r => exists e,
              row_embedding r = Some e /\ length e = EMBEDDING_DIM)
    (documents st)
  /\ Forall (fun r => (row_id r < next_uuid st)%nat) (documents st)
  /\ NoDup (row_id <$> documents st).

(** The texts a stream delivers: the contents of its chunks that are
    not empty. *)
Definition contents (chunks : list (option string)) : list string :=
  List.filter (fun content => negb (String.eqb content ""))
    ((fun chunk => opt_str_or chunk "") <$> chunks).

Definition concat_all (parts : list string) : string :=
  foldr String.append "" parts.

(** The state of a caller whose callback has been run on each of
    [parts] in turn. *)
Definition run_callbacks {T} (onChunk : string -> T -> Outcome unit * T)
    (parts : list string) (s : T) : T :=
  foldl (fun s part => (onChunk part s).2) s parts.

(** The character [c] does not occur in [s]. *)
Fixpoint free_of (c : ascii) (s : string) : bool :=
  match s with
  | EmptyString => true
  | String d s' => negb (Ascii.eqb d c) && free_of c s'
  end.

(* ===================================================================== *)
(** ** Running the client *)
(* ===================================================================== *)

Section ClientRuns.
Variable svc : Services.

Lemma createEmbedding_run text st :
  createEmbedding svc text st
  = (embed_outcome svc text,
     advance (log (EmbeddingRequest EMBEDDING_MODEL text) st)).
Proof.
  unfold createEmbedding, createEmbedding_resume, embeddings_request,
    embeddings_response, embed_outcome, try_catch, bind, emit, tick,
    ret, throw.
  destruct (embeddings_create svc EMBEDDING_MODEL text) as [[[|item rest]]|e];
    reflexivity.
Qed.

Lemma project_results (l : list SearchResult) :
  map (fun item =>
         {| sr_id := sr_id item; sr_content := sr_content item;
            sr_similarity := sr_similarity item;
            sr_metadata := sr_metadata item |}) l = l.
Proof. induction l as [|[] l IH]; simpl; [done | by rewrite IH]. Qed.

(** The only way [searchDocuments] yields data. *)
Lemma searchDocuments_data query options st r st' l :
  searchDocuments svc query options st = (Return r, st') ->
  data r = Some l ->
  let t := num_or (options ≫= threshold) SIMILARITY_THRESHOLD in
  let k := int_or (options ≫= maxResults) MAX_RESULTS in
  exists qe,
    embed_outcome svc query = Return qe
    /\ is_vector qe && comparable qe (compared svc (documents st)) = true
    /\ (0 <= k <= INT_MAX)%Z
    /\ store_outage svc = None
    /\ l = search_results svc qe t k st
    /\ r = succeed l
    /\ sent_between st st'
         [EmbeddingRequest EMBEDDING_MODEL query;
          RpcRequest "match_documents" qe t k].
Proof.
  intros Hrun Hdata t k. revert Hrun.
  unfold searchDocuments, try_catch, bind.
  rewrite createEmbedding_run.
  destruct (embed_outcome svc query) as [qe|e] eqn:Hqe.
  2:{ intros [= <- <-]. discriminate Hdata. }
  unfold rpc_match_documents, store_call, bind, emit, tick.
  fold t k.
  destruct (store_outage svc) as [e|] eqn:Hfault; simpl.
  { intros [= <- <-]. discriminate Hdata. }
  destruct (is_int k) eqn:Hint; simpl.
  2:{ intros [= <- <-]. discriminate Hdata. }
  destruct (is_vector qe) eqn:Hvec; simpl.
  2:{ intros [= <- <-]. discriminate Hdata. }
  destruct (k <? 0)%Z eqn:Hk; simpl.
  { intros [= <- <-]. discriminate Hdata. }
  destruct (comparable qe (compared svc (documents st))) eqn:Hdim; simpl.
  2:{ intros [= <- <-]. discriminate Hdata. }
  destruct (reify_rows _ _) as [items n] eqn:Hitems; simpl.
  rewrite project_results. intros [= <- <-].
  injection Hdata as <-.
  exists qe. apply Z.ltb_ge in Hk.
  unfold is_int in Hint. apply andb_true_iff in Hint as [_ Hint].
  apply Z.leb_le in Hint.
  repeat split; try done.
  - by rewrite Hvec, Hdim.
  - unfold search_results. by rewrite Hitems.
  - unfold sent_between; simpl. by rewrite <- app_assoc.
Qed.

(** [searchDocuments] never throws. *)
Lemma searchDocuments_returns query options st :
  exists r st', searchDocuments svc query options st = (Return r, st').
Proof.
  unfold searchDocuments, try_catch, bind.
  rewrite createEmbedding_run.
  destruct (embed_outcome svc query) as [qe|e]; [|by eauto].
  unfold rpc_match_documents, store_call, bind, emit, tick; simpl.
  destruct (store_outage svc); simpl; [by eauto|].
  destruct (negb (is_int _ && is_vector _)); simpl; [by eauto|].
  destruct (_ <? 0)%Z; simpl; [by eauto|].
  destruct (negb (comparable _ _)); simpl; [by eauto|].
  destruct (reify_rows _ _); simpl. by eauto.
Qed.

(** It sends an embedding request and, when the query is embedded, one
    RPC with the threshold and the limit in force: nothing else. *)
Lemma searchDocuments_sent query options st o st' :
  searchDocuments svc query options st = (o, st') ->
  let t := num_or (options ≫= threshold) SIMILARITY_THRESHOLD in
  let k := int_or (options ≫= maxResults) MAX_RESULTS in
  match embed_outcome svc query with
  | Throw _ => sent_between st st' [EmbeddingRequest EMBEDDING_MODEL query]
  | Return qe =>
      sent_between st st'
        [EmbeddingRequest EMBEDDING_MODEL query;
         RpcRequest "match_documents" qe t k]
  end.
Proof.
  intros Hrun t k. revert Hrun.
  unfold searchDocuments, try_catch, bind.
  rewrite createEmbedding_run.
  destruct (embed_outcome svc query) as [qe|e].
  2:{ by intros [= <- <-]. }
  unfold rpc_match_documents, store_call, bind, emit, tick; simpl.
  fold t k.
  assert (Hsent : forall st1 : State,
             trace st1
             = (trace st ++ [EmbeddingRequest EMBEDDING_MODEL query])
               ++ [RpcRequest "match_documents" qe t k] ->
             sent_between st st1
               [EmbeddingRequest EMBEDDING_MODEL query;
                RpcRequest "match_documents" qe t k]).
  { intros st1 H. unfold sent_between. by rewrite H, <- app_assoc. }
  destruct (store_outage svc); simpl.
  { intros [= <- <-]. by apply Hsent. }
  destruct (negb (is_int _ && is_vector _)); simpl.
  { intros [= <- <-]. by apply Hsent. }
  destruct (_ <? 0)%Z; simpl.
  { intros [= <- <-]. by apply Hsent. }
  destruct (negb (comparable _ _)); simpl.
  { intros [= <- <-]. by apply Hsent. }
  destruct (reify_rows _ _); simpl.
  intros [= <- <-]. by apply Hsent.
Qed.

Lemma searchDocuments_no_chat query options st o st' :
  searchDocuments svc query options st = (o, st') ->
  List.filter is_chat (trace st') = List.filter is_chat (trace st).
Proof.
  intros Hrun. apply searchDocuments_sent in Hrun.
  destruct (embed_outcome svc query); rewrite Hrun, List.filter_app; simpl;
    by rewrite app_nil_r.
Qed.

(** The way it succeeds. *)
Lemma searchDocuments_success query options st qe :
  let t := num_or (options ≫= threshold) SIMILARITY_THRESHOLD in
  let k := int_or (options ≫= maxResults) MAX_RESULTS in
  embed_outcome svc query = Return qe ->
  is_vector qe && comparable qe (compared svc (documents st)) = true ->
  store_outage svc = None ->
  (0 <= k <= INT_MAX)%Z ->
  exists st',
    searchDocuments svc query options st
    = (Return (succeed (search_results svc qe t k st)), st').
Proof.
  intros t k Hqe Hdim Hfault [Hk Hint].
  apply andb_true_iff in Hdim as [Hvec Hdim].
  unfold searchDocuments, try_catch, bind.
  rewrite createEmbedding_run, Hqe.
  unfold rpc_match_documents, store_call, bind, emit, tick; simpl.
  fold t k. rewrite Hfault; simpl.
  assert (is_int k = true) as ->.
  { unfold is_int, INT_MIN. apply andb_true_iff.
    split; apply Z.leb_le; lia. }
  apply Z.ltb_ge in Hk. rewrite Hvec, Hk, Hdim; simpl.
  unfold search_results.
  destruct (reify_rows _ _) as [items n]; simpl.
  rewrite project_results. by eexists.
Qed.
End ClientRuns.

(* ===================================================================== *)
(** ** Ordering and filtering *)
(* ===================================================================== *)

Section Ordering.
Context {A : Type} (key : A -> number).

Let key_le (a b : A) : Prop := (key a <= key b)%Q.

Lemma insert_by_perm x l : insert_by key x l ≡ₚ x :: l.
Proof.
  induction l as [|y l IH]; simpl; [done|].
  destruct (Qle_bool (key x) (key y)); [done|].
  rewrite IH. apply Permutation_swap.
Qed.

Lemma order_by_perm l : order_by key l ≡ₚ l.
Proof.
  induction l as [|x l IH]; simpl; [done|].
  by rewrite insert_by_perm, IH.
Qed.

Lemma insert_by_sorted x l :
  StronglySorted key_le l -> StronglySorted key_le (insert_by key x l).
Proof.
  induction 1 as [|y l Hl IH Hy]; simpl.
  { repeat constructor. }
  destruct (Qle_bool (key x) (key y)) eqn:Hxy.
  - apply Qle_bool_iff in Hxy.
    constructor; [by constructor|].
    constructor; [done|].
    eapply Forall_impl; [exact Hy|].
    intros z Hz. unfold key_le in *. by eapply Qle_trans.
  - constructor; [done|].
    rewrite insert_by_perm. constructor; [|done].
    unfold key_le. apply Qlt_le_weak, Qnot_le_lt.
    intros Hle. apply Qle_bool_iff in Hle. congruence.
Qed.

Lemma order_by_sorted l : StronglySorted key_le (order_by key l).
Proof.
  induction l; simpl; [constructor | by apply insert_by_sorted].
Qed.

Lemma sorted_last_greatest l z :
  StronglySorted key_le l -> last l = Some z ->
  forall a, a ∈ l -> key_le a z.
Proof.
  intros Hsorted Hlast a Ha.
  apply last_Some in Hlast as [l' ->].
  apply elem_of_app in Ha as [Ha|Ha].
  - eapply StronglySorted_app_1_elem_of; [exact Hsorted|exact Ha|].
    apply list_elem_of_here.
  - apply list_elem_of_singleton in Ha as ->. apply Qle_refl.
Qed.

Section Filter.
Context (P : A -> Prop) `{!forall a, Decision (P a)}.

(** A predicate that holds of everything before an element it holds
    of selects a prefix of a sorted list. *)
Lemma filter_sorted_prefix l :
  (forall a b, key_le a b -> P b -> P a) ->
  StronglySorted key_le l -> filter P l `prefix_of` l.
Proof.
  intros Hdown. induction 1 as [|x l Hl IH Hx].
  { by rewrite filter_nil. }
  rewrite filter_cons. destruct (decide (P x)).
  { by apply prefix_cons. }
  replace (filter P l) with (@nil A); [apply prefix_nil|].
  symmetry. apply elem_of_nil_inv. intros z Hz.
  apply list_elem_of_filter in Hz as [HPz Hz].
  rewrite Forall_forall in Hx. eauto.
Qed.
End Filter.

#[local] Instance closer_dec (x a : A) : Decision (key a < key x)%Q.
Proof.
  destruct (Qlt_le_dec (key a) (key x)) as [H|H]; [by left|right].
  by apply Qle_not_lt.
Defined.

(** Two answers to [ORDER BY key LIMIT n], over the rows that pass a
    filter [P1] and over those that pass a stronger filter [P2] that is
    closed under smaller keys, whatever the order of the rows with equal
    keys in each: a row of the second answer is in the first, unless the
    first is full and ends with a row of the same key. *)
Lemma take_sorted_monotone (P1 P2 : A -> Prop)
    `{!forall a, Decision (P1 a)} `{!forall a, Decision (P2 a)}
    rows S1 S2 n x :
  (forall a, P2 a -> P1 a) ->
  (forall a b, key_le a b -> P2 b -> P2 a) ->
  S1 ≡ₚ filter P1 rows ->
  S2 ≡ₚ filter P2 rows ->
  StronglySorted key_le S1 ->
  StronglySorted key_le S2 ->
  x ∈ take n S2 ->
  x ∈ take n S1
  \/ (length (take n S1) = n
      /\ exists z, last (take n S1) = Some z /\ (key z == key x)%Q).
Proof.
  intros Hweaker Hdown Hperm1 Hperm2 Hsorted1 Hsorted2 Hx.
  assert (Hx2 : x ∈ S2).
  { eapply elem_of_submseteq; [exact Hx|apply submseteq_take]. }
  assert (HPx : P2 x /\ x ∈ rows).
  { rewrite Hperm2 in Hx2. by apply list_elem_of_filter in Hx2. }
  destruct HPx as [HPx Hrows].
  assert (Hx1 : x ∈ S1).
  { rewrite Hperm1. apply list_elem_of_filter. split; [by apply Hweaker|done]. }
  rewrite <- (take_drop n S1) in Hx1, Hsorted1.
  rewrite <- (take_drop n S2) in Hsorted2.
  apply elem_of_app in Hx1 as [Hx1|Hx1]; [by left|right].
  assert (Hfull : length (take n S1) = n).
  { apply length_take_le.
    destruct (decide (n <= length S1)%nat) as [|Hshort]; [done|].
    rewrite drop_ge in Hx1 by lia. by apply elem_of_nil in Hx1. }
  split; [exact Hfull|].
  assert (Hpos : (0 < n)%nat).
  { destruct n; [simpl in Hx; by apply elem_of_nil in Hx|lia]. }
  destruct (last (take n S1)) as [z|] eqn:Hlast.
  2:{ apply last_None in Hlast. rewrite Hlast in Hfull. simpl in Hfull. lia. }
  exists z. split; [done|].
  assert (Hzx : key_le z x).
  { eapply StronglySorted_app_1_elem_of; [exact Hsorted1| |exact Hx1].
    by apply last_Some_elem_of. }
  apply Qle_antisym; [exact Hzx|].
  apply Qnot_lt_le. intros Hlt.
  (* Every row of the first answer is closer than [x] ... *)
  assert (Hcount1 : (n <= length (filter (fun a => (key a < key x)%Q) S1))%nat).
  { rewrite <- (take_drop n S1), filter_app, length_app.
    assert (filter (fun a => (key a < key x)%Q) (take n S1) = take n S1)
      as ->; [|lia].
    apply StronglySorted_app_1_l in Hsorted1.
    pose proof (sorted_last_greatest _ _ Hsorted1 Hlast) as Hle.
    clear -Hle Hlt. induction (take n S1) as [|a l IH]; [done|].
    rewrite filter_cons.
    destruct (decide (key a < key x)%Q) as [|Hno].
    - f_equal. apply IH. intros b Hb. apply Hle. by right.
    - exfalso. apply Hno. eapply Qle_lt_trans; [|exact Hlt].
      apply Hle. by left. }
  (* ... so there are as many among the rows that pass [P2] ... *)
  assert (Hsame : filter (fun a => (key a < key x)%Q) (filter P1 rows)
                  = filter (fun a => (key a < key x)%Q) (filter P2 rows)).
  { rewrite !list_filter_filter. apply list_filter_iff. intros a.
    split; intros [Ha HP]; (split; [done|]).
    - apply (Hdown a x); [by apply Qlt_le_weak|done].
    - apply Hweaker, (Hdown a x); [by apply Qlt_le_weak|done]. }
  assert (Hcount2 : length (filter (fun a => (key a < key x)%Q) S2)
                    = length (filter (fun a => (key a < key x)%Q) S1)).
  { by rewrite Hperm1, Hperm2, Hsame. }
  (* ... and they all come before [x] in the second answer. *)
  assert (Hbefore : (length (filter (fun a => (key a < key x)%Q) S2) < n)%nat).
  { rewrite <- (take_drop n S2), filter_app, length_app.
    assert (filter (fun a => (key a < key x)%Q) (drop n S2) = []) as ->.
    { apply elem_of_nil_inv. intros b Hb.
      apply list_elem_of_filter in Hb as [Hcloser Hb].
      assert (key_le x b)
        by (eapply StronglySorted_app_1_elem_of; [exact Hsorted2|done..]).
      unfold key_le in *. by apply (Qlt_not_le _ _ Hcloser). }
    simpl. rewrite Nat.add_0_r.
    eapply Nat.lt_le_trans.
    - apply (length_filter_lt _ _ x); [exact Hx|apply Qlt_irrefl].
    - rewrite length_take. lia. }
  lia.
Qed.
End Ordering.

Lemma take_prefix_mono {A} (l1 l2 : list A) n :
  l1 `prefix_of` l2 -> take n l1 `prefix_of` take n l2.
Proof.
  intros [k ->]. rewrite take_app. by apply prefix_app_r.
Qed.

Lemma fmap_prefix_mono {A B} (f : A -> B) (l1 l2 : list A) :
  l1 `prefix_of` l2 -> f <$> l1 `prefix_of` f <$> l2.
Proof.
  intros [k ->]. rewrite fmap_app. by apply prefix_app_r.
Qed.

Lemma StronglySorted_sublist {A} (R : relation A) (l1 l2 : list A) :
  StronglySorted R l2 -> l1 `sublist_of` l2 -> StronglySorted R l1.
Proof.
  intros H. revert l1. induction H as [|x l Hl IH Hx]; intros l1 Hsub.
  - apply sublist_nil_r in Hsub as ->. constructor.
  - apply sublist_cons_r in Hsub as [Hsub|(l' & -> & Hsub)].
    + by apply IH.
    + constructor; [by apply IH|]. apply Forall_forall. intros y Hy.
      rewrite Forall_forall in Hx. apply Hx. by eapply elem_of_sublist.
Qed.

Lemma Qgtb_lt a b : Qgtb a b = true <-> (b < a)%Q.
Proof.
  unfold Qgtb. rewrite negb_true_iff. split.
  - intros H. apply Qnot_le_lt. intros Hle.
    apply Qle_bool_iff in Hle. congruence.
  - intros H. destruct (Qle_bool a b) eqn:E; [|done].
    apply Qle_bool_iff in E. exfalso. exact (Qlt_not_le _ _ H E).
Qed.

(* ===================================================================== *)
(** ** Strings *)
(* ===================================================================== *)

Lemma string_app_cons a (s t : string) : String a s +:+ t = String a (s +:+ t).
Proof. reflexivity. Qed.

Lemma string_app_assoc (s t u : string) : s +:+ t +:+ u = (s +:+ t) +:+ u.
Proof.
  induction s as [|a s IH]; [done|].
  by rewrite !string_app_cons, IH.
Qed.

Lemma string_app_nil_r (s : string) : s +:+ "" = s.
Proof.
  induction s as [|a s IH]; [done|].
  by rewrite string_app_cons, IH.
Qed.

Lemma substring_refl s : substring s s.
Proof. exists "", "". simpl. by rewrite string_app_nil_r. Qed.

Lemma substring_app_l s t u : substring s t -> substring s (u +:+ t).
Proof.
  intros (pre & post & ->). exists (u +:+ pre), post.
  by rewrite <- string_app_assoc.
Qed.

Lemma substring_app_r s t u : substring s t -> substring s (t +:+ u).
Proof.
  intros (pre & post & ->). exists pre, (post +:+ u).
  by rewrite <- !string_app_assoc.
Qed.

Lemma join_cons sep p q rest :
  join sep (p :: q :: rest) = p +:+ sep +:+ join sep (q :: rest).
Proof. reflexivity. Qed.

Lemma substring_join sep parts p :
  p ∈ parts -> substring p (join sep parts).
Proof.
  induction parts as [|q [|q' rest] IH]; intros Hp.
  - by apply elem_of_nil in Hp.
  - apply list_elem_of_singleton in Hp as ->. apply substring_refl.
  - rewrite join_cons. apply elem_of_cons in Hp as [->|Hp].
    + apply substring_app_r, substring_refl.
    + by apply substring_app_l, substring_app_l, IH.
Qed.

(** Around any part of a joined string: the earlier parts are all before
    it and the later ones all after it. *)
Lemma join_split sep xs x ys :
  exists pre post,
    join sep (xs ++ x :: ys) = pre +:+ x +:+ post
    /\ (forall y, y ∈ xs -> substring y pre)
    /\ (forall y, y ∈ ys -> substring y post).
Proof.
  induction xs as [|a xs IH]; simpl.
  - destruct ys as [|y ys].
    + exists "", "". simpl. rewrite string_app_nil_r.
      split; [done|]. split; intros ? H; by apply elem_of_nil in H.
    + exists "", (sep +:+ join sep (y :: ys)). split; [done|].
      split; [intros ? H; by apply elem_of_nil in H|].
      intros z Hz. by apply substring_app_l, substring_join.
  - destruct IH as (pre & post & Heq & Hpre & Hpost).
    exists (a +:+ sep +:+ pre), post.
    split; [|split; [|done]].
    + destruct (xs ++ x :: ys) as [|b l] eqn:E.
      { by destruct xs. }
      rewrite Heq. by rewrite <- !string_app_assoc.
    + intros y Hy. apply elem_of_cons in Hy as [->|Hy].
      * apply substring_app_r, substring_refl.
      * by apply substring_app_l, substring_app_l, Hpre.
Qed.

(* ===================================================================== *)
(** ** The similarity search *)
(* ===================================================================== *)

Section Search.
Variable svc : Services.

Lemma reify_rows_similarity ms n :
  sr_similarity <$> (reify_rows ms n).1 = m_similarity <$> ms.
Proof.
  revert n. induction ms as [|m ms IH]; intros n; simpl; [done|].
  unfold reify_row.
  destruct (m_metadata m) as [fields|].
  - destruct (reify_object fields n) as [o n1].
    specialize (IH n1). destruct (reify_rows ms n1) as [rs n2].
    simpl in *. by f_equal.
  - specialize (IH n). destruct (reify_rows ms n) as [rs n2].
    simpl in *. by f_equal.
Qed.

Lemma reify_rows_length ms n : length (reify_rows ms n).1 = length ms.
Proof.
  rewrite <- (length_fmap sr_similarity), reify_rows_similarity.
  apply length_fmap.
Qed.

(** Parsing a shorter response allocates the same objects as the
    beginning of a longer one. *)
Lemma reify_rows_prefix ms1 ms2 n :
  ms1 `prefix_of` ms2 ->
  (reify_rows ms1 n).1 `prefix_of` (reify_rows ms2 n).1.
Proof.
  intros [k ->]. revert n.
  induction ms1 as [|m ms1 IH]; intros n; simpl; [apply prefix_nil|].
  destruct (reify_row m n) as [r n1].
  specialize (IH n1).
  destruct (reify_rows ms1 n1) as [rs1 n2].
  destruct (reify_rows (ms1 ++ k) n1) as [rs2 n3].
  simpl in *. by apply prefix_cons.
Qed.

Lemma arrange_perm {A} (key : A -> number) row_of q instant (l : list A) :
  arrange svc key row_of q instant l ≡ₚ l.
Proof. unfold arrange. by rewrite !order_by_perm. Qed.

Lemma arrange_sorted {A} (key : A -> number) row_of q instant (l : list A) :
  StronglySorted (fun a b => (key a <= key b)%Q)
    (arrange svc key row_of q instant l).
Proof. unfold arrange. apply order_by_sorted. Qed.

Lemma match_documents_length qe t k instant table :
  (length (match_documents svc qe t k instant table) <= Z.to_nat k)%nat.
Proof.
  unfold match_documents. rewrite length_fmap, length_take. lia.
Qed.

Lemma match_documents_above qe t k instant table :
  Forall (fun m => (t < m_similarity m)%Q)
    (match_documents svc qe t k instant table).
Proof.
  unfold match_documents. apply Forall_fmap, Forall_take.
  apply Forall_forall. intros rd Hrd.
  rewrite arrange_perm in Hrd.
  apply list_elem_of_filter in Hrd as [Hrd _].
  by apply Qgtb_lt in Hrd.
Qed.

Lemma match_documents_sorted qe t k instant table :
  StronglySorted (fun a b => (b <= a)%Q)
    (m_similarity <$> match_documents svc qe t k instant table).
Proof.
  unfold match_documents. rewrite <- list_fmap_compose.
  eapply (StronglySorted_fmap _ (fun a b : Row * number => (a.2 <= b.2)%Q)).
  - intros a b Hab. simpl. lra.
  - eapply StronglySorted_app_1_l. rewrite take_drop.
    apply arrange_sorted.
Qed.

(** What the parsed rows keep of the rows of the store. *)
Lemma reify_rows_core ms n :
  (fun d => (sr_id d, sr_content d, sr_similarity d)) <$> (reify_rows ms n).1
  = (fun m => (m_id m, m_content m, m_similarity m)) <$> ms.
Proof.
  revert n. induction ms as [|m ms IH]; intros n; simpl; [done|].
  unfold reify_row.
  destruct (m_metadata m) as [fields|].
  - destruct (reify_object fields n) as [o n1].
    specialize (IH n1). destruct (reify_rows ms n1) as [rs n2].
    simpl in *. by f_equal.
  - specialize (IH n). destruct (reify_rows ms n) as [rs n2].
    simpl in *. by f_equal.
Qed.

Lemma reify_rows_last ms n m :
  last ms = Some m ->
  exists d, last (reify_rows ms n).1 = Some d
            /\ sr_similarity d = m_similarity m.
Proof.
  intros Hlast.
  pose proof (reify_rows_similarity ms n) as Hsim.
  apply (f_equal last) in Hsim. rewrite !fmap_last, Hlast in Hsim.
  destruct (last (reify_rows ms n).1) as [d|]; [|discriminate Hsim].
  exists d. split; [done|]. simpl in Hsim. by injection Hsim.
Qed.

Lemma reify_rows_elem ms n d :
  d ∈ (reify_rows ms n).1 ->
  exists m,
    m ∈ ms /\ sr_id d = m_id m /\ sr_content d = m_content m
    /\ sr_similarity d = m_similarity m.
Proof.
  intros Hd.
  apply (list_elem_of_fmap_2
           (fun d => (sr_id d, sr_content d, sr_similarity d))) in Hd.
  rewrite reify_rows_core in Hd.
  apply list_elem_of_fmap in Hd as (m & Heq & Hm).
  injection Heq as Hid Hcontent Hsim. by exists m.
Qed.

Lemma reify_rows_elem_inv ms n m :
  m ∈ ms ->
  exists d,
    d ∈ (reify_rows ms n).1 /\ sr_id d = m_id m
    /\ sr_content d = m_content m /\ sr_similarity d = m_similarity m.
Proof.
  intros Hm.
  apply (list_elem_of_fmap_2
           (fun m => (m_id m, m_content m, m_similarity m))) in Hm.
  rewrite <- (reify_rows_core ms n) in Hm.
  apply list_elem_of_fmap in Hm as (d & Heq & Hd).
  injection Heq as Hid Hcontent Hsim. by exists d.
Qed.

(** Raising the threshold, whatever the store does with tied rows at
    the two instants: a row of the answer to the higher threshold is in
    the answer to the lower one, unless that answer is full and ends
    with a row of the same similarity. *)
Lemma match_documents_monotone qe t1 t2 k i1 i2 table m :
  (t1 <= t2)%Q ->
  m ∈ match_documents svc qe t2 k i2 table ->
  (exists m1,
      m1 ∈ match_documents svc qe t1 k i1 table
      /\ m_id m1 = m_id m /\ m_content m1 = m_content m
      /\ m_similarity m1 = m_similarity m)
  \/ (length (match_documents svc qe t1 k i1 table) = Z.to_nat k
      /\ exists m1,
          last (match_documents svc qe t1 k i1 table) = Some m1
          /\ (m_similarity m1 == m_similarity m)%Q).
Proof.
  intros Ht Hm. unfold match_documents in *.
  apply list_elem_of_fmap in Hm as (x & -> & Hx).
  set (rows := scan svc qe table) in *.
  set (S1 := arrange svc snd fst (Match qe t1 k) i1
               (filter (passing t1) rows)).
  set (S2 := arrange svc snd fst (Match qe t2 k) i2
               (filter (passing t2) rows)) in *.
  destruct (take_sorted_monotone snd (passing t1) (passing t2)
              rows S1 S2 (Z.to_nat k) x)
    as [Hin|(Hfull & z & Hlast & Hkey)].
  - intros a. unfold passing. rewrite !Qgtb_lt. lra.
  - intros a b Hab. unfold passing. rewrite !Qgtb_lt. lra.
  - apply arrange_perm.
  - apply arrange_perm.
  - apply arrange_sorted.
  - apply arrange_sorted.
  - exact Hx.
  - left. exists (select_row x). split; [|done].
    by apply list_elem_of_fmap_2.
  - right. rewrite length_fmap. split; [done|].
    exists (select_row z). rewrite fmap_last, Hlast. split; [done|].
    simpl. by rewrite Hkey.
Qed.

(** When no two rows that pass the lower threshold are at the same
    distance, the store has no choice to make, and raising the
    threshold keeps a prefix of the rows. *)
Lemma match_documents_prefix qe t1 t2 k i1 i2 table :
  (t1 <= t2)%Q ->
  (forall x1 x2 : Row * number,
      x1 ∈ scan svc qe table -> x2 ∈ scan svc qe table ->
      (x1.2 == x2.2)%Q -> x1 = x2) ->
  match_documents svc qe t2 k i2 table
    `prefix_of` match_documents svc qe t1 k i1 table.
Proof.
  intros Ht Huntied. unfold match_documents.
  apply fmap_prefix_mono, take_prefix_mono.
  set (rows := scan svc qe table) in *.
  set (S1 := arrange svc snd fst (Match qe t1 k) i1
               (filter (passing t1) rows)).
  assert (arrange svc snd fst (Match qe t2 k) i2 (filter (passing t2) rows)
          = filter (passing t2) S1) as ->.
  { apply (StronglySorted_unique_strong
             (fun a b : Row * number => (a.2 <= b.2)%Q)).
    - intros x1 x2 Hx1 Hx2 H12 H21. apply Huntied.
      + rewrite arrange_perm in Hx1. by apply list_elem_of_filter in Hx1 as [_ ?].
      + apply list_elem_of_filter in Hx2 as [_ Hx2]. unfold S1 in Hx2.
        rewrite arrange_perm in Hx2.
        by apply list_elem_of_filter in Hx2 as [_ ?].
      + by apply Qle_antisym.
    - apply arrange_sorted.
    - eapply StronglySorted_sublist; [|apply sublist_filter].
      apply arrange_sorted.
    - unfold S1. rewrite !arrange_perm, list_filter_filter.
      apply Permutation_refl'. apply list_filter_iff.
      intros rd. unfold passing. rewrite !Qgtb_lt. split; [|tauto].
      intros H. split; [done|]. lra. }
  apply (filter_sorted_prefix snd).
  - intros a b Hab. unfold passing. rewrite !Qgtb_lt. lra.
  - apply arrange_sorted.
Qed.
End Search.

(* ===================================================================== *)
(** ** Properties of the search *)
(* ===================================================================== *)

Lemma num_or_nonzero (x : option number) (d : number) :
  ~ (d == 0)%Q -> ~ (num_or x d == 0)%Q.
Proof.
  intros Hd. destruct x as [q|]; simpl; [|done].
  destruct (Qeq_bool q 0) eqn:E; [done|].
  intros H. apply Qeq_bool_iff in H. congruence.
Qed.

Lemma int_or_nonzero (x : option Z) (d : Z) : d <> 0%Z -> int_or x d <> 0%Z.
Proof.
  intros Hd. destruct x as [z|]; simpl; [|done].
  destruct (Z.eqb_spec z 0); done.
Qed.

Lemma num_or_above (t d s : number) :
  (0 < d)%Q -> (num_or (Some t) d < s)%Q -> (t < s)%Q.
Proof.
  simpl. destruct (Qeq_bool t 0) eqn:E; [|done].
  apply Qeq_bool_iff in E. intros Hd Hs. rewrite E. lra.
Qed.

Section SearchClaims.
Variable svc : Services.

(** C2 (amended).  When [searchDocuments] returns a list for a
    threshold [t] and a limit [k], the list has at most [k] items if
    [k] is not 0 and at most [MAX_RESULTS] items if it is, every item
    has a similarity strictly greater than [t], and the items are in
    descending order of similarity. *)
Theorem searchDocuments_bounds query t k st r st' l :
  searchDocuments svc query
    (Some {| threshold := Some t; maxResults := Some k |}) st
  = (Return r, st') ->
  data r = Some l ->
  (Z.of_nat (length l) <= (if (k =? 0)%Z then MAX_RESULTS else k))%Z
  /\ Forall (fun d => (t < sr_similarity d)%Q) l
  /\ descending l.
Proof.
  intros Hrun Hdata.
  destruct (searchDocuments_data _ _ _ _ _ _ _ Hrun Hdata)
    as (qe & _ & _ & [Hk _] & _ & -> & _ & _).
  simpl in Hk. unfold search_results. simpl.
  set (ms := match_documents _ _ _ _ _ _).
  split; [|split].
  - rewrite reify_rows_length.
    pose proof (match_documents_length svc qe
                  (if Qeq_bool t 0 then SIMILARITY_THRESHOLD else t)
                  (if (k =? 0)%Z then MAX_RESULTS else k)
                  (S (S (clock st)))
                  (visible svc (documents st))) as Hlen.
    fold ms in Hlen. lia.
  - assert (H : Forall (fun s => (t < s)%Q)
                  (sr_similarity <$> (reify_rows ms (next_ref st)).1)).
    { rewrite reify_rows_similarity. apply Forall_fmap.
      eapply Forall_impl; [apply match_documents_above|].
      intros m Hm. simpl in Hm.
      apply (num_or_above t SIMILARITY_THRESHOLD); [done|exact Hm]. }
    rewrite Forall_fmap in H. exact H.
  - unfold descending. rewrite reify_rows_similarity.
    apply match_documents_sorted.
Qed.

(** C3 (amended).  For thresholds [t1 < t2] with [t1] not 0, and the
    same state, query and limit: a result of the search with [t2] is a
    result of the search with [t1] (the same document, with the same
    similarity), unless the search with [t1] returns as many items as
    the limit allows and the last of them has that same similarity.  So
    the results of the search with [t2] are among those of the search
    with [t1] when this one returns fewer items than the limit, and they
    are its first results when no two documents are at the same
    distance of the query.  Among documents at the same distance the
    store chooses, and it need not choose alike for the two searches. *)
Theorem searchDocuments_monotone query t1 t2 k st r1 st1 r2 st2 l2 :
  (t1 < t2)%Q ->
  ~ (t1 == 0)%Q ->
  searchDocuments svc query
    (Some {| threshold := Some t1; maxResults := k |}) st
  = (Return r1, st1) ->
  searchDocuments svc query
    (Some {| threshold := Some t2; maxResults := k |}) st
  = (Return r2, st2) ->
  data r2 = Some l2 ->
  exists l1,
    data r1 = Some l1
    /\ (forall d,
           d ∈ l2 ->
           (exists d1,
               d1 ∈ l1 /\ sr_id d1 = sr_id d
               /\ sr_content d1 = sr_content d
               /\ sr_similarity d1 = sr_similarity d)
           \/ (length l1 = Z.to_nat (int_or k MAX_RESULTS)
               /\ exists d1,
                   last l1 = Some d1
                   /\ (sr_similarity d1 == sr_similarity d)%Q))
    /\ ((length l1 < Z.to_nat (int_or k MAX_RESULTS))%nat ->
        forall d, d ∈ l2 -> sr_id d ∈ sr_id <$> l1)
    /\ (forall qe,
           embed_outcome svc query = Return qe ->
           untied svc qe st ->
           l2 `prefix_of` l1).
Proof.
  intros Hlt Hnz Hrun1 Hrun2 Hdata.
  destruct (searchDocuments_data _ _ _ _ _ _ _ Hrun2 Hdata)
    as (qe & Hqe & Hdim & Hk & Hfault & -> & _ & _).
  destruct (searchDocuments_success svc query
              (Some {| threshold := Some t1; maxResults := k |})
              st qe Hqe Hdim Hfault Hk) as (st1' & Hrun1').
  rewrite Hrun1' in Hrun1. injection Hrun1 as <- <-.
  eexists. split; [reflexivity|].
  unfold search_results. simpl.
  assert (Ht : ((if Qeq_bool t1 0 then SIMILARITY_THRESHOLD else t1)
                <= (if Qeq_bool t2 0 then SIMILARITY_THRESHOLD else t2))%Q).
  { destruct (Qeq_bool t1 0) eqn:E1.
    { apply Qeq_bool_iff in E1. contradiction. }
    destruct (Qeq_bool t2 0) eqn:E2; [|lra].
    apply Qeq_bool_iff in E2. unfold SIMILARITY_THRESHOLD. lra. }
  set (t1' := if Qeq_bool t1 0 then SIMILARITY_THRESHOLD else t1) in *.
  set (t2' := if Qeq_bool t2 0 then SIMILARITY_THRESHOLD else t2) in *.
  set (k' := int_or k MAX_RESULTS).
  set (instant := S (S (clock st))).
  set (table := visible svc (documents st)).
  assert (Hcases : forall d,
             d ∈ (reify_rows (match_documents svc qe t2' k' instant table)
                    (next_ref st)).1 ->
             (exists d1,
                 d1 ∈ (reify_rows
                         (match_documents svc qe t1' k' instant table)
                         (next_ref st)).1
                 /\ sr_id d1 = sr_id d
                 /\ sr_content d1 = sr_content d
                 /\ sr_similarity d1 = sr_similarity d)
             \/ (length (reify_rows
                           (match_documents svc qe t1' k' instant table)
                           (next_ref st)).1 = Z.to_nat k'
                 /\ exists d1,
                     last (reify_rows
                             (match_documents svc qe t1' k' instant table)
                             (next_ref st)).1 = Some d1
                     /\ (sr_similarity d1 == sr_similarity d)%Q)).
  { intros d Hd.
    apply reify_rows_elem in Hd as (m & Hm & Hid & Hcontent & Hsim).
    destruct (match_documents_monotone svc qe t1' t2' k' instant instant
                table m Ht Hm)
      as [(m1 & Hm1 & Hid1 & Hcontent1 & Hsim1)
         |(Hfull & m1 & Hlast & Hsim1)].
    - left.
      apply (reify_rows_elem_inv _ (next_ref st)) in Hm1
        as (d1 & Hd1 & Hid' & Hcontent' & Hsim').
      exists d1. split; [done|]. split; [congruence|].
      split; congruence.
    - right. rewrite reify_rows_length. split; [done|].
      destruct (reify_rows_last _ (next_ref st) _ Hlast)
        as (d1 & Hlast1 & Hsim1').
      exists d1. split; [done|]. by rewrite Hsim1', Hsim. }
  split; [exact Hcases|]. split.
  - intros Hshort d Hd.
    destruct (Hcases d Hd) as [(d1 & Hd1 & Hid & _)|[Hfull _]]; [|lia].
    rewrite <- Hid. by apply list_elem_of_fmap_2.
  - intros qe' Hqe' Huntied.
    assert (qe' = qe) as -> by congruence.
    apply reify_rows_prefix.
    by apply match_documents_prefix.
Qed.

(** C9.  A threshold of 0 is replaced by the default 0.7 and a limit of
    0 by the default 5.  When the query is embedded, the search with a
    zero threshold sends the request [match_documents] with the
    threshold 0.7, and the search with a zero limit sends it with the
    limit 5; what they return is what the search with the default
    returns: no item of similarity 0.7 or less, and up to five items.
    No request ever carries a zero threshold or a zero limit. *)
Theorem searchDocuments_zero_is_default query st :
  (forall qe k o st',
      embed_outcome svc query = Return qe ->
      searchDocuments svc query
        (Some {| threshold := Some 0%Q; maxResults := k |}) st
      = (o, st') ->
      sent_between st st'
        [EmbeddingRequest EMBEDDING_MODEL query;
         RpcRequest "match_documents" qe (7 # 10)
           (int_or k MAX_RESULTS)])
  /\ (forall qe t o st',
         embed_outcome svc query = Return qe ->
         searchDocuments svc query
           (Some {| threshold := t; maxResults := Some 0%Z |}) st
         = (o, st') ->
         sent_between st st'
           [EmbeddingRequest EMBEDDING_MODEL query;
            RpcRequest "match_documents" qe
              (num_or t SIMILARITY_THRESHOLD) 5])
  /\ (forall k r st' l,
         searchDocuments svc query
           (Some {| threshold := Some 0%Q; maxResults := k |}) st
         = (Return r, st') ->
         data r = Some l ->
         Forall (fun d => (7 # 10 < sr_similarity d)%Q) l
         /\ exists qe,
             embed_outcome svc query = Return qe
             /\ l = search_results svc qe (7 # 10) (int_or k MAX_RESULTS) st)
  /\ (forall t r st' l,
         searchDocuments svc query
           (Some {| threshold := t; maxResults := Some 0%Z |}) st
         = (Return r, st') ->
         data r = Some l ->
         (length l <= 5)%nat
         /\ exists qe,
             embed_outcome svc query = Return qe
             /\ l = search_results svc qe
                      (num_or t SIMILARITY_THRESHOLD) 5 st)
  /\ (forall k,
         searchDocuments svc query
           (Some {| threshold := Some 0%Q; maxResults := k |}) st
         = searchDocuments svc query
             (Some {| threshold := Some (7 # 10); maxResults := k |}) st
         /\ searchDocuments svc query
              (Some {| threshold := Some 0%Q; maxResults := k |}) st
            = searchDocuments svc query
                (Some {| threshold := None; maxResults := k |}) st)
  /\ (forall t,
         searchDocuments svc query
           (Some {| threshold := t; maxResults := Some 0%Z |}) st
         = searchDocuments svc query
             (Some {| threshold := t; maxResults := Some 5%Z |}) st)
  /\ (forall options o st' evs fn qe t k,
         searchDocuments svc query options st = (o, st') ->
         sent_between st st' evs ->
         RpcRequest fn qe t k ∈ evs ->
         ~ (t == 0)%Q /\ k <> 0%Z).
Proof.
  split; [|split; [|split; [|split; [|split; [|split]]]]].
  - intros qe k o st' Hqe Hrun.
    apply searchDocuments_sent in Hrun. by rewrite Hqe in Hrun.
  - intros qe t o st' Hqe Hrun.
    apply searchDocuments_sent in Hrun. by rewrite Hqe in Hrun.
  - intros k r st' l Hrun Hdata.
    destruct (searchDocuments_data _ _ _ _ _ _ _ Hrun Hdata)
      as (qe & Hqe & _ & _ & _ & -> & _ & _).
    split; [|by exists qe].
    assert (H : Forall (fun s => (7 # 10 < s)%Q)
                  (sr_similarity
                     <$> search_results svc qe (7 # 10)
                           (int_or k MAX_RESULTS) st)).
    { unfold search_results. rewrite reify_rows_similarity.
      apply Forall_fmap, match_documents_above. }
    rewrite Forall_fmap in H. exact H.
  - intros t r st' l Hrun Hdata.
    destruct (searchDocuments_data _ _ _ _ _ _ _ Hrun Hdata)
      as (qe & Hqe & _ & _ & _ & -> & _ & _).
    split; [|by exists qe].
    unfold search_results. rewrite reify_rows_length.
    apply (match_documents_length svc qe _ 5).
  - done.
  - done.
  - intros options o st' evs fn qe t k Hrun Hsent Hin.
    apply searchDocuments_sent in Hrun.
    assert (Hevs : evs = [EmbeddingRequest EMBEDDING_MODEL query]
                   \/ exists qe',
                        evs = [EmbeddingRequest EMBEDDING_MODEL query;
                               RpcRequest "match_documents" qe'
                                 (num_or (options ≫= threshold)
                                    SIMILARITY_THRESHOLD)
                                 (int_or (options ≫= maxResults)
                                    MAX_RESULTS)]).
    { unfold sent_between in *.
      destruct (embed_outcome svc query) as [qe'|e];
        rewrite Hrun in Hsent; apply app_inv_head in Hsent as <-;
        [right; by exists qe'|by left]. }
    destruct Hevs as [->|[qe' ->]].
    + apply list_elem_of_singleton in Hin. discriminate Hin.
    + apply elem_of_cons in Hin as [Hin|Hin]; [discriminate Hin|].
      apply list_elem_of_singleton in Hin. injection Hin as -> -> -> ->.
      split.
      * by apply num_or_nonzero.
      * by apply int_or_nonzero.
Qed.
End SearchClaims.

(* ===================================================================== *)
(** ** Properties of the RAG agent *)
(* ===================================================================== *)

Section AgentClaims.
Variable svc : Services.

(** The generation call of the agent: one chat request with the
    system prompt and the user's input, whatever the provider answers. *)
Lemma aiAgentWithSystemPrompt_sent systemPrompt userInput st :
  exists o,
    aiAgentWithSystemPrompt svc systemPrompt userInput st
    = (o,
       advance
         (log (ChatRequest DEFAULT_MODEL
                 [ {| role := system; content := systemPrompt |};
                   {| role := user; content := userInput |} ]
                 (7 # 10) 1000) st)).
Proof.
  unfold aiAgentWithSystemPrompt, createChatCompletion, try_catch, bind,
    emit, tick, ret, throw; simpl.
  destruct (chat_completions_create svc _ _ _ _) as [[[|c cs]]|e];
    simpl; by eauto.
Qed.

(** The blocks of the context around any one result. *)
Lemma build_system_prompt_split l1 d l2 :
  exists pre post,
    build_system_prompt (l1 ++ d :: l2)
    = pre +:+ document_block (length l1) d +:+ post
    /\ (forall i d', l1 !! i = Some d' ->
                     substring (document_block i d') pre)
    /\ (forall j d', l2 !! j = Some d' ->
                     substring (document_block (length l1 + S j) d') post).
Proof.
  unfold build_system_prompt, build_context.
  rewrite imap_app, imap_cons, Nat.add_0_r.
  destruct (join_split (LF +:+ LF) (imap document_block l1)
              (document_block (length l1) d)
              (imap ((fun n => document_block (length l1 + n)) ∘ S) l2))
    as (pre & post & -> & Hpre & Hpost).
  exists (PROMPT_HEAD +:+ pre), (post +:+ PROMPT_TAIL).
  split; [by rewrite <- !string_app_assoc|]. split.
  - intros i d' Hi. apply substring_app_l, Hpre.
    by apply (elem_of_lookup_imap_2 document_block).
  - intros j d' Hj. apply substring_app_r, Hpost.
    by apply (elem_of_lookup_imap_2
                ((fun n => document_block (length l1 + n)) ∘ S)).
Qed.

(** C1.  When the search of [ragAgent] succeeds with no result, the
    agent returns the fixed no-information answer, ends in the state
    the search left, and has sent no chat request. *)
Theorem ragAgent_no_results query st r st1 :
  searchDocuments svc query (Some RAG_OPTIONS) st = (Return r, st1) ->
  success r = true ->
  data r = Some [] ->
  ragAgent svc query st = (Return NO_INFORMATION, st1)
  /\ List.filter is_chat (trace st1) = List.filter is_chat (trace st).
Proof.
  intros Hrun Hsuccess Hdata. split.
  - unfold ragAgent, try_catch, bind. by rewrite Hrun, Hsuccess, Hdata.
  - by eapply searchDocuments_no_chat.
Qed.

(** On an empty knowledge base the search succeeds with no result as
    soon as the query is embedded as a vector and the store answers. *)
Lemma ragAgent_empty_knowledge_base query st qe :
  documents st = [] ->
  embed_outcome svc query = Return qe ->
  is_vector qe = true ->
  store_outage svc = None ->
  exists st1,
    ragAgent svc query st = (Return NO_INFORMATION, st1)
    /\ List.filter is_chat (trace st1) = List.filter is_chat (trace st).
Proof.
  intros Hempty Hqe Hvec Hfault.
  assert (Hnone : visible svc [] = [])
    by (unfold visible; by destruct (admitted svc)).
  destruct (searchDocuments_success svc query (Some RAG_OPTIONS) st qe)
    as (st1 & Hrun); [done| |done|by split|].
  { rewrite Hempty, Hvec. unfold compared. rewrite Hnone.
    by destruct (index_scan svc). }
  unfold search_results in Hrun. rewrite Hempty, Hnone in Hrun.
  simpl in Hrun.
  exists st1. split.
  - unfold ragAgent, try_catch, bind. by rewrite Hrun.
  - by eapply searchDocuments_no_chat.
Qed.

(** C8.  When the search of [ragAgent] succeeds with at least one
    result, the agent sends exactly one chat request after the search;
    its system message is the prompt built from the results, in which
    the block of every result stands under the heading [[Document N]]
    with [N] its rank, after the blocks of the results before it and
    before the blocks of those after it; and the results are in
    descending order of similarity. *)
Theorem ragAgent_grounded query st r st1 results :
  searchDocuments svc query (Some RAG_OPTIONS) st = (Return r, st1) ->
  success r = true ->
  data r = Some results ->
  results <> [] ->
  exists o st2,
    ragAgent svc query st = (o, st2)
    /\ sent_between st1 st2
         [ChatRequest DEFAULT_MODEL
            [ {| role := system;
                 content := build_system_prompt results |};
              {| role := user; content := query |} ]
            (7 # 10) 1000]
    /\ List.filter is_chat (trace st1) = List.filter is_chat (trace st)
    /\ (forall l1 d l2,
           results = l1 ++ d :: l2 ->
           exists pre post,
             build_system_prompt results
             = pre +:+ ("[Document " +:+ pretty (length l1 + 1) +:+ "]"
                        +:+ LF +:+ sr_content d) +:+ post
             /\ (forall i d', l1 !! i = Some d' ->
                              substring (document_block i d') pre)
             /\ (forall j d', l2 !! j = Some d' ->
                              substring
                                (document_block (length l1 + S j) d')
                                post))
    /\ descending results.
Proof.
  intros Hrun Hsuccess Hdata Hne.
  destruct (aiAgentWithSystemPrompt_sent (build_system_prompt results)
              query st1) as [o Hgen].
  exists (match o with Return a => Return a | Throw e => Throw e end).
  eexists. split; [|split; [|split; [|split]]].
  - unfold ragAgent, try_catch, bind. rewrite Hrun, Hsuccess, Hdata.
    destruct results as [|d0 rest]; [done|].
    rewrite Hgen. destruct o; reflexivity.
  - reflexivity.
  - by eapply searchDocuments_no_chat.
  - intros l1 d l2 ->. apply build_system_prompt_split.
  - destruct (searchDocuments_data _ _ _ _ _ _ _ Hrun Hdata)
      as (qe & _ & _ & _ & _ & -> & _ & _).
    unfold descending, search_results. rewrite reify_rows_similarity.
    apply match_documents_sorted.
Qed.

(** C10.  [hybridSearch] always returns a list; whatever the search it
    starts with does, a search that throws, reports a failure or
    carries no data makes it return the empty list. *)
Theorem hybridSearch_never_fails query filters st :
  (exists l st', hybridSearch svc query filters st = (Return l, st'))
  /\ (forall search : M (Result (list SearchResult)),
         exists l st',
           hybridSearch_over search filters st = (Return l, st')
           /\ (forall e st1, search st = (Throw e, st1) -> l = [])
           /\ (forall r st1,
                  search st = (Return r, st1) ->
                  success r = false \/ data r = None -> l = [])).
Proof.
  assert (Hover : forall search : M (Result (list SearchResult)),
             exists l st',
               hybridSearch_over search filters st = (Return l, st')
               /\ (forall e st1, search st = (Throw e, st1) -> l = [])
               /\ (forall r st1,
                      search st = (Return r, st1) ->
                      success r = false \/ data r = None -> l = [])).
  { intros search. unfold hybridSearch_over, try_catch, bind, ret.
    destruct (search st) as [[r|e] st1].
    - destruct (success r) eqn:Hs, (data r) as [results|] eqn:Hd;
        [destruct filters| | |];
        do 2 eexists; (split; [reflexivity|]);
        (split; [discriminate|]);
        intros r' st1' [= <- <-]; rewrite ?Hs, ?Hd;
        intros [?|?]; done.
    - do 2 eexists. split; [reflexivity|]. split; [done|discriminate]. }
  split; [|exact Hover].
  destruct (Hover (searchDocuments svc query (Some HYBRID_OPTIONS)))
    as (l & st' & H & _). by eauto.
Qed.
End AgentClaims.

(* ===================================================================== *)
(** ** Object identities in a parsed response *)
(* ===================================================================== *)

Lemma reify_mono : forall j n, (n <= (reify j n).2)%nat.
Proof.
  fix IH 1. intros [| | | |items|fields] n; simpl; try lia.
  - assert (Hgo : forall l m,
               (m <= ((fix go (l : list Json) (m : ref) : list JsVal * ref :=
                         match l with
                         | [] => ([], m)
                         | x :: l' =>
                             let '(v, m1) := reify x m in
                             let '(vs, m2) := go l' m1 in
                             (v :: vs, m2)
                         end) l m).2)%nat).
    { induction l as [|x l IHl]; intros m; simpl; [lia|].
      specialize (IH x m). destruct (reify x m) as [v m1].
      specialize (IHl m1). destruct (_ l m1) as [vs m2].
      simpl in *. lia. }
    specialize (Hgo items (S n)). destruct (_ items (S n)) as [vs n'].
    simpl in *. lia.
  - assert (Hgo : forall l m,
               (m <= ((fix go (l : list (string * Json)) (m : ref)
                         : list (string * JsVal) * ref :=
                         match l with
                         | [] => ([], m)
                         | (k, x) :: l' =>
                             let '(v, m1) := reify x m in
                             let '(fs, m2) := go l' m1 in
                             ((k, v) :: fs, m2)
                         end) l m).2)%nat).
    { induction l as [|[k x] l IHl]; intros m; simpl; [lia|].
      specialize (IH x m). destruct (reify x m) as [v m1].
      specialize (IHl m1). destruct (_ l m1) as [fs m2].
      simpl in *. lia. }
    specialize (Hgo fields (S n)). destruct (_ fields (S n)) as [fs n'].
    simpl in *. lia.
Qed.

(** The fields of a parsed object are those [reify_fields] builds. *)
Lemma reify_JObj fields n :
  reify (JObj fields) n
  = (VObj n (reify_fields fields (S n)).1, (reify_fields fields (S n)).2).
Proof.
  simpl.
  assert (Hgo : forall l m,
             (fix go (l : list (string * Json)) (m : ref)
                : list (string * JsVal) * ref :=
                match l with
                | [] => ([], m)
                | (k, x) :: l' =>
                    let '(v, m1) := reify x m in
                    let '(fs, m2) := go l' m1 in
                    ((k, v) :: fs, m2)
                end) l m = reify_fields l m).
  { induction l as [|[k x] l IHl]; intros m; simpl; [done|].
    destruct (reify x m) as [v m1]. by rewrite IHl. }
  rewrite Hgo. by destruct (reify_fields fields (S n)).
Qed.

(** A parsed array or object has the first free reference. *)
Lemma reify_ref j n r : ref_of (reify j n).1 = Some r -> r = n.
Proof.
  destruct j as [| | | |items|fields]; simpl; try discriminate.
  - destruct (_ items (S n)) as [vs n']. simpl. congruence.
  - destruct (_ fields (S n)) as [fs n']. simpl. congruence.
Qed.

Lemma reify_fields_fresh l m key r :
  ref_of (get_prop (reify_fields l m).1 key) = Some r -> (m <= r)%nat.
Proof.
  revert m. induction l as [|[k x] l IH]; intros m; simpl.
  { unfold inherited. by destruct (existsb _ _). }
  pose proof (reify_mono x m) as Hmono.
  pose proof (reify_ref x m) as Href.
  destruct (reify x m) as [v m1].
  specialize (IH m1). destruct (reify_fields l m1) as [fs m2].
  simpl in *. destruct (String.eqb k key).
  - intros H. apply Href in H. lia.
  - intros H. apply IH in H. lia.
Qed.

Lemma reify_fields_mono l m : (m <= (reify_fields l m).2)%nat.
Proof.
  revert m. induction l as [|[k x] l IH]; intros m; simpl; [done|].
  pose proof (reify_mono x m) as Hmono.
  destruct (reify x m) as [v m1].
  specialize (IH m1). destruct (reify_fields l m1) as [fs m2].
  simpl in *. lia.
Qed.

(** The objects in the metadata of a parsed response did not exist
    before the response was parsed. *)
Lemma reify_rows_fresh ms n d metadata key r :
  d ∈ (reify_rows ms n).1 ->
  sr_metadata d = Some metadata ->
  ref_of (get_prop (obj_fields metadata) key) = Some r ->
  (n <= r)%nat.
Proof.
  revert n. induction ms as [|m ms IH]; intros n; simpl.
  { intros H. by apply elem_of_nil in H. }
  unfold reify_row, reify_object.
  destruct (m_metadata m) as [fields|].
  - pose proof (reify_fields_fresh fields (S n) key r) as Hfresh.
    pose proof (reify_fields_mono fields (S n)) as Hmono.
    destruct (reify_fields fields (S n)) as [fs n1].
    specialize (IH n1). destruct (reify_rows ms n1) as [rs n2].
    simpl in *. intros Hd Hm Hr.
    apply elem_of_cons in Hd as [->|Hd].
    + simpl in Hm. injection Hm as <-. simpl in Hr.
      apply Hfresh in Hr. lia.
    + specialize (IH Hd Hm Hr). lia.
  - specialize (IH n). destruct (reify_rows ms n) as [rs n2].
    simpl in *. intros Hd Hm Hr.
    apply elem_of_cons in Hd as [->|Hd]; [discriminate Hm|].
    by apply IH.
Qed.

Lemma strict_eq_older v w r :
  ref_of w = Some r ->
  (forall r', ref_of v = Some r' -> (r < r')%nat) ->
  strict_eq v w = false.
Proof.
  intros Hw Hv.
  destruct v, w; simpl in *; try done;
    injection Hw as <-; apply Nat.eqb_neq;
    specialize (Hv _ eq_refl); lia.
Qed.

(* ===================================================================== *)
(** ** The metadata filter of [hybridSearch] *)
(* ===================================================================== *)

Section HybridClaims.
Variable svc : Services.

(** C5 (amended).  On top of a successful search with threshold 0.6
    and limit 10, [hybridSearch] returns a sublist of the results of
    that search: exactly those that have a metadata object in which
    the lookup of every key of the filter map finds a value strictly
    equal ([===]) to the filter's.  The lookup [get_prop] finds the
    property of the object itself, else the one every object inherits,
    else [undefined].  Strict equality compares objects and arrays by
    reference, so a filter entry whose value is an object or array that
    existed before the call matches none of the results. *)
Theorem hybridSearch_filters query entries st r st1 base :
  searchDocuments svc query (Some HYBRID_OPTIONS) st = (Return r, st1) ->
  success r = true ->
  data r = Some base ->
  exists l,
    hybridSearch svc query (Some entries) st = (Return l, st1)
    /\ l `sublist_of` base
    /\ (forall d,
           d ∈ l <->
           d ∈ base
           /\ exists metadata,
               sr_metadata d = Some metadata
               /\ forall key value,
                   (key, value) ∈ entries ->
                   strict_eq (get_prop (obj_fields metadata) key) value
                   = true)
    /\ (forall key value r0,
           (key, value) ∈ entries ->
           ref_of value = Some r0 ->
           (r0 < next_ref st)%nat ->
           l = []).
Proof.
  intros Hrun Hsuccess Hdata.
  exists (List.filter (matches_filters entries) base).
  assert (Hmem : forall d,
             d ∈ List.filter (matches_filters entries) base <->
             d ∈ base
             /\ exists metadata,
                 sr_metadata d = Some metadata
                 /\ forall key value,
                     (key, value) ∈ entries ->
                     strict_eq (get_prop (obj_fields metadata) key) value
                     = true).
  { intros d. rewrite list_elem_of_In, List.filter_In, <- list_elem_of_In.
    unfold matches_filters. split.
    - intros [Hd Hm]. split; [done|].
      destruct (sr_metadata d) as [metadata|]; [|done].
      exists metadata. split; [done|]. intros key value Hkv.
      rewrite forallb_forall in Hm.
      apply list_elem_of_In in Hkv. exact (Hm _ Hkv).
    - intros [Hd (metadata & -> & Hm)]. split; [done|].
      apply forallb_forall. intros [key value] Hkv.
      apply list_elem_of_In in Hkv. by apply Hm. }
  split; [|split; [|split]].
  - unfold hybridSearch, hybridSearch_over, try_catch, bind.
    by rewrite Hrun, Hsuccess, Hdata.
  - clear. induction base as [|d base IH]; simpl; [done|].
    destruct (matches_filters entries d).
    + by apply sublist_skip.
    + by apply sublist_cons.
  - exact Hmem.
  - intros key value r0 Hkv Hr0 Hold.
    apply elem_of_nil_inv. intros d Hd.
    apply Hmem in Hd as [Hd (metadata & Hmeta & Hm)].
    specialize (Hm _ _ Hkv).
    destruct (searchDocuments_data _ _ _ _ _ _ _ Hrun Hdata)
      as (qe & _ & _ & _ & _ & -> & _ & _).
    rewrite (strict_eq_older _ _ r0) in Hm; [done|done|].
    intros r' Hr'.
    pose proof (reify_rows_fresh _ _ _ _ _ _ Hd Hmeta Hr'). lia.
Qed.
End HybridClaims.

(* ===================================================================== *)
(** ** Ingestion of one document *)
(* ===================================================================== *)

Section IngestClaims.
Variable svc : Services.

Lemma addDocument_embedding_failure content metadata st e :
  embed_outcome svc content = Throw e ->
  addDocument svc content metadata st
  = (Return (fail (str_or (message e) "Failed to add document")),
     advance (log (EmbeddingRequest EMBEDDING_MODEL content) st)).
Proof.
  intros He. unfold addDocument, try_catch, bind.
  by rewrite createEmbedding_run, He.
Qed.

(** What [addDocument] does once it has the embedding. *)
Lemma addDocument_run content metadata st :
  exists r st',
    addDocument svc content metadata st = (Return r, st')
    /\ exists evs,
        sent_between st st'
          (EmbeddingRequest EMBEDDING_MODEL content :: evs).
Proof.
  unfold addDocument, try_catch, bind.
  rewrite createEmbedding_run.
  destruct (embed_outcome svc content) as [v|e].
  2:{ do 2 eexists. split; [reflexivity|]. by exists []. }
  unfold now, store_insert_single, store_insert, store_call, bind, emit,
    tick, ret, throw; simpl.
  destruct (store_outage svc); simpl;
    [|destruct (Nat.eqb (length v) EMBEDDING_DIM); simpl;
      [destruct (admitted svc); simpl|]];
    (do 2 eexists; split; [reflexivity|];
     eexists; unfold sent_between; simpl;
     rewrite <- app_assoc; reflexivity).
Qed.

(** C4 (amended).  [addDocument] does not check its content: called
    with the empty string it returns a result (it never throws), and
    the first thing it does is to send the embedding request for the
    empty text.  When that request fails, the result is a failure with
    the provider's message, nothing else has been sent and the table
    is unchanged. *)
Theorem addDocument_empty_content metadata st :
  exists r st',
    addDocument svc "" metadata st = (Return r, st')
    /\ (exists evs,
           sent_between st st'
             (EmbeddingRequest EMBEDDING_MODEL "" :: evs))
    /\ (forall e,
           embed_outcome svc "" = Throw e ->
           r = fail (str_or (message e) "Failed to add document")
           /\ sent_between st st' [EmbeddingRequest EMBEDDING_MODEL ""]
           /\ documents st' = documents st).
Proof.
  destruct (addDocument_run "" metadata st) as (r & st' & Hrun & Hsent).
  exists r, st'. split; [done|]. split; [done|].
  intros e He.
  rewrite (addDocument_embedding_failure _ _ _ _ He) in Hrun.
  injection Hrun as <- <-. done.
Qed.

End IngestClaims.

(* ===================================================================== *)
(** ** Bulk ingestion *)
(* ===================================================================== *)

Section BulkClaims.
Variable svc : Services.

Lemma createEmbedding_resume_run text st :
  createEmbedding_resume svc text st
  = (embed_outcome svc text, advance st).
Proof.
  unfold createEmbedding_resume, embeddings_response, embed_outcome,
    try_catch, bind, tick, ret, throw.
  destruct (embeddings_create svc EMBEDDING_MODEL text)
    as [[[|item rest]]|e]; reflexivity.
Qed.

Lemma embed_document_resume_run doc st :
  embed_document_resume svc doc st
  = (match embed_outcome svc (in_content doc) with
     | Return qe =>
         Return {| doc_content := in_content doc;
                   doc_embedding := qe;
                   doc_metadata := default [] (in_metadata doc);
                   doc_created_at := S (clock st) |}
     | Throw e => Throw e
     end, advance st).
Proof.
  unfold embed_document_resume, bind, now, ret.
  rewrite createEmbedding_resume_run.
  by destruct (embed_outcome svc (in_content doc)).
Qed.

Lemma send_all_run docs st :
  exists st1,
    send_all docs st = (Return tt, st1)
    /\ documents st1 = documents st
    /\ next_uuid st1 = next_uuid st
    /\ sent_between st st1
         ((fun doc => EmbeddingRequest EMBEDDING_MODEL (in_content doc))
            <$> docs).
Proof.
  revert st. induction docs as [|doc docs IH]; intros st; simpl.
  { exists st. unfold sent_between. by rewrite app_nil_r. }
  unfold bind, embeddings_request, emit.
  destruct (IH (log (EmbeddingRequest EMBEDDING_MODEL (in_content doc)) st))
    as (st1 & -> & Hdocs & Huuid & Hsent).
  exists st1. split; [done|]. split; [done|]. split; [done|].
  unfold sent_between in *. rewrite Hsent. simpl.
  by rewrite <- app_assoc.
Qed.

(** Settling the promises in any order keeps every value at the index of
    its document, and fills the indices the order goes through; a
    rejection is the failure of one of the embeddings. *)
Lemma promise_all_settle_positional docs order :
  forall values st,
    positional svc docs values ->
    exists o st',
      promise_all_settle (embed_document_resume svc <$> docs) order
        values st = (o, st')
      /\ same_store st st'
      /\ match o with
         | Return values' =>
             positional svc docs values'
             /\ forall i,
                 (exists record, values !! i = Some (Some record))
                 \/ (i ∈ order /\ (i < length docs)%nat) ->
                 exists record, values' !! i = Some (Some record)
         | Throw e =>
             exists doc,
               doc ∈ docs /\ embed_outcome svc (in_content doc) = Throw e
         end.
Proof.
  induction order as [|i order IH]; intros values st Hpos.
  { exists (Return values), st. split; [done|]. split; [done|].
    split; [done|]. intros j [H|[H _]]; [done|].
    by apply elem_of_nil in H. }
  simpl. rewrite list_lookup_fmap.
  destruct (docs !! i) as [doc|] eqn:Hi; simpl.
  - unfold bind. rewrite embed_document_resume_run.
    destruct (embed_outcome svc (in_content doc)) as [qe|e] eqn:Hqe.
    2:{ exists (Throw e), (advance st). split; [done|]. split; [done|].
        exists doc. split; [|done]. apply list_elem_of_lookup. by exists i. }
    set (record := {| doc_content := in_content doc;
                      doc_embedding := qe;
                      doc_metadata := default [] (in_metadata doc);
                      doc_created_at := S (clock st) |}).
    assert (Hlt : (i < length values)%nat).
    { destruct Hpos as [-> _]. by eapply lookup_lt_Some. }
    destruct (IH (<[i := Some record]> values) (advance st))
      as (o & st' & Hsettle & Hstore & Ho).
    { destruct Hpos as [Hlen Hpos]. split.
      - by rewrite length_insert.
      - intros j record' Hj.
        destruct (decide (i = j)) as [<-|Hne].
        + rewrite list_lookup_insert_eq in Hj by done.
          injection Hj as <-. exists doc. by repeat split.
        + rewrite list_lookup_insert_ne in Hj by done. by apply Hpos. }
    exists o, st'. split; [done|]. split; [exact Hstore|].
    destruct o as [values'|e]; [|done].
    destruct Ho as [Hpos' Hall]. split; [done|].
    intros j Hj. apply Hall.
    destruct (decide (i = j)) as [<-|Hne].
    + left. exists record. by rewrite list_lookup_insert_eq.
    + destruct Hj as [[record' Hj]|[Hj Hjlt]].
      * left. exists record'. by rewrite list_lookup_insert_ne.
      * right. apply elem_of_cons in Hj as [->|Hj]; done.
  - destruct (IH values st Hpos) as (o & st' & Hsettle & Hstore & Ho).
    exists o, st'. split; [done|]. split; [done|].
    destruct o as [values'|e]; [|done].
    destruct Ho as [Hpos' Hall]. split; [done|].
    intros j [Hj|[Hj Hjlt]]; apply Hall; [by left|right].
    apply elem_of_cons in Hj as [->|Hj]; [|done].
    apply lookup_ge_None in Hi. lia.
Qed.

(** An array without holes is the array of its values. *)
Lemma mapM_id_settled {A} (values : list (option A)) :
  (forall i, (i < length values)%nat ->
             exists v, values !! i = Some (Some v)) ->
  exists l, mapM id values = Some l /\ values = Some <$> l.
Proof.
  induction values as [|x values IH]; intros Hall.
  { by exists []. }
  destruct (Hall 0%nat) as [v Hv]; [simpl; lia|].
  simpl in Hv. injection Hv as ->.
  destruct IH as (l & Hl & ->).
  { intros i Hi. apply (Hall (S i)). simpl. lia. }
  exists (v :: l). split; [|done].
  simpl. by rewrite Hl.
Qed.

(** C6.  Whatever the order in which the embedding calls complete,
    [bulkAddDocuments] returns a result, after one of two runs.  Either
    it has sent the embedding requests and then a single insert, whose
    batch has one record per input document, at the same index: record
    [i] carries the content, the metadata and the embedding of input
    [i]; when the store accepts the batch, the rows are appended to the
    table in that order.  Or an embedding has failed: no insert has been
    sent, the table is unchanged and the result is a failure. *)
Theorem bulkAddDocuments_positional order docs st :
  order ≡ₚ seq 0 (length docs) ->
  exists result st',
    bulkAddDocuments svc order docs st = Some (Return result, st')
    /\ ((exists batch,
            sent_between st st'
              (((fun doc =>
                   EmbeddingRequest EMBEDDING_MODEL (in_content doc))
                  <$> docs)
               ++ [InsertRequest DOCUMENTS_TABLE batch])
            /\ length batch = length docs
            /\ (forall i doc,
                   docs !! i = Some doc ->
                   exists record,
                     batch !! i = Some record /\ record_of svc doc record)
            /\ (store_fault svc = None ->
                Forall (fun record =>
                          length (doc_embedding record) = EMBEDDING_DIM)
                  batch ->
                result = {| bulk_success := true;
                            bulk_count := Some (length docs);
                            bulk_error := None |}
                /\ documents st'
                   = documents st ++ imap (new_row (next_uuid st)) batch))
        \/ (sent_between st st'
              ((fun doc => EmbeddingRequest EMBEDDING_MODEL (in_content doc))
                 <$> docs)
            /\ bulk_success result = false
            /\ documents st' = documents st
            /\ exists doc e,
                doc ∈ docs
                /\ embed_outcome svc (in_content doc) = Throw e)).
Proof.
  intros Hperm. unfold bulkAddDocuments.
  destruct (send_all_run docs st) as (st1 & -> & Hdocs1 & Huuid1 & Hsent1).
  unfold promise_all. rewrite length_fmap.
  destruct (promise_all_settle_positional docs order
              (replicate (length docs) None) st1)
    as (o & st2 & -> & Hstore & Ho).
  { split; [by rewrite length_replicate|].
    intros i record Hi. apply lookup_replicate in Hi as [Hi _]. done. }
  destruct Hstore as (Hdocs2 & Huuid2 & _ & Htrace2).
  destruct o as [values|e].
  2:{ destruct Ho as (doc & Hdoc & He).
      unfold try_catch, bind, ret; simpl.
      do 2 eexists. split; [reflexivity|]. right.
      split; [|split; [done|split]].
      - unfold sent_between in *. by rewrite Htrace2.
      - by rewrite Hdocs2.
      - by exists doc, e. }
  destruct Ho as [[Hlen Hpos] Hall].
  destruct (mapM_id_settled values) as (batch & -> & ->).
  { intros i Hi. apply Hall. right. split; [|lia].
    rewrite Hperm. apply elem_of_seq. lia. }
  rewrite length_fmap in Hlen.
  assert (Hbatch : forall i doc,
             docs !! i = Some doc ->
             exists record,
               batch !! i = Some record /\ record_of svc doc record).
  { intros i doc Hi.
    destruct (batch !! i) as [record|] eqn:Hrecord.
    - exists record. split; [done|].
      destruct (Hpos i record) as (doc' & Hdoc' & Hrec).
      { by rewrite list_lookup_fmap, Hrecord. }
      congruence.
    - apply lookup_ge_None in Hrecord.
      apply lookup_lt_Some in Hi. lia. }
  assert (Hsent : forall st3 : State,
             trace st3 = trace st2 ++ [InsertRequest DOCUMENTS_TABLE batch] ->
             sent_between st st3
               (((fun doc =>
                    EmbeddingRequest EMBEDDING_MODEL (in_content doc))
                   <$> docs)
                ++ [InsertRequest DOCUMENTS_TABLE batch])).
  { intros st3 H. unfold sent_between in *.
    by rewrite H, Htrace2, Hsent1, <- app_assoc. }
  unfold try_catch, bind, store_insert, store_call, bind, emit, tick,
    ret, throw; simpl.
  unfold store_fault.
  destruct (store_outage svc) as [e|] eqn:Hout; simpl.
  { do 2 eexists. split; [reflexivity|]. left. exists batch.
    split; [by apply Hsent|]. split; [done|]. split; [done|].
    discriminate. }
  destruct (forallb _ batch) eqn:Hdims; simpl.
  2:{ do 2 eexists. split; [reflexivity|]. left. exists batch.
      split; [by apply Hsent|]. split; [done|]. split; [done|].
      intros _ Hall'. exfalso.
      apply not_true_iff_false in Hdims. apply Hdims.
      apply forallb_forall. intros record Hrecord.
      rewrite Forall_forall in Hall'.
      apply Nat.eqb_eq, Hall'. by apply list_elem_of_In. }
  destruct (admitted svc) eqn:Hadmitted; simpl.
  - do 2 eexists. split; [reflexivity|]. left. exists batch.
    split; [by apply Hsent|]. split; [done|]. split; [done|].
    intros _ _. rewrite length_imap, Hlen, Hdocs2, Huuid2, Huuid1, Hdocs1.
    done.
  - destruct (Nat.eqb (length batch) 0); simpl;
      do 2 eexists; (split; [reflexivity|]); left; exists batch;
      (split; [by apply Hsent|]); (split; [done|]); (split; [done|]);
      discriminate.
Qed.
End BulkClaims.

(* ===================================================================== *)
(** ** The properties on concrete runs *)
(* ===================================================================== *)

Module Runs.
Import Toy.

(** C1 on the empty knowledge base. *)
Lemma ragAgent_no_results_witness :
  let st1 := (searchDocuments services "hello" (Some RAG_OPTIONS) empty).2 in
  searchDocuments services "hello" (Some RAG_OPTIONS) empty
  = (Return (succeed []), st1)
  /\ ragAgent services "hello" empty = (Return NO_INFORMATION, st1)
  /\ List.filter is_chat (trace st1) = [].
Proof.
  intros st1. split; [vm_compute; reflexivity|].
  apply (ragAgent_no_results services "hello" empty (succeed []));
    [vm_compute; reflexivity | reflexivity | reflexivity].
Defined.

(** C2 with threshold 0.95 and limit 5 on the three-document library. *)
Lemma searchDocuments_bounds_witness :
  search (95 # 100) 5 = (Return (succeed [beta]), (search (95 # 100) 5).2)
  /\ (Z.of_nat (length [beta]) <= 5)%Z
  /\ Forall (fun d => (95 # 100 < sr_similarity d)%Q) [beta]
  /\ descending [beta].
Proof.
  split; [vm_compute; reflexivity|].
  apply (searchDocuments_bounds services "hello" (95 # 100) 5 library
           (succeed [beta]) (search (95 # 100) 5).2);
    [vm_compute; reflexivity | reflexivity].
Defined.

(** C2 as the specification states it fails for a limit of 0: the
    search returns two items. *)
Lemma searchDocuments_zero_limit_exceeded :
  search (7 # 10) 0 = (Return (succeed [beta; alpha]), (search (7 # 10) 0).2)
  /\ ~ (Z.of_nat (length [beta; alpha]) <= 0)%Z.
Proof. split; [vm_compute; reflexivity|]. simpl. lia. Qed.

(** C3 with thresholds 0.6 < 0.95 on the library: the search with 0.6
    returns fewer items than the limit of 10. *)
Lemma searchDocuments_monotone_witness :
  (6 # 10 < 95 # 100)%Q
  /\ ~ (6 # 10 == 0)%Q
  /\ search (6 # 10) 10
     = (Return (succeed [beta; alpha; gamma]), (search (6 # 10) 10).2)
  /\ search (95 # 100) 10
     = (Return (succeed [beta]), (search (95 # 100) 10).2)
  /\ forall d, d ∈ [beta] -> sr_id d ∈ sr_id <$> [beta; alpha; gamma].
Proof.
  split; [reflexivity|]. split; [discriminate|].
  split; [vm_compute; reflexivity|].
  split; [vm_compute; reflexivity|].
  destruct (searchDocuments_monotone services "hello" (6 # 10) (95 # 100)
              (Some 10%Z) library
              (succeed [beta; alpha; gamma]) (search (6 # 10) 10).2
              (succeed [beta]) (search (95 # 100) 10).2 [beta])
    as (l1 & Hl1 & _ & Hshort & _);
    [reflexivity | discriminate | vm_compute; reflexivity
    | vm_compute; reflexivity | reflexivity |].
  injection Hl1 as <-. apply Hshort. simpl. lia.
Defined.

(** C3 as the specification states it fails in two ways.  For the
    thresholds 0 < 0.5: with the threshold 0.5 the search returns the
    three documents, with the threshold 0 only the two above 0.7.  And
    for the thresholds 0.5 < 0.8 on two documents at the same distance,
    with a limit of one: the store returns one of them for 0.5 and the
    other for 0.8. *)
Lemma searchDocuments_not_monotone :
  ((0 < 1 # 2)%Q
   /\ search 0%Q 10 = (Return (succeed [beta; alpha]), (search 0%Q 10).2)
   /\ search (1 # 2) 10
      = (Return (succeed [beta; alpha; gamma]), (search (1 # 2) 10).2)
   /\ exists d, d ∈ [beta; alpha; gamma] /\ d ∉ [beta; alpha])
  /\ ((5 # 10 < 8 # 10)%Q
      /\ ~ (5 # 10 == 0)%Q
      /\ searchDocuments fickle "hello" (Some (one_above (5 # 10))) twins
         = (Return (succeed [twin_left]),
            (searchDocuments fickle "hello" (Some (one_above (5 # 10)))
               twins).2)
      /\ searchDocuments fickle "hello" (Some (one_above (8 # 10))) twins
         = (Return (succeed [twin_right]),
            (searchDocuments fickle "hello" (Some (one_above (8 # 10)))
               twins).2)
      /\ sr_id twin_right ∉ sr_id <$> [twin_left]).
Proof.
  split.
  - split; [reflexivity|].
    split; [vm_compute; reflexivity|].
    split; [vm_compute; reflexivity|].
    eexists. split.
    + do 2 apply list_elem_of_further. apply list_elem_of_here.
    + intros H. apply (list_elem_of_fmap_2 sr_id) in H.
      vm_compute in H.
      repeat (apply elem_of_cons in H as [H|H]; [discriminate H|]).
      by apply elem_of_nil in H.
  - split; [reflexivity|]. split; [discriminate|].
    split; [vm_compute; reflexivity|].
    split; [vm_compute; reflexivity|].
    intros H. vm_compute in H.
    apply elem_of_cons in H as [H|H]; [discriminate H|].
    by apply elem_of_nil in H.
Qed.

(** C4 as the specification states it fails: with empty content the
    embedding request is sent, and the failure is the provider's. *)
Lemma empty_content_reaches_provider :
  exists st',
    addDocument refusing "" None empty
    = (Return (fail "Failed to create embedding: 400 invalid input"), st')
    /\ trace st' = [EmbeddingRequest EMBEDDING_MODEL ""].
Proof. eexists. split; vm_compute; reflexivity. Qed.

(** C5 with a filter on a string. *)
Lemma hybridSearch_filters_witness :
  let st1 :=
    (searchDocuments services "hello" (Some HYBRID_OPTIONS) library).2 in
  searchDocuments services "hello" (Some HYBRID_OPTIONS) library
  = (Return (succeed [beta; alpha; gamma]), st1)
  /\ exists l,
      hybridSearch services "hello" (Some [("lang", VStr "en")]) library
      = (Return l, st1)
      /\ sr_content <$> l = ["beta"]
      /\ l `sublist_of` [beta; alpha; gamma].
Proof.
  intros st1. split; [vm_compute; reflexivity|].
  destruct (hybridSearch_filters services "hello" [("lang", VStr "en")]
              library (succeed [beta; alpha; gamma]) st1 [beta; alpha; gamma])
    as (l & Hrun & Hsub & _);
    [vm_compute; reflexivity | reflexivity | reflexivity |].
  exists l. split; [exact Hrun|]. split; [|exact Hsub].
  vm_compute in Hrun. by injection Hrun as <-.
Defined.

(** C5 as the specification states it fails: the [tags] of the document
    [alpha] are deeply equal to the filter's, and the document is not
    returned. *)
Lemma hybridSearch_not_deep_equality :
  let st1 :=
    (searchDocuments services "hello" (Some HYBRID_OPTIONS) library).2 in
  searchDocuments services "hello" (Some HYBRID_OPTIONS) library
  = (Return (succeed [beta; alpha; gamma]), st1)
  /\ (exists d, d ∈ [beta; alpha; gamma]
                /\ sr_content d = "alpha"
                /\ deep_matches_filters tags_filter d = true)
  /\ hybridSearch services "hello" (Some tags_filter) library
     = (Return [], st1).
Proof.
  intros st1. split; [vm_compute; reflexivity|]. split.
  - eexists. split; [apply list_elem_of_further, list_elem_of_here|].
    split; reflexivity.
  - vm_compute; reflexivity.
Qed.

(** C6 on two documents whose embedding calls complete in the reverse
    order. *)
Lemma bulkAddDocuments_positional_witness :
  [1; 0]%nat ≡ₚ seq 0 (length two_docs)
  /\ exists result st' batch,
      bulkAddDocuments services [1; 0]%nat two_docs empty
      = Some (Return result, st')
      /\ List.filter is_insert (trace st')
         = [InsertRequest DOCUMENTS_TABLE batch]
      /\ doc_content <$> batch = ["a"; "b"]
      /\ row_content <$> documents st' = ["a"; "b"].
Proof.
  split; [apply Permutation_swap|].
  destruct (bulkAddDocuments_positional services [1; 0]%nat two_docs empty)
    as (result & st' & Hrun & _).
  { apply Permutation_swap. }
  exists result, st'.
  vm_compute in Hrun. injection Hrun as <- <-.
  eexists. split; [reflexivity|].
  split; [vm_compute; reflexivity|].
  split; vm_compute; reflexivity.
Defined.


(** C8 on the library: two documents are above 0.7. *)
Lemma ragAgent_grounded_witness :
  let st1 := (searchDocuments services "hello" (Some RAG_OPTIONS) library).2 in
  searchDocuments services "hello" (Some RAG_OPTIONS) library
  = (Return (succeed [beta; alpha]), st1)
  /\ sr_content <$> [beta; alpha] = ["beta"; "alpha"]
  /\ exists o st2,
      ragAgent services "hello" library = (o, st2)
      /\ sent_between st1 st2
           [ChatRequest DEFAULT_MODEL
              [ {| role := system;
                   content := build_system_prompt [beta; alpha] |};
                {| role := user; content := "hello" |} ]
              (7 # 10) 1000]
      /\ descending [beta; alpha].
Proof.
  intros st1. split; [vm_compute; reflexivity|].
  split; [reflexivity|].
  destruct (ragAgent_grounded services "hello" library
              (succeed [beta; alpha]) st1 [beta; alpha])
    as (o & st2 & Hrun & Hsent & _ & _ & Hdesc);
    [vm_compute; reflexivity | reflexivity | reflexivity | discriminate |].
  by exists o, st2.
Defined.

(** C9 on the library: the search with a zero threshold and a zero limit
    is the search with 0.7 and 5, and the request it sends to the store
    carries 0.7 and 5. *)
Example searchDocuments_zero_options :
  search 0%Q 0 = search (7 # 10) 5
  /\ search 0%Q 0 = (Return (succeed [beta; alpha]), (search 0%Q 0).2)
  /\ trace (search 0%Q 0).2
     = [ EmbeddingRequest EMBEDDING_MODEL "hello";
         RpcRequest "match_documents" (flat (5 # 10)) (7 # 10) 5 ].
Proof. repeat split; vm_compute; reflexivity. Qed.

(** C10 when the store refuses the search: the empty list, where
    [ragAgent] throws the store's error. *)
Example hybridSearch_store_down :
  (hybridSearch store_down "hello" (Some tags_filter) library).1 = Return []
  /\ (ragAgent store_down "hello" library).1
     = Throw (Error "permission denied").
Proof. split; vm_compute; reflexivity. Qed.

(** C5 on a key that every object inherits: no metadata object of the
    library has a property [constructor] of its own, and yet a filter
    that asks for [undefined] under that key matches none of them. *)
Example hybridSearch_inherited_key :
  (hybridSearch services "hello" (Some [("constructor", VUndefined)])
     library).1
  = Return [].
Proof. vm_compute; reflexivity. Qed.

(** A vector of three entries reaches the store, which refuses it. *)
Example addDocument_short_vector :
  exists st',
    addDocument short_vectors "hello" None empty
    = (Return (fail "expected 1536 dimensions, not 3"), st')
    /\ documents st' = []
    /\ List.filter is_insert (trace st')
       = [InsertRequest DOCUMENTS_TABLE
            [ {| doc_content := "hello"; doc_embedding := [1; 2; 3]%Q;
                 doc_metadata := []; doc_created_at := 1 |} ]].
Proof. eexists. split; [|split]; vm_compute; reflexivity. Qed.
End Runs.

(* ===================================================================== *)
(** ** The chat client and the agents on top of it *)
(* ===================================================================== *)

Lemma str_or_nonempty x d : d <> "" -> str_or x d <> "".
Proof.
  intros Hd. unfold str_or. destruct (String.eqb_spec x ""); done.
Qed.

Lemma opt_str_or_nonempty x d : d <> "" -> opt_str_or x d <> "".
Proof.
  intros Hd. destruct x; simpl; [by apply str_or_nonempty|done].
Qed.

Lemma str_or_id x d : x <> "" -> str_or x d = x.
Proof.
  intros Hx. unfold str_or. destruct (String.eqb_spec x ""); done.
Qed.

Section ChatClient.
Variable svc : Services.

Lemma createChatCompletion_run messages options st :
  exists r,
    createChatCompletion svc messages options st
    = (Return r,
       advance
         (log (ChatRequest
                 (opt_str_or (options ≫= opt_model) DEFAULT_MODEL)
                 messages
                 (num_or (options ≫= opt_temperature) (7 # 10))
                 (int_or (options ≫= opt_maxTokens) 1000)) st))
    /\ (success r = true -> error r = None)
    /\ (success r = false ->
        data r = None /\ exists msg, error r = Some msg /\ msg <> "").
Proof.
  unfold createChatCompletion, try_catch, bind, emit, tick, ret, throw.
  destruct (chat_completions_create svc _ _ _ _) as [[[|c cs]]|e].
  - eexists. split; [reflexivity|]. split; [done|].
    intros _. split; [done|]. eexists. split; [reflexivity|].
    by apply str_or_nonempty.
  - eexists. split; [reflexivity|]. done.
  - eexists. split; [reflexivity|]. split; [done|].
    intros _. split; [done|]. eexists. split; [reflexivity|].
    by apply str_or_nonempty.
Qed.

(** X1.  [createChatCompletion] never throws and sends one chat request.
    The request carries the options, with the defaults in the place of a
    missing, empty or zero option, so that a temperature of 0 is never
    sent; a failure carries a message that is not empty. *)
Theorem createChatCompletion_request messages options st :
  let model := opt_str_or (options ≫= opt_model) DEFAULT_MODEL in
  let temperature := num_or (options ≫= opt_temperature) (7 # 10) in
  let max_tokens := int_or (options ≫= opt_maxTokens) 1000 in
  exists r,
    createChatCompletion svc messages options st
    = (Return r,
       advance (log (ChatRequest model messages temperature max_tokens) st))
    /\ model <> "" /\ ~ (temperature == 0)%Q /\ max_tokens <> 0%Z
    /\ (success r = true -> error r = None)
    /\ (success r = false ->
        data r = None /\ exists msg, error r = Some msg /\ msg <> "").
Proof.
  intros model temperature max_tokens.
  destruct (createChatCompletion_run messages options st)
    as (r & Hrun & Hok & Hfail).
  exists r. split; [exact Hrun|].
  split; [by apply opt_str_or_nonempty|].
  split; [by apply num_or_nonzero|].
  split; [by apply int_or_nonzero|]. done.
Qed.

Lemma agent_reply_nonempty r :
  (success r = false -> exists msg, error r = Some msg /\ msg <> "") ->
  match agent_reply r with
  | Return text => text <> ""
  | Throw e => message e <> ""
  end.
Proof.
  intros Hr. unfold agent_reply. destruct (success r); simpl.
  - by apply opt_str_or_nonempty.
  - by apply opt_str_or_nonempty.
Qed.

Lemma agent_reply_run messages st :
  exists r,
    createChatCompletion svc messages None st
    = (Return r,
       advance (log (ChatRequest DEFAULT_MODEL messages (7 # 10) 1000) st))
    /\ (await response <- createChatCompletion svc messages None;
        if negb (success response)
        then throw (Error (opt_str_or (error response)
                             "Failed to get response"))
        else ret (opt_str_or (data response) "No response generated")) st
       = (agent_reply r,
          advance
            (log (ChatRequest DEFAULT_MODEL messages (7 # 10) 1000) st))
    /\ (success r = false -> exists msg, error r = Some msg /\ msg <> "").
Proof.
  destruct (createChatCompletion_run messages None st)
    as (r & Hrun & _ & Hfail).
  exists r. split; [exact Hrun|]. split; [|by intros H; apply Hfail].
  unfold bind. rewrite Hrun.
  unfold agent_reply. by destruct (negb (success r)).
Qed.

Lemma rethrow_id {A} (m : M A) st :
  try_catch m (fun error => throw error) st = m st.
Proof. unfold try_catch, throw. by destruct (m st) as [[a|e] st']. Qed.

(** X2.  [aiAgent], [aiAgentWithContext] and [aiAgentWithSystemPrompt]
    send exactly one chat request, with the default model, temperature
    0.7 and 1000 tokens, and then either return a text that is not empty
    or throw an error whose message is not empty.  [aiAgentWithContext]
    sends the roles and contents of the session's messages in their
    order. *)
Theorem agents_reply_nonempty st :
  let replies (run : Outcome string * State) (messages : list Message) :=
    run.2
    = advance (log (ChatRequest DEFAULT_MODEL messages (7 # 10) 1000) st)
    /\ match run.1 with
       | Return text => text <> ""
       | Throw e => message e <> ""
       end in
  (forall input,
      replies (aiAgent svc input st)
        [ {| role := system; content := ASSISTANT_PROMPT |};
          {| role := user; content := input |} ])
  /\ (forall systemPrompt userInput,
         replies (aiAgentWithSystemPrompt svc systemPrompt userInput st)
           [ {| role := system; content := systemPrompt |};
             {| role := user; content := userInput |} ])
  /\ (forall messages,
         replies (aiAgentWithContext svc messages st)
           ((fun msg => {| role := sm_role msg; content := sm_content msg |})
              <$> messages)).
Proof.
  intros replies. unfold replies.
  split; [|split].
  - intros input. unfold aiAgent. rewrite rethrow_id.
    destruct (agent_reply_run
                [ {| role := system; content := ASSISTANT_PROMPT |};
                  {| role := user; content := input |} ] st)
      as (r & _ & -> & Hfail).
    split; [done|]. by apply agent_reply_nonempty.
  - intros systemPrompt userInput. unfold aiAgentWithSystemPrompt.
    rewrite rethrow_id.
    destruct (agent_reply_run
                [ {| role := system; content := systemPrompt |};
                  {| role := user; content := userInput |} ] st)
      as (r & _ & -> & Hfail).
    split; [done|]. by apply agent_reply_nonempty.
  - intros messages. unfold aiAgentWithContext. rewrite rethrow_id.
    destruct (agent_reply_run
                ((fun msg =>
                    {| role := sm_role msg; content := sm_content msg |})
                   <$> messages) st)
      as (r & _ & -> & Hfail).
    split; [done|]. by apply agent_reply_nonempty.
Qed.
End ChatClient.

(* ===================================================================== *)
(** ** Failures of the search and of the RAG agents *)
(* ===================================================================== *)

Section SearchOutcomes.
Variable svc : Services.

(** The ways a search ends. *)
Lemma searchDocuments_cases query options st :
  let t := num_or (options ≫= threshold) SIMILARITY_THRESHOLD in
  let k := int_or (options ≫= maxResults) MAX_RESULTS in
  exists r st',
    searchDocuments svc query options st = (Return r, st')
    /\ documents st' = documents st
    /\ next_uuid st' = next_uuid st
    /\ ((exists qe,
            embed_outcome svc query = Return qe
            /\ store_outage svc = None
            /\ (0 <= k <= INT_MAX)%Z
            /\ is_vector qe && comparable qe (compared svc (documents st))
               = true
            /\ r = succeed (search_results svc qe t k st))
        \/ (exists msg,
               r = fail msg /\ msg <> ""
               /\ ((exists e, embed_outcome svc query = Throw e)
                   \/ (exists qe,
                          embed_outcome svc query = Return qe
                          /\ (is_Some (store_outage svc)
                              \/ (k < 0)%Z
                              \/ (INT_MAX < k)%Z
                              \/ is_vector qe
                                 && comparable qe
                                      (compared svc (documents st))
                                 = false))))).
Proof.
  intros t k. unfold searchDocuments, try_catch, bind.
  rewrite createEmbedding_run.
  destruct (embed_outcome svc query) as [qe|e] eqn:Hqe.
  2:{ do 2 eexists. split; [reflexivity|]. split; [done|]. split; [done|].
      right. eexists. split; [reflexivity|].
      split; [by apply str_or_nonempty|]. left. by eexists. }
  unfold rpc_match_documents, store_call, bind, emit, tick; simpl.
  fold t k.
  destruct (store_outage svc) as [e|] eqn:Hfault; simpl.
  { do 2 eexists. split; [reflexivity|]. split; [done|]. split; [done|].
    right. eexists. split; [reflexivity|].
    split; [by apply str_or_nonempty|]. right. exists qe.
    split; [done|]. left. by eexists. }
  destruct (is_int k) eqn:Hint; simpl.
  2:{ do 2 eexists. split; [reflexivity|]. split; [done|]. split; [done|].
      right. eexists. split; [reflexivity|].
      split; [by apply str_or_nonempty|]. right. exists qe.
      split; [done|]. right.
      unfold is_int, INT_MIN in Hint. apply andb_false_iff in Hint.
      destruct Hint as [Hint|Hint]; apply Z.leb_gt in Hint; [left; lia|].
      by right; left. }
  unfold is_int in Hint. apply andb_true_iff in Hint as [_ Hint].
  apply Z.leb_le in Hint.
  destruct (is_vector qe) eqn:Hvec; simpl.
  2:{ do 2 eexists. split; [reflexivity|]. split; [done|]. split; [done|].
      right. eexists. split; [reflexivity|].
      split; [by apply str_or_nonempty|]. right. exists qe.
      split; [done|]. right; right; right. by rewrite Hvec. }
  destruct (k <? 0)%Z eqn:Hk; simpl.
  { do 2 eexists. split; [reflexivity|]. split; [done|]. split; [done|].
    right. eexists. split; [reflexivity|].
    split; [by apply str_or_nonempty|]. right. exists qe.
    split; [done|]. right. left. by apply Z.ltb_lt. }
  destruct (comparable qe (compared svc (documents st))) eqn:Hdim; simpl.
  2:{ do 2 eexists. split; [reflexivity|]. split; [done|]. split; [done|].
      right. eexists. split; [reflexivity|].
      split; [by apply str_or_nonempty|]. right. exists qe.
      split; [done|]. right; right; right. by rewrite Hvec, Hdim. }
  unfold search_results.
  destruct (reify_rows _ _) as [items n] eqn:Hitems; simpl.
  rewrite project_results.
  do 2 eexists. split; [reflexivity|]. split; [done|]. split; [done|].
  left. exists qe. apply Z.ltb_ge in Hk. by rewrite Hitems, Hvec, Hdim.
Qed.

(** X3.  [searchDocuments] never throws and never changes the table.  It
    succeeds exactly when the query is embedded, the store is reached,
    the limit in force is an [int] that is not negative, the embedding
    of the query is a vector (it has an entry, and no more than 16000),
    and it has the dimension of every embedding the search compares it
    with; otherwise it reports a failure with a message that is not
    empty and no data.  A client that the policies do not admit sees
    no row, and its search succeeds with no result. *)
Theorem searchDocuments_succeeds_iff query options st :
  let k := int_or (options ≫= maxResults) MAX_RESULTS in
  exists r st',
    searchDocuments svc query options st = (Return r, st')
    /\ documents st' = documents st
    /\ (success r = true <->
        exists qe,
          embed_outcome svc query = Return qe
          /\ store_outage svc = None
          /\ (0 <= k <= INT_MAX)%Z
          /\ (1 <= Z.of_nat (length qe) <= MAX_DIMENSIONS)%Z
          /\ comparable qe (compared svc (documents st)) = true)
    /\ (success r = true -> exists l, data r = Some l /\ error r = None)
    /\ (success r = true -> admitted svc = false -> data r = Some [])
    /\ (success r = false ->
        data r = None /\ exists msg, error r = Some msg /\ msg <> "").
Proof.
  intros k.
  destruct (searchDocuments_cases query options st)
    as (r & st' & Hrun & Hdocs & _ & Hcases).
  exists r, st'. split; [done|]. split; [done|].
  destruct Hcases as [(qe & Hqe & Hfault & Hk & Hdim & ->)
                     |(msg & -> & Hmsg & Hwhy)].
  - apply andb_true_iff in Hdim as [Hvec Hdim].
    apply andb_true_iff in Hvec as [Hone Hmany].
    apply Z.leb_le in Hone, Hmany.
    split; [|split; [by eauto|split; [|done]]].
    + split; [|done]. intros _. by exists qe.
    + intros _ Hanon. unfold search_results, visible. rewrite Hanon.
      unfold match_documents, arrange. simpl. by rewrite take_nil.
  - split; [|split; [done|split; [done|by eauto]]].
    split; [done|]. intros (qe & Hqe & Hfault & Hk & Hvec & Hdim). exfalso.
    destruct Hwhy as [[e He]|(qe' & Hqe' & Hwhy)]; [congruence|].
    assert (qe' = qe) as -> by congruence. fold k in Hwhy.
    destruct Hwhy as [[e He]|[Hneg|[Hbig|Hdim']]];
      [congruence|lia|lia|].
    apply andb_false_iff in Hdim' as [Hvec'|Hdim']; [|congruence].
    unfold is_vector in Hvec'.
    apply andb_false_iff in Hvec' as [H|H]; apply Z.leb_gt in H; lia.
Qed.

(** X4.  When the search fails, [ragAgent] and [ragAgentWithSources]
    throw an error with the message of the search, in the state the
    search left: no chat request is sent and no answer is made up. *)
Theorem ragAgents_search_failure query st r st1 :
  searchDocuments svc query (Some RAG_OPTIONS) st = (Return r, st1) ->
  success r = false ->
  exists msg,
    error r = Some msg /\ msg <> ""
    /\ ragAgent svc query st = (Throw (Error msg), st1)
    /\ ragAgentWithSources svc query st = (Throw (Error msg), st1)
    /\ List.filter is_chat (trace st1) = List.filter is_chat (trace st).
Proof.
  intros Hrun Hfail.
  destruct (searchDocuments_cases query (Some RAG_OPTIONS) st)
    as (r' & st' & Hrun' & _ & _ & Hcases).
  rewrite Hrun in Hrun'. injection Hrun' as <- <-.
  destruct Hcases as [(qe & _ & _ & _ & _ & ->)|(msg & -> & Hmsg & _)];
    [discriminate Hfail|].
  exists msg. split; [done|]. split; [done|].
  split; [|split].
  - unfold ragAgent, try_catch, bind, throw. rewrite Hrun. simpl.
    by rewrite str_or_id.
  - unfold ragAgentWithSources, try_catch, bind, throw. rewrite Hrun. simpl.
    by rewrite str_or_id.
  - by eapply searchDocuments_no_chat.
Qed.

(** X5.  Whenever [ragAgentWithSources] returns, its sources are the
    list the search returned: at most three results, each of similarity
    above 0.7, in descending order.  Without sources the answer is the
    fixed text and nothing is sent after the search; with sources one
    chat request follows the search, with the prompt built from them. *)
Theorem ragAgentWithSources_sources query st out st2 :
  ragAgentWithSources svc query st = (Return out, st2) ->
  exists st1,
    searchDocuments svc query (Some RAG_OPTIONS) st
    = (Return (succeed (sources out)), st1)
    /\ (length (sources out) <= 3)%nat
    /\ Forall (fun d => (7 # 10 < sr_similarity d)%Q) (sources out)
    /\ descending (sources out)
    /\ (sources out = [] ->
        answer out = SOURCES_NO_INFORMATION /\ st2 = st1)
    /\ (sources out <> [] ->
        answer out <> ""
        /\ sent_between st1 st2
             [ChatRequest DEFAULT_MODEL
                [ {| role := system;
                     content := build_sources_prompt (sources out) |};
                  {| role := user; content := query |} ]
                (7 # 10) 1000]).
Proof.
  intros Hrun.
  destruct (searchDocuments_cases query (Some RAG_OPTIONS) st)
    as (r & st1 & Hsearch & _ & _ & Hcases).
  revert Hrun. unfold ragAgentWithSources. rewrite rethrow_id.
  unfold bind. rewrite Hsearch.
  destruct Hcases as [(qe & _ & _ & _ & _ & ->)|(msg & -> & _ & _)];
    [|discriminate].
  simpl.
  set (results := search_results svc qe (7 # 10) 3 st).
  assert (Hlen : (length results <= 3)%nat).
  { unfold results, search_results. rewrite reify_rows_length.
    apply (match_documents_length svc qe (7 # 10) 3). }
  assert (Habove : Forall (fun d => (7 # 10 < sr_similarity d)%Q) results).
  { assert (H : Forall (fun s => (7 # 10 < s)%Q) (sr_similarity <$> results)).
    { unfold results, search_results. rewrite reify_rows_similarity.
      apply Forall_fmap. apply match_documents_above. }
    rewrite Forall_fmap in H. exact H. }
  assert (Hdesc : descending results).
  { unfold descending, results, search_results.
    rewrite reify_rows_similarity. apply match_documents_sorted. }
  destruct results as [|d0 rest] eqn:Hresults.
  - unfold ret. intros [= <- <-]. exists st1. simpl.
    split; [done|]. split; [lia|]. split; [done|]. split; [done|]. done.
  - rewrite <- Hresults in *.
    destruct (agent_reply_run svc
                [ {| role := system;
                     content := build_sources_prompt results |};
                  {| role := user; content := query |} ] st1)
      as (c & _ & Hreply & Hfail).
    unfold aiAgentWithSystemPrompt. rewrite rethrow_id, Hreply.
    pose proof (agent_reply_nonempty c Hfail) as Hne.
    destruct (agent_reply c) as [text|e]; [|discriminate].
    unfold ret. intros [= <- <-]. exists st1. simpl.
    split; [done|]. split; [done|]. split; [done|]. split; [done|].
    split; [by rewrite Hresults|]. intros _. split; [done|].
    reflexivity.
Qed.
End SearchOutcomes.

(* ===================================================================== *)
(** ** The documents table *)
(* ===================================================================== *)

Section Table.
Variable svc : Services.

(** The two ways [addDocument] ends. *)
Lemma addDocument_cases content metadata st :
  exists r st',
    addDocument svc content metadata st = (Return r, st')
    /\ ((exists e,
            embed_outcome svc content = Return e
            /\ length e = EMBEDDING_DIM
            /\ store_fault svc = None
            /\ r = succeed
                     (new_row (next_uuid st) 0
                        {| doc_content := content;
                           doc_embedding := e;
                           doc_metadata := default [] metadata;
                           doc_created_at := S (clock st) |})
            /\ documents st'
               = documents st
                 ++ [new_row (next_uuid st) 0
                       {| doc_content := content;
                          doc_embedding := e;
                          doc_metadata := default [] metadata;
                          doc_created_at := S (clock st) |}]
            /\ next_uuid st' = S (next_uuid st))
        \/ (exists msg,
               r = fail msg /\ msg <> ""
               /\ documents st' = documents st
               /\ next_uuid st' = next_uuid st
               /\ ((exists e, embed_outcome svc content = Throw e)
                   \/ is_Some (store_fault svc)
                   \/ exists e, embed_outcome svc content = Return e
                                /\ length e <> EMBEDDING_DIM))).
Proof.
  unfold addDocument, try_catch, bind.
  rewrite createEmbedding_run.
  destruct (embed_outcome svc content) as [e|err] eqn:He.
  2:{ do 2 eexists. split; [reflexivity|]. right.
      eexists. split; [reflexivity|]. split; [by apply str_or_nonempty|].
      split; [done|]. split; [done|]. left. by eexists. }
  unfold now, store_insert_single, store_insert, store_call, bind, emit,
    tick, ret, throw; simpl.
  unfold store_fault.
  destruct (store_outage svc) as [err|] eqn:Hfault; simpl.
  { do 2 eexists. split; [reflexivity|]. right.
    eexists. split; [reflexivity|]. split; [by apply str_or_nonempty|].
    split; [done|]. split; [done|]. right. left. by eexists. }
  destruct (Nat.eqb (length e) EMBEDDING_DIM) eqn:Hdim; simpl.
  2:{ apply Nat.eqb_neq in Hdim.
      do 2 eexists. split; [reflexivity|]. right.
      eexists. split; [reflexivity|]. split; [by apply str_or_nonempty|].
      split; [done|]. split; [done|]. right. right. by exists e. }
  apply Nat.eqb_eq in Hdim.
  destruct (admitted svc) eqn:Hadmitted; simpl.
  - do 2 eexists. split; [reflexivity|]. left. exists e.
    split; [done|]. split; [done|]. split; [done|]. split; [done|].
    split; [done|]. simpl. lia.
  - do 2 eexists. split; [reflexivity|]. right.
    eexists. split; [reflexivity|]. split; [by apply str_or_nonempty|].
    split; [done|]. split; [done|]. right. left. by eexists.
Qed.

(** X6.  [addDocument] never throws.  Either it reports success and the
    table has grown by exactly one row at its end, with a fresh id, the
    content, the embedding of the content and the metadata (an empty
    object when none is given); or it reports a failure with a message
    that is not empty and the table is as it was. *)
Theorem addDocument_all_or_nothing content metadata st :
  exists r st',
    addDocument svc content metadata st = (Return r, st')
    /\ ((success r = true
         /\ exists row e,
             data r = Some row
             /\ documents st' = documents st ++ [row]
             /\ row_id row = next_uuid st
             /\ row_content row = content
             /\ row_metadata row = Some (default [] metadata)
             /\ row_embedding row = Some e
             /\ embed_outcome svc content = Return e
             /\ length e = EMBEDDING_DIM)
        \/ (success r = false
            /\ data r = None
            /\ (exists msg, error r = Some msg /\ msg <> "")
            /\ documents st' = documents st)).
Proof.
  destruct (addDocument_cases content metadata st)
    as (r & st' & Hrun & Hcases).
  exists r, st'. split; [done|].
  destruct Hcases as [(e & He & Hdim & _ & -> & Hdocs & _)
                     |(msg & -> & Hmsg & Hdocs & _)].
  - left. split; [done|]. do 2 eexists. split; [reflexivity|].
    split; [exact Hdocs|]. simpl. split; [apply Nat.add_0_r|]. by eauto 10.
  - right. split; [done|]. split; [done|]. split; [by eauto|done].
Qed.

(** X7.  [addKnowledgeDocument] never throws: it reports what
    [addDocument] reports, success or the very same error message, which
    is never empty; neither fallback message of [addKnowledgeDocument]
    is ever needed. *)
Theorem addKnowledgeDocument_reports content metadata st :
  exists r st',
    addDocument svc content metadata st = (Return r, st')
    /\ addKnowledgeDocument svc content metadata st
       = (Return {| ack_success := success r; ack_error := error r |}, st')
    /\ (success r = true -> error r = None)
    /\ (success r = false -> exists msg, error r = Some msg /\ msg <> "").
Proof.
  destruct (addDocument_cases content metadata st)
    as (r & st' & Hrun & Hcases).
  exists r, st'. split; [done|].
  unfold addKnowledgeDocument, try_catch, bind, ret, throw. rewrite Hrun.
  destruct Hcases as [(e & _ & _ & _ & -> & _)|(msg & -> & Hmsg & _)].
  - simpl. done.
  - simpl. rewrite !(str_or_id msg) by done. split; [done|].
    split; [discriminate|]. intros _. by exists msg.
Qed.
End Table.

(* ===================================================================== *)
(** ** What a search returns, and the life of a row *)
(* ===================================================================== *)

Lemma fmap_sublist_mono {A B} (f : A -> B) (l1 l2 : list A) :
  l1 `sublist_of` l2 -> f <$> l1 `sublist_of` f <$> l2.
Proof.
  induction 1; simpl; [constructor | by apply sublist_skip
                      | by apply sublist_cons].
Qed.

Lemma new_rows_ids base (batch : list DocRecord) :
  row_id <$> imap (new_row base) batch = seq base (length batch).
Proof.
  revert base. induction batch as [|d batch IH]; intros base; [done|].
  rewrite imap_cons. simpl. f_equal; [apply Nat.add_0_r|].
  rewrite <- IH. f_equal. apply imap_ext. intros i x _. simpl.
  unfold new_row. f_equal. lia.
Qed.

Lemma new_rows_embeddings base (batch : list DocRecord) :
  Forall (fun d => length (doc_embedding d) = EMBEDDING_DIM) batch ->
  Forall (fun r => exists e,
              row_embedding r = Some e /\ length e = EMBEDDING_DIM)
    (imap (new_row base) batch).
Proof.
  intros H. revert base.
  induction H as [|d batch Hd Hbatch IH]; intros base.
  { constructor. }
  rewrite imap_cons. constructor; [by eexists|].
  rewrite (imap_ext _ (new_row (S base))); [apply IH|].
  intros i x _. unfold new_row. simpl. f_equal. lia.
Qed.

(** Appending the rows of an accepted batch keeps the table in order. *)
Lemma table_ok_append st st' (batch : list DocRecord) :
  table_ok st ->
  Forall (fun d => length (doc_embedding d) = EMBEDDING_DIM) batch ->
  documents st' = documents st ++ imap (new_row (next_uuid st)) batch ->
  next_uuid st' = (next_uuid st + length batch)%nat ->
  table_ok st'.
Proof.
  intros (Hemb & Hids & Hnodup) Hbatch Hdocs Hnext.
  unfold table_ok. rewrite Hdocs, Hnext. split; [|split].
  - apply Forall_app. split; [done|]. by apply new_rows_embeddings.
  - apply Forall_app. split.
    + eapply Forall_impl; [exact Hids|]. intros r Hr. simpl in Hr. lia.
    + apply Forall_forall. intros r Hr.
      apply (list_elem_of_fmap_2 row_id) in Hr.
      rewrite new_rows_ids in Hr. apply elem_of_seq in Hr. lia.
  - rewrite fmap_app, new_rows_ids. apply NoDup_app.
    split; [done|]. split; [|apply NoDup_seq].
    intros x Hx Hx'. apply elem_of_seq in Hx'.
    apply list_elem_of_fmap in Hx as (r & -> & Hr).
    rewrite Forall_forall in Hids. specialize (Hids r Hr). lia.
Qed.

Lemma table_ok_same st st' :
  table_ok st ->
  documents st' = documents st ->
  next_uuid st' = next_uuid st ->
  table_ok st'.
Proof. unfold table_ok. by intros H -> ->. Qed.

Section Rows.
Variable svc : Services.

Lemma scan_sublist qe table : (scan svc qe table).*1 `sublist_of` table.
Proof.
  induction table as [|r table IH]; simpl; [done|].
  destruct (row_embedding r); simpl.
  - by apply sublist_skip.
  - by apply sublist_cons.
Qed.

Lemma elem_of_scan qe table r d :
  (r, d) ∈ scan svc qe table <->
  r ∈ table
  /\ exists e, row_embedding r = Some e /\ d = cosine_distance svc e qe.
Proof.
  unfold scan. rewrite list_elem_of_omap. split.
  - intros (r' & Hr' & H). destruct (row_embedding r') as [e|] eqn:He;
      [|done]. injection H as <- <-. split; [done|]. by exists e.
  - intros (Hr & e & He & ->). exists r. split; [done|]. by rewrite He.
Qed.

Lemma visible_sublist table : visible svc table `sublist_of` table.
Proof. unfold visible. destruct (admitted svc); [done|apply sublist_nil_l]. Qed.

(** The rows [match_documents] returns come from the table. *)
Lemma match_documents_sublist qe t k instant table :
  exists rows,
    match_documents svc qe t k instant table = select_row <$> rows
    /\ rows `sublist_of`
         arrange svc snd fst (Match qe t k) instant
           (filter (passing t) (scan svc qe table))
    /\ forall rd, rd ∈ rows -> rd ∈ scan svc qe table /\ passing t rd.
Proof.
  eexists. split; [reflexivity|]. split; [apply sublist_take|].
  intros rd Hrd.
  pose proof (elem_of_sublist _ _ _ Hrd
                (sublist_take
                   (arrange svc snd fst (Match qe t k) instant
                      (filter (passing t) (scan svc qe table)))
                   (Z.to_nat k))) as H.
  rewrite arrange_perm in H.
  apply list_elem_of_filter in H. tauto.
Qed.

Lemma reify_rows_ids ms n : sr_id <$> (reify_rows ms n).1 = m_id <$> ms.
Proof.
  pose proof (f_equal (fmap (fun p : uuid * string * number => p.1.1))
                (reify_rows_core ms n)) as H.
  by rewrite <- !list_fmap_compose in H.
Qed.

(** The results of a search are rows that the client sees. *)
Lemma searchDocuments_rows query options st r st' l :
  searchDocuments svc query options st = (Return r, st') ->
  data r = Some l ->
  exists qe,
    embed_outcome svc query = Return qe
    /\ (forall d, d ∈ l ->
          exists row e,
            row ∈ visible svc (documents st)
            /\ sr_id d = row_id row
            /\ sr_content d = row_content row
            /\ row_embedding row = Some e
            /\ sr_similarity d = (1 - cosine_distance svc e qe)%Q)
    /\ (NoDup (row_id <$> documents st) -> NoDup (sr_id <$> l)).
Proof.
  intros Hrun Hdata.
  destruct (searchDocuments_data _ _ _ _ _ _ _ Hrun Hdata)
    as (qe & Hqe & _ & _ & _ & -> & _ & _).
  exists qe. split; [done|].
  set (t := num_or _ _). set (k := int_or _ _).
  unfold search_results.
  destruct (match_documents_sublist qe t k (S (S (clock st)))
              (visible svc (documents st)))
    as (rows & Hrows & Hsub & Hin).
  split.
  - intros d Hd.
    apply (list_elem_of_fmap_2
             (fun d => (sr_id d, sr_content d, sr_similarity d))) in Hd.
    rewrite reify_rows_core, Hrows, <- list_fmap_compose in Hd.
    apply list_elem_of_fmap in Hd as ([row dist] & Heq & Hrd).
    simpl in Heq. injection Heq as Hid Hcontent Hsim.
    apply Hin in Hrd as [Hscan _].
    apply elem_of_scan in Hscan as (Hrow & e & He & ->).
    by exists row, e.
  - intros Hnodup. rewrite reify_rows_ids, Hrows, <- list_fmap_compose.
    eapply sublist_NoDup; [|apply fmap_sublist_mono, Hsub].
    rewrite arrange_perm.
    eapply sublist_NoDup; [|apply fmap_sublist_mono, sublist_filter].
    change (NoDup ((row_id ∘ fst)
                     <$> scan svc qe (visible svc (documents st)))).
    rewrite list_fmap_compose.
    eapply sublist_NoDup; [|apply fmap_sublist_mono, scan_sublist].
    eapply sublist_NoDup; [exact Hnodup|].
    apply fmap_sublist_mono, visible_sublist.
Qed.

(** X8.  Every result of a search is a stored row: it has the id and the
    content of a row of the table, and its similarity is one minus the
    distance between that row's embedding and the embedding of the
    query.  When the ids of the table are distinct, no row is returned
    twice. *)
Theorem searchDocuments_results_stored query options st r st' l :
  searchDocuments svc query options st = (Return r, st') ->
  data r = Some l ->
  exists qe,
    embed_outcome svc query = Return qe
    /\ (forall d, d ∈ l ->
          exists row e,
            row ∈ documents st
            /\ sr_id d = row_id row
            /\ sr_content d = row_content row
            /\ row_embedding row = Some e
            /\ sr_similarity d = (1 - cosine_distance svc e qe)%Q)
    /\ (NoDup (row_id <$> documents st) -> NoDup (sr_id <$> l)).
Proof.
  intros Hrun Hdata.
  destruct (searchDocuments_rows _ _ _ _ _ _ Hrun Hdata)
    as (qe & Hqe & Hrows & Hnodup).
  exists qe. split; [done|]. split; [|done].
  intros d Hd. destruct (Hrows d Hd) as (row & e & Hrow & Hrest).
  exists row, e. split; [|done].
  eapply elem_of_sublist; [exact Hrow|apply visible_sublist].
Qed.
End Rows.

Section Lifecycle.
Variable svc : Services.

(** The two ways [deleteDocument] ends. *)
Lemma deleteDocument_cases documentId st :
  exists ack st',
    deleteDocument svc documentId st = (Return ack, st')
    /\ next_uuid st' = next_uuid st
    /\ trace st' = trace st
    /\ ((store_outage svc = None
         /\ ack = {| ack_success := true; ack_error := None |}
         /\ documents st'
            = if admitted svc
              then filter (fun r => row_id r <> documentId) (documents st)
              else documents st)
        \/ (is_Some (store_outage svc)
            /\ ack_success ack = false
            /\ documents st' = documents st
            /\ exists msg, ack_error ack = Some msg /\ msg <> "")).
Proof.
  unfold deleteDocument, store_delete, store_quiet_call, try_catch, bind,
    tick, ret, throw.
  destruct (store_outage svc) as [e|]; simpl.
  - do 2 eexists. split; [reflexivity|]. split; [done|]. split; [done|].
    right. split; [by eauto|]. split; [done|]. split; [done|].
    eexists. split; [reflexivity|]. by apply str_or_nonempty.
  - do 2 eexists. split; [reflexivity|]. split; [done|]. split; [done|].
    by left.
Qed.




(** What [bulkAddDocuments] does to the table. *)
Lemma bulkAddDocuments_table order docs st o st' :
  bulkAddDocuments svc order docs st = Some (o, st') ->
  (documents st' = documents st /\ next_uuid st' = next_uuid st)
  \/ exists batch,
      Forall (fun d => length (doc_embedding d) = EMBEDDING_DIM) batch
      /\ documents st' = documents st ++ imap (new_row (next_uuid st)) batch
      /\ next_uuid st' = (next_uuid st + length batch)%nat.
Proof.
  unfold bulkAddDocuments.
  destruct (send_all_run docs st) as (st1 & -> & Hdocs1 & Huuid1 & _).
  unfold promise_all. rewrite length_fmap.
  destruct (promise_all_settle_positional svc docs order
              (replicate (length docs) None) st1)
    as (out & st2 & -> & Hstore & _).
  { split; [by rewrite length_replicate|].
    intros i record Hi. apply lookup_replicate in Hi as [Hi _]. done. }
  destruct Hstore as (Hdocs2 & Huuid2 & _ & _).
  destruct out as [values|e].
  2:{ unfold try_catch, bind, ret; simpl. intros [= <- <-]. left.
      split; congruence. }
  destruct (mapM id values) as [batch|]; [|discriminate].
  unfold try_catch, bind, store_insert, store_call, bind, emit, tick,
    ret, throw; simpl.
  destruct (store_outage svc) as [e|]; simpl.
  { intros [= <- <-]. left. simpl. split; congruence. }
  destruct (forallb _ batch) eqn:Hdims; simpl.
  2:{ intros [= <- <-]. left. simpl. split; congruence. }
  destruct (negb (admitted svc) && negb (Nat.eqb (length batch) 0)); simpl.
  { intros [= <- <-]. left. simpl. split; congruence. }
  intros [= <- <-]. right. exists batch. simpl.
  split; [|split; congruence].
  apply Forall_forall. intros d Hd.
  rewrite forallb_forall in Hdims.
  apply Nat.eqb_eq, Hdims. by apply list_elem_of_In.
Qed.

(** X10.  The operations keep the table in order: after [addDocument],
    [bulkAddDocuments] (whatever the order of completion),
    [deleteDocument] or [searchDocuments], every row still has an
    embedding of 1536 entries, and the ids are still distinct and older
    than the next one. *)
Theorem table_ok_preserved st :
  table_ok st ->
  (forall content metadata,
      table_ok (addDocument svc content metadata st).2)
  /\ (forall order docs o st',
         bulkAddDocuments svc order docs st = Some (o, st') -> table_ok st')
  /\ (forall documentId, table_ok (deleteDocument svc documentId st).2)
  /\ (forall query options, table_ok (searchDocuments svc query options st).2).
Proof.
  intros Hok. split; [|split; [|split]].
  - intros content metadata.
    destruct (addDocument_cases svc content metadata st)
      as (r & st' & -> & Hcases). simpl.
    destruct Hcases as [(e & _ & Hdim & _ & _ & Hdocs & Hnext)
                       |(msg & _ & _ & Hdocs & Hnext & _)].
    + apply (table_ok_append st st'
               [ {| doc_content := content; doc_embedding := e;
                    doc_metadata := default [] metadata;
                    doc_created_at := S (clock st) |} ]);
        [done|by repeat constructor|done|simpl; lia].
    + by apply (table_ok_same st).
  - intros order docs o st' Hrun.
    apply bulkAddDocuments_table in Hrun
      as [[Hdocs Hnext]|(batch & Hbatch & Hdocs & Hnext)].
    + by apply (table_ok_same st).
    + by apply (table_ok_append st st' batch).
  - intros documentId.
    destruct (deleteDocument_cases documentId st)
      as (ack & st' & -> & Hnext & _ & Hcases). simpl.
    destruct Hcases as [(_ & _ & Hdocs)|(_ & _ & Hdocs & _)];
      [|by apply (table_ok_same st)].
    destruct (admitted svc); [|by apply (table_ok_same st)].
    + destruct Hok as (Hemb & Hids & Hnodup).
      unfold table_ok. rewrite Hdocs, Hnext.
      pose proof (sublist_filter (fun r => row_id r <> documentId)
                    (documents st)) as Hsub.
      split; [|split].
      * apply Forall_forall. intros r Hr.
        rewrite Forall_forall in Hemb. apply Hemb.
        by eapply elem_of_sublist.
      * apply Forall_forall. intros r Hr.
        rewrite Forall_forall in Hids. apply Hids.
        by eapply elem_of_sublist.
      * eapply sublist_NoDup; [exact Hnodup|].
        by apply fmap_sublist_mono.
  - intros query options.
    destruct (searchDocuments_cases svc query options st)
      as (r & st' & -> & Hdocs & Hnext & _). simpl.
    by apply (table_ok_same st).
Qed.

End Lifecycle.

Lemma StronglySorted_weaken {A} (R1 R2 : A -> A -> Prop) l :
  (forall a b, R1 a b -> R2 a b) ->
  StronglySorted R1 l -> StronglySorted R2 l.
Proof.
  intros HR. induction 1 as [|x l Hl IH Hx]; constructor; [done|].
  eapply Forall_impl; [exact Hx|]. intros y. apply HR.
Qed.

Section RoundTrips.
Variable svc : Services.

(** X11.  After a successful [deleteDocument], a search on that table
    never returns the deleted id. *)
Theorem deleteDocument_then_search documentId st ack st1
    query options r st2 l :
  deleteDocument svc documentId st = (Return ack, st1) ->
  ack_success ack = true ->
  searchDocuments svc query options st1 = (Return r, st2) ->
  data r = Some l ->
  documentId ∉ (sr_id <$> l).
Proof.
  intros Hdelete Hack Hsearch Hdata Hin.
  destruct (deleteDocument_cases svc documentId st)
    as (ack' & st1' & Hrun & _ & _ & Hcases).
  rewrite Hdelete in Hrun. injection Hrun as <- <-.
  destruct Hcases as [(_ & _ & Hdocs)|(_ & Hfail & _)]; [|congruence].
  destruct (searchDocuments_rows svc _ _ _ _ _ _ Hsearch Hdata)
    as (qe & _ & Hrows & _).
  apply list_elem_of_fmap in Hin as (d & -> & Hd).
  destruct (Hrows d Hd) as (row & e & Hrow & Hid & _).
  unfold visible in Hrow. rewrite Hdocs in Hrow.
  destruct (admitted svc); [|by apply elem_of_nil in Hrow].
  apply list_elem_of_filter in Hrow as [Hne _].
  by apply Hne.
Qed.

(** X12.  After a successful [addDocument], a search for the same text
    with a threshold in force below the similarity of the new embedding
    to itself finds it: with a limit of at least one the list is not
    empty and its first result is at least that similar, and with a
    limit of at least the size of the table the new row is in the list. *)
Theorem addDocument_then_search content metadata st r st1 row e
    options r2 st2 l :
  let t := num_or (options ≫= threshold) SIMILARITY_THRESHOLD in
  let k := int_or (options ≫= maxResults) MAX_RESULTS in
  addDocument svc content metadata st = (Return r, st1) ->
  data r = Some row ->
  row_embedding row = Some e ->
  (t < 1 - cosine_distance svc e e)%Q ->
  searchDocuments svc content options st1 = (Return r2, st2) ->
  data r2 = Some l ->
  ((1 <= k)%Z ->
   exists d rest,
     l = d :: rest
     /\ (1 - cosine_distance svc e e <= sr_similarity d)%Q)
  /\ ((Z.of_nat (length (documents st1)) <= k)%Z ->
      row_id row ∈ sr_id <$> l).
Proof.
  intros t k Hadd Hrow He Hself Hsearch Hdata.
  destruct (addDocument_cases svc content metadata st)
    as (r' & st1' & Hrun & Hcases).
  rewrite Hadd in Hrun. injection Hrun as <- <-.
  destruct Hcases as [(e' & He' & _ & Hfault & -> & Hdocs & _)
                     |(msg & -> & _)]; [|discriminate Hrow].
  injection Hrow as <-. simpl in He. injection He as ->.
  assert (Hvisible : visible svc (documents st1) = documents st1).
  { unfold store_fault in Hfault. unfold visible.
    destruct (store_outage svc); [done|]. by destruct (admitted svc). }
  destruct (searchDocuments_data _ _ _ _ _ _ _ Hsearch Hdata)
    as (qe & Hqe & _ & Hk & _ & -> & _ & _).
  assert (qe = e) as -> by congruence.
  fold t k in Hk |- *. unfold search_results. rewrite Hvisible.
  set (row := new_row (next_uuid st) 0
                {| doc_content := content; doc_embedding := e;
                   doc_metadata := default [] metadata;
                   doc_created_at := S (clock st) |}) in *.
  set (sorted := arrange svc snd fst (Match e t k) (S (S (clock st1)))
                   (filter (passing t) (scan svc e (documents st1)))).
  assert (Hin : (row, cosine_distance svc e e) ∈ sorted).
  { unfold sorted. rewrite arrange_perm.
    apply list_elem_of_filter. split.
    - unfold passing. simpl. by apply Qgtb_lt.
    - apply elem_of_scan. split.
      + rewrite Hdocs. apply elem_of_app. right. apply list_elem_of_here.
      + by exists e. }
  assert (Hsorted : StronglySorted (fun a b : Row * number => (a.2 <= b.2)%Q)
                      sorted) by apply arrange_sorted.
  split.
  - intros Hone.
    assert (Hsim : sr_similarity
                     <$> (reify_rows
                            (match_documents svc e t k (S (S (clock st1)))
                               (documents st1))
                            (next_ref st1)).1
                   = (fun rd : Row * number => (1 - rd.2)%Q)
                       <$> take (Z.to_nat k) sorted).
    { rewrite reify_rows_similarity. unfold match_documents.
      by rewrite <- list_fmap_compose. }
    destruct (reify_rows _ _).1 as [|d rest].
    { exfalso. destruct sorted as [|x xs]; [by apply elem_of_nil in Hin|].
      destruct (Z.to_nat k) eqn:Hkn; [lia|]. discriminate Hsim. }
    exists d, rest. split; [done|].
    destruct sorted as [|x xs]; [by apply elem_of_nil in Hin|].
    destruct (Z.to_nat k) eqn:Hkn; [lia|].
    simpl in Hsim. injection Hsim as -> _.
    apply StronglySorted_cons in Hsorted as [Hx _].
    apply elem_of_cons in Hin as [<-|Hin]; [simpl; lra|].
    rewrite Forall_forall in Hx. specialize (Hx _ Hin). simpl in Hx. lra.
  - intros Hall. rewrite reify_rows_ids. unfold match_documents.
    rewrite take_ge.
    + rewrite <- list_fmap_compose.
      apply (list_elem_of_fmap_2 (m_id ∘ select_row)) in Hin. exact Hin.
    + fold sorted. unfold sorted. rewrite arrange_perm.
      pose proof (sublist_length _ _
                    (sublist_filter (passing t)
                       (scan svc e (documents st1)))) as H1.
      pose proof (sublist_length _ _ (scan_sublist svc e (documents st1)))
        as H2.
      rewrite length_fmap in H2. lia.
Qed.

(** X13.  [getAllDocuments] never throws and changes neither the table
    nor the trace, and it reports success exactly when the store is
    reached.  What it then lists are rows of the table, each at most as
    often as the table has it, the most recent first, and no more of
    them than the row limit of the deployment when there is one.  For a
    client that the policies do not admit the list is empty, although
    the result is a success.  For a client they admit, and a table
    within the row limit, every row is listed exactly once.  When the
    store is out of reach the result is a failure without data and with
    a message that is not empty. *)
Theorem getAllDocuments_lists st :
  exists r st',
    getAllDocuments svc st = (Return r, st')
    /\ documents st' = documents st
    /\ trace st' = trace st
    /\ (success r = true <-> store_outage svc = None)
    /\ (store_outage svc = None ->
        exists rows,
          r = succeed rows
          /\ rows ⊆+ documents st
          /\ StronglySorted
               (fun a b => (row_created_at b <= row_created_at a)%nat) rows
          /\ (forall cap, max_rows svc = Some cap -> (length rows <= cap)%nat)
          /\ (admitted svc = false -> rows = [])
          /\ (admitted svc = true ->
              (forall cap, max_rows svc = Some cap ->
                           (length (documents st) <= cap)%nat) ->
              rows ≡ₚ documents st))
    /\ (is_Some (store_outage svc) ->
        success r = false /\ data r = None
        /\ exists msg, error r = Some msg /\ msg <> "").
Proof.
  unfold getAllDocuments, store_select_all, store_quiet_call, try_catch,
    bind, tick, ret, throw.
  destruct (store_outage svc) as [e|]; simpl.
  - do 2 eexists. split; [reflexivity|]. split; [done|]. split; [done|].
    split; [done|]. split; [done|]. intros _. split; [done|].
    split; [done|]. eexists. split; [reflexivity|].
    by apply str_or_nonempty.
  - do 2 eexists. split; [reflexivity|]. split; [done|]. split; [done|].
    split; [done|]. split; [|by intros [? ?]].
    intros _. eexists. split; [reflexivity|].
    set (key := fun r : Row => (- inject_Z (Z.of_nat (row_created_at r)))%Q).
    set (listed := arrange svc key id Listing _
                     (visible svc (documents st))).
    assert (Hperm : listed ≡ₚ visible svc (documents st))
      by apply arrange_perm.
    assert (Hsorted : StronglySorted
                        (fun a b => (row_created_at b <= row_created_at a)%nat)
                        listed).
    { eapply StronglySorted_weaken; [|apply (arrange_sorted svc key)].
      intros a b Hab. unfold key, Qle in Hab. simpl in Hab. lia. }
    assert (Hcapped : capped svc listed `sublist_of` listed).
    { unfold capped. destruct (max_rows svc); [apply sublist_take|done]. }
    split; [|split; [|split; [|split]]].
    + transitivity listed; [by apply sublist_submseteq|].
      transitivity (visible svc (documents st));
        [by apply Permutation_submseteq|].
      apply sublist_submseteq, visible_sublist.
    + by eapply StronglySorted_sublist.
    + intros cap Hcap. unfold capped. rewrite Hcap, length_take. lia.
    + intros Hanon. unfold visible in Hperm. rewrite Hanon in Hperm.
      apply Permutation_nil_r in Hperm. rewrite Hperm in Hcapped.
      apply sublist_nil_r in Hcapped. by rewrite Hperm.
    + intros Hadmitted Hroom. unfold visible in Hperm.
      rewrite Hadmitted in Hperm. rewrite <- Hperm.
      unfold capped. destruct (max_rows svc) as [cap|]; [|done].
      rewrite take_ge; [done|]. rewrite Hperm. by apply Hroom.
Qed.

(** X14.  Without a filter map [hybridSearch] returns the results of its
    search as they are; with an empty filter map it returns those of
    them that have a metadata object, and drops the others. *)
Theorem hybridSearch_no_filters query st r st1 base :
  searchDocuments svc query (Some HYBRID_OPTIONS) st = (Return r, st1) ->
  success r = true ->
  data r = Some base ->
  hybridSearch svc query None st = (Return base, st1)
  /\ exists l,
      hybridSearch svc query (Some []) st = (Return l, st1)
      /\ l `sublist_of` base
      /\ forall d, d ∈ l <-> d ∈ base /\ sr_metadata d <> None.
Proof.
  intros Hrun Hsuccess Hdata.
  unfold hybridSearch, hybridSearch_over, try_catch, bind, ret.
  rewrite Hrun, Hsuccess, Hdata. split; [done|].
  eexists. split; [reflexivity|]. split.
  - clear. induction base as [|d base IH]; simpl; [done|].
    destruct (matches_filters [] d).
    + by apply sublist_skip.
    + by apply sublist_cons.
  - intros d. rewrite list_elem_of_In, List.filter_In, <- list_elem_of_In.
    unfold matches_filters. destruct (sr_metadata d); simpl.
    + split; [by intros [? _]|by intros [? _]].
    + split; [by intros [_ ?]|by intros [_ ?]].
Qed.
End RoundTrips.

(* ===================================================================== *)
(** ** Streamed completions *)
(* ===================================================================== *)

Section StreamClaims.
Context {T : Type}.
Variable stream_create :
  string -> list Message -> number -> ApiResult ChatStream.
Variable onChunk : string -> T -> Outcome unit * T.

Lemma string_app_assoc' (s t u : string) : (s +:+ t) +:+ u = s +:+ t +:+ u.
Proof. symmetry. apply string_app_assoc. Qed.

(** The loop with a callback that does not throw. *)
Lemma consume_quiet chunks fullResponse s :
  (forall part s, exists s', onChunk part s = (Return tt, s')) ->
  consume onChunk chunks fullResponse s
  = (Return (fullResponse +:+ concat_all (contents chunks)),
     run_callbacks onChunk (contents chunks) s).
Proof.
  intros Hquiet. revert fullResponse s.
  induction chunks as [|chunk chunks IH]; intros fullResponse s; simpl.
  { unfold concat_all, contents. simpl. by rewrite string_app_nil_r. }
  unfold contents. simpl. fold (contents chunks).
  destruct (String.eqb (opt_str_or chunk "") "") eqn:Hempty; simpl.
  - apply IH.
  - destruct (Hquiet (opt_str_or chunk "") s) as [s' Hs'].
    rewrite Hs'. rewrite IH. simpl.
    unfold concat_all. simpl. by rewrite string_app_assoc'.
Qed.

Lemma contents_nonempty chunks : Forall (fun part => part <> "") (contents chunks).
Proof.
  unfold contents. apply Forall_forall. intros part Hpart.
  apply list_elem_of_In, List.filter_In in Hpart as [_ Hne].
  apply negb_true_iff in Hne. by apply String.eqb_neq in Hne.
Qed.

(** X15.  When the stream runs to its end and the callback does not
    throw, [streamChatCompletion] reports success with the concatenation
    of the chunks that are not empty, and the callback has been called
    once on each of them, in the order of the stream, and never on an
    empty text. *)
Theorem streamChatCompletion_complete messages options s stream :
  let model := opt_str_or (options ≫= so_model) DEFAULT_MODEL in
  let temperature := num_or (options ≫= so_temperature) (7 # 10) in
  (forall part s, exists s', onChunk part s = (Return tt, s')) ->
  stream_create model messages temperature = Resolved stream ->
  stream_failure stream = None ->
  streamChatCompletion stream_create messages onChunk options s
  = (Return (succeed (concat_all (contents (stream_chunks stream)))),
     run_callbacks onChunk (contents (stream_chunks stream)) s)
  /\ Forall (fun part => part <> "") (contents (stream_chunks stream)).
Proof.
  intros model temperature Hquiet Hcreate Hend.
  split; [|apply contents_nonempty].
  unfold streamChatCompletion. fold model temperature.
  rewrite Hcreate, consume_quiet by done. by rewrite Hend.
Qed.

(** X16.  When the stream breaks after some chunks, the callback has
    already been called on every chunk that arrived, yet the result is a
    failure without any text: the partial response is dropped. *)
Theorem streamChatCompletion_broken messages options s stream e :
  let model := opt_str_or (options ≫= so_model) DEFAULT_MODEL in
  let temperature := num_or (options ≫= so_temperature) (7 # 10) in
  (forall part s, exists s', onChunk part s = (Return tt, s')) ->
  stream_create model messages temperature = Resolved stream ->
  stream_failure stream = Some e ->
  exists r,
    streamChatCompletion stream_create messages onChunk options s
    = (Return r, run_callbacks onChunk (contents (stream_chunks stream)) s)
    /\ success r = false
    /\ data r = None
    /\ error r = Some (str_or (message e) "Failed to stream response").
Proof.
  intros model temperature Hquiet Hcreate Hend.
  unfold streamChatCompletion. fold model temperature.
  rewrite Hcreate, consume_quiet by done. rewrite Hend.
  by eexists.
Qed.

(** X17.  [streamChatCompletion] never throws, whatever the provider and
    the callback do, and [aiAgentStream] drops its result: it returns
    normally even when the stream could not be opened, broke or the
    callback threw. *)
Theorem aiAgentStream_never_throws messages options input s :
  (exists r s',
      streamChatCompletion stream_create messages onChunk options s
      = (Return r, s'))
  /\ exists s', aiAgentStream stream_create input onChunk s = (Return tt, s').
Proof.
  assert (Hstream : forall messages options,
             exists r s',
               streamChatCompletion stream_create messages onChunk options s
               = (Return r, s')).
  { intros ms os. unfold streamChatCompletion.
    destruct (stream_create _ _ _) as [stream|e]; [|by eauto].
    destruct (consume _ _ _ _) as [[text|e] s']; [|by eauto].
    destruct (stream_failure stream); by eauto. }
  split; [apply Hstream|].
  unfold aiAgentStream.
  destruct (Hstream
              [ {| role := system; content := ASSISTANT_PROMPT |};
                {| role := user; content := input |} ] None)
    as (r & s' & ->). by eauto.
Qed.
End StreamClaims.

(* ===================================================================== *)
(** ** Prompt templates *)
(* ===================================================================== *)

Lemma prefix_app_self (p t : string) : String.prefix p (p +:+ t) = true.
Proof.
  induction p as [|c p IH]; [by destruct t|].
  rewrite string_app_cons. simpl.
  destruct (ascii_dec c c); [exact IH|done].
Qed.

Lemma string_drop_app (p t : string) :
  string_drop (String.length p) (p +:+ t) = t.
Proof.
  induction p as [|c p IH]; [by destruct t|].
  rewrite string_app_cons. simpl. exact IH.
Qed.

Lemma free_of_app c (s t : string) :
  free_of c (s +:+ t) = free_of c s && free_of c t.
Proof.
  induction s as [|d s IH]; [done|].
  rewrite string_app_cons. simpl. rewrite IH. by rewrite andb_assoc.
Qed.

Lemma expand_plain value matched before after :
  free_of "$" value = true -> expand value matched before after = value.
Proof.
  induction value as [|c value IH]; [done|]. simpl.
  intros H. apply andb_true_iff in H as [Hc Hvalue].
  apply negb_true_iff in Hc. rewrite Hc. by rewrite IH.
Qed.

Lemma expand_app plain rest matched before after :
  free_of "$" plain = true ->
  expand (plain +:+ rest) matched before after
  = plain +:+ expand rest matched before after.
Proof.
  induction plain as [|c plain IH]; [done|].
  intros H. simpl in H. apply andb_true_iff in H as [Hc Hplain].
  apply negb_true_iff in Hc. rewrite !string_app_cons. simpl.
  rewrite Hc. by rewrite IH.
Qed.

Lemma prefix_cons_ne c d (p s : string) :
  c <> d -> String.prefix (String c p) (String d s) = false.
Proof. intros Hne. simpl. by destruct (ascii_dec c d). Qed.

Lemma replace_from_here pattern replacement before c rest :
  replace_from pattern replacement before (String c rest) 0
  = if String.prefix pattern (String c rest)
    then
      expand replacement pattern before
        (string_drop (String.length pattern) (String c rest))
      +:+ replace_from pattern replacement (before +:+ String c "") rest
            (String.length pattern - 1)
    else
      String c
        (replace_from pattern replacement (before +:+ String c "") rest 0).
Proof. reflexivity. Qed.

Lemma replace_from_next pattern replacement before c rest k :
  replace_from pattern replacement before (String c rest) (S k)
  = replace_from pattern replacement (before +:+ String c "") rest k.
Proof. reflexivity. Qed.

Section Replace.
Variables (name replacement : string).

Let pattern : string := String "{" (name +:+ "}").

(** Text without an opening brace is copied. *)
Lemma replace_from_plain plain rest before :
  free_of "{" plain = true ->
  replace_from pattern replacement before (plain +:+ rest) 0
  = plain +:+ replace_from pattern replacement (before +:+ plain) rest 0.
Proof.
  revert before. induction plain as [|c plain IH]; intros before Hfree.
  { by rewrite string_app_nil_r. }
  simpl in Hfree. apply andb_true_iff in Hfree as [Hc Hplain].
  apply negb_true_iff, Ascii.eqb_neq in Hc.
  rewrite !string_app_cons, replace_from_here.
  unfold pattern at 1. rewrite prefix_cons_ne by done.
  rewrite IH by done. do 3 f_equal.
  rewrite string_app_assoc'. by rewrite string_app_cons.
Qed.

Lemma replace_from_skip skipped rest before :
  replace_from pattern replacement before (skipped +:+ rest)
    (String.length skipped)
  = replace_from pattern replacement (before +:+ skipped) rest 0.
Proof.
  revert before. induction skipped as [|c skipped IH]; intros before.
  { by rewrite string_app_nil_r. }
  rewrite string_app_cons.
  change (String.length (String c skipped)) with (S (String.length skipped)).
  rewrite replace_from_next, IH.
  f_equal. rewrite string_app_assoc'. by rewrite string_app_cons.
Qed.

(** At an occurrence of the placeholder the expansion is written and
    the scan goes on after it. *)
Lemma replace_from_match rest before :
  replace_from pattern replacement before (pattern +:+ rest) 0
  = expand replacement pattern before rest
    +:+ replace_from pattern replacement (before +:+ pattern) rest 0.
Proof.
  pose proof (prefix_app_self pattern rest) as Hprefix.
  pose proof (string_drop_app pattern rest) as Hdrop.
  assert (Hshape : pattern +:+ rest = String "{" ((name +:+ "}") +:+ rest))
    by (unfold pattern; by rewrite string_app_cons).
  rewrite Hshape in *. rewrite replace_from_here, Hprefix, Hdrop.
  f_equal.
  change (String.length pattern - 1)%nat
    with (String.length (name +:+ "}") - 0)%nat.
  rewrite Nat.sub_0_r, replace_from_skip.
  f_equal. rewrite string_app_assoc'. by rewrite string_app_cons.
Qed.

Lemma replace_from_end plain before :
  free_of "{" plain = true ->
  replace_from pattern replacement before plain 0 = plain.
Proof.
  intros Hfree.
  rewrite <- (string_app_nil_r plain) at 1.
  rewrite replace_from_plain by done. apply string_app_nil_r.
Qed.

(** One placeholder between two texts without braces. *)
Lemma replace_all_frame head tail :
  free_of "{" head = true ->
  free_of "{" tail = true ->
  replace_all pattern replacement (head +:+ pattern +:+ tail)
  = head +:+ expand replacement pattern head tail +:+ tail.
Proof.
  intros Hhead Htail. unfold replace_all.
  rewrite replace_from_plain by done.
  rewrite replace_from_match, replace_from_end by done. done.
Qed.
End Replace.

Lemma substitute_returns names (variables : gmap string string) p :
  (exists q, substitute names variables p = Return q)
  <-> Forall (fun v => is_Some (variables !! v)) names.
Proof.
  revert p. induction names as [|v names IH]; intros p; simpl.
  { split; [by constructor|by eauto]. }
  destruct (variables !! v) as [value|] eqn:Hv.
  - rewrite IH. split.
    + intros H. constructor; [by eauto|done].
    + by inversion 1.
  - split.
    + by intros [q Hq].
    + inversion 1 as [|? ? [? ?]]; simplify_eq.
Qed.

Lemma substitute_missing present v rest (variables : gmap string string) p :
  Forall (fun v => is_Some (variables !! v)) present ->
  variables !! v = None ->
  substitute (present ++ v :: rest) variables p
  = Throw (Error ("Missing variable: " +:+ v)).
Proof.
  intros Hpresent Hv. revert p.
  induction Hpresent as [|w present [value Hw] _ IH]; intros p; simpl.
  - by rewrite Hv.
  - rewrite Hw. apply IH.
Qed.

Lemma template_lookup_own name t :
  (name, t) ∈ promptTemplates -> template_lookup name = OwnProperty t.
Proof.
  unfold promptTemplates. rewrite !elem_of_cons, elem_of_nil.
  intros [H|[H|[H|[H|[H|[H|[]]]]]]]; by inversion H.
Qed.

Lemma template_lookup_cases name :
  match template_lookup name with
  | OwnProperty t => (name, t) ∈ promptTemplates
  | InheritedProperty =>
      (name ∉ promptTemplates.*1) /\ name ∈ OBJECT_PROTOTYPE_KEYS
  | NoProperty =>
      (name ∉ promptTemplates.*1) /\ name ∉ OBJECT_PROTOTYPE_KEYS
  end.
Proof.
  unfold template_lookup.
  destruct (List.find _ promptTemplates) as [[key t]|] eqn:Hfind.
  - apply find_some in Hfind as [Hin Heq]. simpl in *.
    apply String.eqb_eq in Heq as ->. by apply list_elem_of_In.
  - assert (Hout : name ∉ promptTemplates.*1).
    { intros Hin. apply list_elem_of_fmap in Hin as ([key t] & -> & Hin).
      apply list_elem_of_In in Hin.
      pose proof (find_none _ _ Hfind _ Hin) as Hne. simpl in Hne.
      by rewrite String.eqb_refl in Hne. }
    destruct (existsb _ _) eqn:Hproto.
    + split; [done|]. apply existsb_exists in Hproto as (key & Hin & Heq).
      apply String.eqb_eq in Heq as ->. by apply list_elem_of_In.
    + split; [done|]. intros Hin. apply list_elem_of_In in Hin.
      assert (existsb (String.eqb name) OBJECT_PROTOTYPE_KEYS = true) as Hyes.
      { apply existsb_exists. exists name. split; [done|]. apply String.eqb_refl. }
      congruence.
Qed.

Lemma replace_from_miss pattern replacement before c rest :
  String.prefix pattern (String c rest) = false ->
  replace_from pattern replacement before (String c rest) 0
  = String c (replace_from pattern replacement (before +:+ String c "") rest 0).
Proof. intros Hmiss. by rewrite replace_from_here, Hmiss. Qed.

Lemma replace_from_join name replacement segments tail before :
  Forall (fun s => free_of "{" s = true) segments ->
  free_of "{" tail = true ->
  free_of "$" replacement = true ->
  replace_from (String "{" (name +:+ "}")) replacement before
    (join (String "{" (name +:+ "}")) segments +:+ tail) 0
  = join replacement segments +:+ tail.
Proof.
  intros Hsegments Htail Hplain. revert before.
  induction Hsegments as [|s segments Hs Hsegments IH]; intros before.
  { simpl. by apply replace_from_end. }
  destruct segments as [|s' segments].
  { simpl. rewrite replace_from_plain by done.
    by rewrite replace_from_end. }
  rewrite !join_cons, <- !string_app_assoc.
  rewrite replace_from_plain by done.
  rewrite replace_from_match, expand_plain by done.
  by rewrite IH.
Qed.

Ltac framed Hrun head tail :=
  exists head, tail; split;
  [ reflexivity
  | intros variables value Hvalue; rewrite (Hrun _ _ Hvalue);
    apply (f_equal Return);
    exact (replace_all_frame _ _ head tail eq_refl eq_refl) ].

Lemma free_of_join c sep segments :
  free_of c sep = true ->
  Forall (fun s => free_of c s = true) segments ->
  free_of c (join sep segments) = true.
Proof.
  intros Hsep. induction 1 as [|s segments Hs Hsegments IH]; [done|].
  destruct segments as [|s' segments]; [done|].
  rewrite join_cons, !free_of_app, Hs, Hsep. exact IH.
Qed.

(** The first replacement of the translation template: the placeholder
    of the language starts like the one of the text and is passed
    over. *)
Lemma translate_text text :
  free_of "$" text = true ->
  replace_all ("{" +:+ "text" +:+ "}") text
    ("Translate the following text to {language}:" +:+ LF +:+ LF
     +:+ "{text}" +:+ LF +:+ LF +:+ "Translation:")
  = "Translate the following text to " +:+ "{language}" +:+ ":" +:+ LF
    +:+ LF +:+ text +:+ LF +:+ LF +:+ "Translation:".
Proof.
  intros Hplain. unfold replace_all.
  change (replace_from (String "{" ("text" +:+ "}")) text ""
            ("Translate the following text to "
             +:+ String "{"
                   (("language}:" +:+ LF +:+ LF)
                    +:+ String "{" ("text" +:+ "}")
                    +:+ LF +:+ LF +:+ "Translation:")) 0
          = "Translate the following text to "
            +:+ String "{"
                  (("language}:" +:+ LF +:+ LF)
                   +:+ text +:+ LF +:+ LF +:+ "Translation:")).
  rewrite (replace_from_plain "text") by reflexivity.
  rewrite replace_from_miss by reflexivity.
  rewrite (replace_from_plain "text") by reflexivity.
  rewrite (replace_from_match "text"), expand_plain by done.
  by rewrite (replace_from_end "text") by reflexivity.
Qed.

(** The second replacement reads the whole prompt, the text included. *)
Lemma translate_language language segments :
  free_of "$" language = true ->
  Forall (fun s => free_of "{" s = true) segments ->
  replace_all ("{" +:+ "language" +:+ "}") language
    ("Translate the following text to " +:+ "{language}" +:+ ":" +:+ LF
     +:+ LF +:+ join "{language}" segments +:+ LF +:+ LF
     +:+ "Translation:")
  = "Translate the following text to " +:+ language +:+ ":" +:+ LF +:+ LF
    +:+ join language segments +:+ LF +:+ LF +:+ "Translation:".
Proof.
  intros Hplain Hbraces. unfold replace_all.
  change (replace_from (String "{" ("language" +:+ "}")) language ""
            ("Translate the following text to "
             +:+ String "{" ("language" +:+ "}")
             +:+ (":" +:+ LF +:+ LF)
             +:+ join (String "{" ("language" +:+ "}")) segments
             +:+ LF +:+ LF +:+ "Translation:") 0
          = "Translate the following text to " +:+ language
            +:+ (":" +:+ LF +:+ LF)
            +:+ join language segments +:+ LF +:+ LF +:+ "Translation:").
  rewrite (replace_from_plain "language") by reflexivity.
  rewrite (replace_from_match "language"), expand_plain by done.
  rewrite (replace_from_plain "language") by reflexivity.
  by rewrite (replace_from_join "language") by done.
Qed.

Section PromptClaims.
Variable svc : Services.

Lemma formatPrompt_single name t v :
  (name, t) ∈ promptTemplates ->
  pt_variables t = [v] ->
  exists head tail,
    pt_template t = head +:+ "{" +:+ v +:+ "}" +:+ tail
    /\ forall (variables : gmap string string) value,
         variables !! v = Some value ->
         formatPrompt name variables
         = Return (head +:+ expand value ("{" +:+ v +:+ "}") head tail
                   +:+ tail).
Proof.
  intros Hin Hv.
  assert (Hrun : forall (variables : gmap string string) value,
             variables !! v = Some value ->
             formatPrompt name variables
             = Return (replace_all ("{" +:+ v +:+ "}") value
                         (pt_template t))).
  { intros variables value Hvalue. unfold formatPrompt.
    rewrite (template_lookup_own _ _ Hin), Hv. simpl. by rewrite Hvalue. }
  revert Hin Hv Hrun. unfold promptTemplates.
  rewrite !elem_of_cons, elem_of_nil.
  intros [H|[H|[H|[H|[H|[H|[]]]]]]] Hv Hrun; inversion H; subst; clear H;
    simpl in Hv; inversion Hv; subst; clear Hv.
  - framed Hrun ("Summarize the following text in a concise manner:" +:+ LF +:+ LF)
      (LF +:+ LF +:+ "Summary:").
  - framed Hrun ("Analyze the following content and provide key insights:"
            +:+ LF +:+ LF)
      (LF +:+ LF +:+ "Analysis:").
  - framed Hrun ("Review the following code and provide feedback on:" +:+ LF
            +:+ "1. Code quality" +:+ LF +:+ "2. Best practices" +:+ LF
            +:+ "3. Potential improvements" +:+ LF +:+ LF +:+ "Code:" +:+ LF)
      (LF +:+ LF +:+ "Review:").
  - framed Hrun ("Generate creative ideas for the following topic:" +:+ LF +:+ LF)
      (LF +:+ LF +:+ "Provide at least 5 innovative ideas.").
  - framed Hrun ("Explain the following concept in simple terms that a beginner can understand:"
            +:+ LF +:+ LF)
      (LF +:+ LF +:+ "Explanation:").
Qed.

(** X18.  [formatPrompt] returns a prompt exactly for the six built-in
    templates when the caller gives every variable of the template. *)
Theorem formatPrompt_returns_iff name (variables : gmap string string) :
  (exists prompt, formatPrompt name variables = Return prompt)
  <-> exists t,
        (name, t) ∈ promptTemplates
        /\ Forall (fun v => is_Some (variables !! v)) (pt_variables t).
Proof.
  split.
  - intros [prompt Hrun]. unfold formatPrompt in Hrun.
    pose proof (template_lookup_cases name) as Hcases.
    destruct (template_lookup name) as [t| |]; [|done..].
    exists t. split; [done|]. apply (proj1 (substitute_returns _ _ (pt_template t))). by eauto.
  - intros (t & Hin & Hall). unfold formatPrompt.
    rewrite (template_lookup_own _ _ Hin).
    by apply (proj2 (substitute_returns _ _ _)).
Qed.


(** X20.  When the caller leaves out a variable of a built-in template,
    [formatPrompt] throws and names the first variable, in the order of
    the template's list, that is missing. *)
Theorem formatPrompt_missing_variable name t present v rest
    (variables : gmap string string) :
  (name, t) ∈ promptTemplates ->
  pt_variables t = present ++ v :: rest ->
  Forall (fun w => is_Some (variables !! w)) present ->
  variables !! v = None ->
  formatPrompt name variables = Throw (Error ("Missing variable: " +:+ v)).
Proof.
  intros Hin Hvars Hpresent Hv. unfold formatPrompt.
  rewrite (template_lookup_own _ _ Hin), Hvars.
  by apply substitute_missing.
Qed.

(** X21.  For a template of one variable, a value without a dollar sign
    is put in the place of the placeholder and the rest of the template
    is kept; braces in the value are not read again. *)
Theorem formatPrompt_verbatim name t v (variables : gmap string string)
    value :
  (name, t) ∈ promptTemplates ->
  pt_variables t = [v] ->
  variables !! v = Some value ->
  free_of "$" value = true ->
  exists head tail,
    pt_template t = head +:+ "{" +:+ v +:+ "}" +:+ tail
    /\ formatPrompt name variables = Return (head +:+ value +:+ tail).
Proof.
  intros Hin Hv Hvalue Hplain.
  destruct (formatPrompt_single name t v Hin Hv)
    as (head & tail & Htemplate & Hrun).
  exists head, tail. split; [done|].
  by rewrite (Hrun _ _ Hvalue), expand_plain.
Qed.

(** X22.  The value is read as a replacement pattern of
    [String.prototype.replace]: in a template of one variable, [$&] in
    the value brings the placeholder back and [$$] leaves one dollar
    sign. *)
Theorem formatPrompt_dollar_patterns name t v
    (variables : gmap string string) a b :
  (name, t) ∈ promptTemplates ->
  pt_variables t = [v] ->
  free_of "$" a = true ->
  free_of "$" b = true ->
  exists head tail,
    pt_template t = head +:+ "{" +:+ v +:+ "}" +:+ tail
    /\ (variables !! v = Some (a +:+ "$&" +:+ b) ->
        formatPrompt name variables
        = Return (head +:+ (a +:+ "{" +:+ v +:+ "}" +:+ b) +:+ tail))
    /\ (variables !! v = Some (a +:+ "$$" +:+ b) ->
        formatPrompt name variables
        = Return (head +:+ (a +:+ "$" +:+ b) +:+ tail)).
Proof.
  intros Hin Hv Ha Hb.
  destruct (formatPrompt_single name t v Hin Hv)
    as (head & tail & Htemplate & Hrun).
  exists head, tail. split; [done|]. split; intros Hvalue.
  - rewrite (Hrun _ _ Hvalue), expand_app by done.
    change (expand ("$&" +:+ b) ?m ?x ?y) with (m +:+ expand b m x y).
    rewrite expand_plain by done. by rewrite !string_app_assoc'.
  - rewrite (Hrun _ _ Hvalue), expand_app by done.
    change (expand ("$$" +:+ b) ?m ?x ?y) with ("$" +:+ expand b m x y).
    by rewrite expand_plain.
Qed.

(** X23.  The translation template is filled in two passes, the text
    first and the language second, and the second pass reads the text
    that the first one has put in: a [{language}] inside the text is
    replaced by the language as well. *)
Theorem formatPrompt_translate_sequential (variables : gmap string string)
    segments language :
  variables !! "text" = Some (join "{language}" segments) ->
  variables !! "language" = Some language ->
  Forall (fun s => free_of "{" s = true) segments ->
  Forall (fun s => free_of "$" s = true) segments ->
  free_of "$" language = true ->
  formatPrompt "translate" variables
  = Return ("Translate the following text to " +:+ language +:+ ":"
            +:+ LF +:+ LF +:+ join language segments +:+ LF +:+ LF
            +:+ "Translation:").
Proof.
  intros Htext Hlanguage Hbraces Hdollars Hplain.
  unfold formatPrompt. simpl. rewrite Htext, Hlanguage.
  rewrite translate_text by (by apply free_of_join).
  by rewrite translate_language.
Qed.

(** X24.  [promptAgent] formats before it asks.  When [formatPrompt]
    throws, the same error is thrown and nothing is sent; otherwise
    exactly one chat request goes out, with the fixed system prompt and
    the formatted prompt as the user's message, and the agent returns a
    text that is not empty or throws an error whose message is not
    empty. *)
Theorem promptAgent_formats_first name (variables : gmap string string) st :
  match formatPrompt name variables with
  | Throw e => promptAgent svc name variables st = (Throw e, st)
  | Return prompt =>
      (promptAgent svc name variables st).2
      = advance
          (log (ChatRequest DEFAULT_MODEL
                  [ {| role := system; content := PROMPT_AGENT_SYSTEM |};
                    {| role := user; content := prompt |} ]
                  (7 # 10) 1000) st)
      /\ match (promptAgent svc name variables st).1 with
         | Return text => text <> ""
         | Throw e => message e <> ""
         end
  end.
Proof.
  unfold promptAgent. rewrite rethrow_id. unfold bind at 1.
  destruct (formatPrompt name variables) as [prompt|e]; [|done].
  unfold bind, ret, aiAgentWithSystemPrompt. rewrite rethrow_id.
  destruct (agent_reply_run svc
              [ {| role := system; content := PROMPT_AGENT_SYSTEM |};
                {| role := user; content := prompt |} ] st)
    as (r & _ & -> & Hfail).
  pose proof (agent_reply_nonempty r Hfail) as Hreply.
  by destruct (agent_reply r).
Qed.
End PromptClaims.

(* ===================================================================== *)
(** ** Further runs *)
(* ===================================================================== *)

Module MoreRuns.
Import Toy Feed.

(** The store refuses the search of the agents. *)
Lemma ragAgents_search_failure_witness :
  let st1 :=
    (searchDocuments store_down "hello" (Some RAG_OPTIONS) library).2 in
  searchDocuments store_down "hello" (Some RAG_OPTIONS) library
  = (Return (fail "permission denied"), st1)
  /\ exists msg,
      error (fail (A := list SearchResult) "permission denied") = Some msg
      /\ msg <> ""
      /\ ragAgent store_down "hello" library = (Throw (Error msg), st1)
      /\ ragAgentWithSources store_down "hello" library
         = (Throw (Error msg), st1)
      /\ List.filter is_chat (trace st1) = List.filter is_chat (trace library).
Proof.
  intros st1. split; [vm_compute; reflexivity|].
  apply (ragAgents_search_failure store_down "hello" library
           (fail "permission denied") st1);
    [vm_compute; reflexivity | reflexivity].
Defined.

(** The agent with sources on the three-document library. *)
Lemma ragAgentWithSources_sources_witness :
  let out := {| answer := "ok"; sources := [beta; alpha] |} in
  let st2 := (ragAgentWithSources services "hello" library).2 in
  ragAgentWithSources services "hello" library = (Return out, st2)
  /\ exists st1,
      searchDocuments services "hello" (Some RAG_OPTIONS) library
      = (Return (succeed [beta; alpha]), st1)
      /\ (length [beta; alpha] <= 3)%nat
      /\ descending [beta; alpha]
      /\ sent_between st1 st2
           [ChatRequest DEFAULT_MODEL
              [ {| role := system;
                   content := build_sources_prompt [beta; alpha] |};
                {| role := user; content := "hello" |} ]
              (7 # 10) 1000].
Proof.
  intros out st2. split; [vm_compute; reflexivity|].
  destruct (ragAgentWithSources_sources services "hello" library out st2)
    as (st1 & Hsearch & Hlen & _ & Hdesc & _ & Hsent);
    [vm_compute; reflexivity|].
  exists st1. split; [exact Hsearch|]. split; [exact Hlen|].
  split; [exact Hdesc|]. apply Hsent. discriminate.
Defined.

(** The only result above 0.95 is the stored row "beta". *)
Lemma searchDocuments_results_stored_witness :
  search (95 # 100) 5 = (Return (succeed [beta]), (search (95 # 100) 5).2)
  /\ exists qe,
      embed_outcome services "hello" = Return qe
      /\ exists row e,
          row ∈ documents library
          /\ sr_id beta = row_id row
          /\ sr_content beta = row_content row
          /\ row_embedding row = Some e
          /\ sr_similarity beta = (1 - cosine_distance services e qe)%Q.
Proof.
  split; [vm_compute; reflexivity|].
  destruct (searchDocuments_results_stored services "hello"
              (Some {| threshold := Some (95 # 100);
                       maxResults := Some 5%Z |})
              library (succeed [beta]) (search (95 # 100) 5).2 [beta])
    as (qe & Hqe & Hrows & _);
    [vm_compute; reflexivity | reflexivity |].
  exists qe. split; [exact Hqe|]. apply Hrows. apply list_elem_of_here.
Defined.

Lemma library_ok : table_ok library.
Proof.
  unfold table_ok, library, state_of; simpl.
  split; [|split].
  - repeat constructor; eexists; (split; [reflexivity|]);
      vm_compute; reflexivity.
  - repeat constructor; simpl; lia.
  - repeat (apply NoDup_cons_2;
            [rewrite ?elem_of_cons, elem_of_nil; intuition discriminate|]).
    apply NoDup_nil_2.
Defined.

(** The library stays in order when a document is added. *)
Lemma table_ok_preserved_witness :
  table_ok library
  /\ table_ok (addDocument services "delta" None library).2.
Proof.
  split; [exact library_ok|].
  exact (proj1 (table_ok_preserved services library library_ok)
           "delta" None).
Defined.

(** "gamma" is found before it is deleted and not after. *)
Lemma deleteDocument_then_search_witness :
  let st1 := (deleteDocument services 3 library).2 in
  searchDocuments services "hello" (Some wide) library
  = (Return (succeed [beta; alpha; gamma]),
     (searchDocuments services "hello" (Some wide) library).2)
  /\ deleteDocument services 3 library
     = (Return {| ack_success := true; ack_error := None |}, st1)
  /\ searchDocuments services "hello" (Some wide) st1
     = (Return (succeed [beta; alpha]),
        (searchDocuments services "hello" (Some wide) st1).2)
  /\ 3 ∉ (sr_id <$> [beta; alpha]).
Proof.
  intros st1. split; [vm_compute; reflexivity|].
  split; [vm_compute; reflexivity|].
  split; [vm_compute; reflexivity|].
  apply (deleteDocument_then_search services 3 library
           {| ack_success := true; ack_error := None |} st1
           "hello" (Some wide) (succeed [beta; alpha])
           (searchDocuments services "hello" (Some wide) st1).2);
    [vm_compute; reflexivity | reflexivity
    | vm_compute; reflexivity | reflexivity].
Defined.

(** A document added to the empty table is found by its own text. *)
Lemma addDocument_then_search_witness :
  let st1 := (addDocument services "hello" None empty).2 in
  addDocument services "hello" None empty = (Return (succeed hello_row), st1)
  /\ searchDocuments services "hello" None st1
     = (Return (succeed [hello_result]),
        (searchDocuments services "hello" None st1).2)
  /\ row_id hello_row ∈ sr_id <$> [hello_result].
Proof.
  intros st1. split; [vm_compute; reflexivity|].
  split; [vm_compute; reflexivity|].
  apply (addDocument_then_search services "hello" None empty
           (succeed hello_row) st1 hello_row (flat (5 # 10)) None
           (succeed [hello_result])
           (searchDocuments services "hello" None st1).2 [hello_result]);
    [ vm_compute; reflexivity | reflexivity | reflexivity
    | vm_compute; reflexivity | vm_compute; reflexivity | reflexivity
    | vm_compute; discriminate ].
Defined.

(** Without filters the hybrid search returns the three results of its
    search. *)
Lemma hybridSearch_no_filters_witness :
  let st1 :=
    (searchDocuments services "hello" (Some HYBRID_OPTIONS) library).2 in
  searchDocuments services "hello" (Some HYBRID_OPTIONS) library
  = (Return (succeed [beta; alpha; gamma]), st1)
  /\ hybridSearch services "hello" None library
     = (Return [beta; alpha; gamma], st1).
Proof.
  intros st1. split; [vm_compute; reflexivity|].
  apply (hybridSearch_no_filters services "hello" library
           (succeed [beta; alpha; gamma]) st1 [beta; alpha; gamma]);
    [vm_compute; reflexivity | reflexivity | reflexivity].
Defined.

(** Four chunks, two of them with a text. *)
Lemma streamChatCompletion_complete_witness :
  streamChatCompletion (opening hello) question collect None []
  = (Return (succeed "Hello"), ["Hel"; "lo"]).
Proof.
  apply (streamChatCompletion_complete (opening hello) collect question
           None [] hello);
    [ intros part seen; eexists; reflexivity | reflexivity | reflexivity ].
Defined.

(** The text that arrived before the stream broke reaches the caller
    through the callback only. *)
Lemma streamChatCompletion_broken_witness :
  exists r,
    streamChatCompletion (opening cut) question collect None []
    = (Return r, ["Hel"])
    /\ success r = false
    /\ data r = None
    /\ error r = Some "socket hang up".
Proof.
  apply (streamChatCompletion_broken (opening cut) collect question
           None [] cut (Error "socket hang up"));
    [ intros part seen; eexists; reflexivity | reflexivity | reflexivity ].
Defined.


(** A translation without its language. *)
Lemma formatPrompt_missing_variable_witness :
  formatPrompt "translate" {["text" := "bonjour"]}
  = Throw (Error "Missing variable: language").
Proof.
  apply (formatPrompt_missing_variable "translate" (built_in "translate")
           ["text"] "language" [] {["text" := "bonjour"]});
    [ do 2 apply list_elem_of_further; apply list_elem_of_here
    | reflexivity
    | repeat constructor; eexists; vm_compute; reflexivity
    | vm_compute; reflexivity ].
Defined.

(** A text with braces is summarised as it is. *)
Lemma formatPrompt_verbatim_witness :
  exists head tail,
    pt_template (built_in "summarize")
    = head +:+ "{" +:+ "text" +:+ "}" +:+ tail
    /\ formatPrompt "summarize" {["text" := "a {text} b"]}
       = Return (head +:+ "a {text} b" +:+ tail).
Proof.
  apply (formatPrompt_verbatim "summarize" (built_in "summarize") "text"
           {["text" := "a {text} b"]} "a {text} b");
    [ apply list_elem_of_here | reflexivity | vm_compute; reflexivity
    | reflexivity ].
Defined.

(** A price loses one of its two dollar signs. *)
Lemma formatPrompt_dollar_patterns_witness :
  exists head tail,
    pt_template (built_in "summarize")
    = head +:+ "{" +:+ "text" +:+ "}" +:+ tail
    /\ formatPrompt "summarize" {["text" := "costs $$5"]}
       = Return (head +:+ "costs $5" +:+ tail).
Proof.
  destruct (formatPrompt_dollar_patterns "summarize" (built_in "summarize")
              "text" {["text" := "costs $$5"]} "costs " "5")
    as (head & tail & Htemplate & _ & Hdollar);
    [ apply list_elem_of_here | reflexivity | reflexivity | reflexivity |].
  exists head, tail. split; [exact Htemplate|].
  apply Hdollar. vm_compute; reflexivity.
Defined.

(** A text that names the placeholder of the language. *)
Lemma formatPrompt_translate_sequential_witness :
  formatPrompt "translate"
    (<["language" := "French"]> {["text" := "say {language} twice"]})
  = Return ("Translate the following text to French:" +:+ LF +:+ LF
            +:+ "say French twice" +:+ LF +:+ LF +:+ "Translation:").
Proof.
  apply (formatPrompt_translate_sequential
           (<["language" := "French"]> {["text" := "say {language} twice"]})
           ["say "; " twice"] "French");
    [ vm_compute; reflexivity | vm_compute; reflexivity
    | repeat constructor | repeat constructor | reflexivity ].
Defined.
(** The client of the repository, which the policies do not admit:
    [deleteDocument] reports success and the row stays, the listing and
    the search succeed with no row, and [addDocument] is refused. *)
Example anonymous_client :
  (deleteDocument anonymous 1 library).1
  = Return {| ack_success := true; ack_error := None |}
  /\ documents (deleteDocument anonymous 1 library).2 = documents library
  /\ (getAllDocuments anonymous library).1 = Return (succeed [])
  /\ (searchDocuments anonymous "hello" None library).1
     = Return (succeed [])
  /\ (addDocument anonymous "hello" None library).1
     = Return (fail ("new row violates row-level security policy for table "
                     +:+ QUOTE +:+ "documents" +:+ QUOTE))
  /\ documents (addDocument anonymous "hello" None library).2
     = documents library.
Proof. repeat split; vm_compute; reflexivity. Qed.

(** A limit that is no [int] and a query vector of another dimension
    than the stored ones are refused by the store. *)
Example searchDocuments_refused :
  (searchDocuments services "hello"
     (Some {| threshold := None; maxResults := Some 2147483648%Z |})
     library).1
  = Return (fail ("value " +:+ QUOTE +:+ "2147483648" +:+ QUOTE
                  +:+ " is out of range for type integer"))
  /\ (searchDocuments short_vectors "hello" None library).1
     = Return (fail "different vector dimensions 3 and 1536").
Proof. split; vm_compute; reflexivity. Qed.

(** The signed-in client deletes the row, and lists what is left. *)
Example deleteDocument_signed_in :
  row_id <$> documents (deleteDocument services 1 library).2 = [2; 3]
  /\ (getAllDocuments services library).1
     = Return (succeed (documents library)).
Proof. split; vm_compute; reflexivity. Qed.
End MoreRuns.
